(** * BYOEI synchronisation pipeline (connectors/byoei.py)

    A shallow embedding of the [Bulker], the [Fetcher] and
    [ElasticServer.async_bulk], with the properties of the pipeline
    stated and proved over it.

    Conventions of the embedding.
    - Python dictionaries are finite maps ([gmap]); a dictionary that the
      code mutates in place lives in a store and is named by its location.
    - An exception is a value of [exn]; a coroutine that waits for ever on
      an empty queue is [Blocked].
    - A queue is the list of the values put on it, oldest first.  The
      queues of the code are bounded and a put waits while its queue is
      full; the embedding has the values put and their order, under the
      assumption that whoever reads a queue keeps reading it, so that a put
      always ends.  Nothing is stated here about a coroutine whose queue
      is never read.
    - The values of the fields of a document, the ids and the timestamps
      are strings.
    - The coroutines are cooperative tasks.  [get_docs] and
      [get_attachments] write different fields of the Fetcher, and the
      second takes the downloads in the order the first has scheduled
      them, so the second is run on the state the first leaves.  What a
      schedule decides is the order of their puts on the queue they share
      with the Bulker ([ElasticServer.interleave] gives it for any list
      of turns) and, when both coroutines raise, which of them raises
      first ([Fetcher.gather]).
    - The generator is the list of the pairs it yields and a lazy
      download is a function of its arguments: neither raises, and neither
      changes a dictionary once it has handed it over.
    - Logging and the measure of the time spent in [client.bulk] are left
      out. *)

From stdpp Require Import gmap strings list fin_maps.

Local Open Scope string_scope.
Local Open Scope nat_scope.
Local Open Scope list_scope.

(** ** Values shared by the components *)

Inductive exn :=
  | KeyError (key : string)
  | TypeError
  | ApiError.

Inductive outcome (A : Type) :=
  | Returned (a : A)
  | Raised (e : exn)
  | Blocked.
Arguments Returned {A} a.
Arguments Raised {A} e.
Arguments Blocked {A}.

(** A location of the store of dictionaries. *)
Abbreviation loc := nat.

(** A document: field name to field value. *)
Abbreviation document := (gmap string string).

(** The dictionary the Fetcher puts on the queue.  The key "doc" is absent
    from a delete; it holds the document object itself, not a copy. *)
Record operation := {
  _op_type : string;
  _index : string;
  _id : string;
  doc : option loc;
  doc_as_upsert : option bool
}.

(** What travels on the queue: a dictionary, or one of the strings that
    mark the end of a stream. *)
Inductive item :=
  | Str (s : string)
  | Dict (o : operation).

Definition END_DOCS : string := "END_DOCS".
Definition END_DOWNLOADS : string := "END_DOWNLOADS".

(** [doc == s] for a string literal [s]. *)
Definition item_is (it : item) (s : string) : bool :=
  match it with
  | Str t => bool_decide (t = s)
  | Dict _ => false
  end.

(** One entry of the [operations] list given to [client.bulk]. *)
Inductive wire :=
  | Action (action : string) (index : string) (id : string)
  | Source (body : loc) (upsert : bool).

(** ** Bulker *)

Module Bulker.

(** The fields of [self] that [run] reads or writes, with the locals of
    [run] ([tasks] is the local list [ops] of the source). *)
Record state := {
  ops : gmap string nat;
  chunk_size : nat;
  bulking : bool;
  batch : list wire;
  tasks : list (list wire);
  docs_ended : bool;
  downloads_ended : bool
}.

(** [Bulker.__init__] *)
Definition init : state :=
  {| ops := ∅; chunk_size := 500; bulking := false;
     batch := []; tasks := [];
     docs_ended := false; downloads_ended := false |}.

(** Lines 43-47 of [run]. *)
Definition enter (self : state) : state :=
  {| ops := ops self; chunk_size := chunk_size self; bulking := true;
     batch := []; tasks := [];
     docs_ended := false; downloads_ended := false |}.

Definition set_ended (self : state) (d dl : bool) : state :=
  {| ops := ops self; chunk_size := chunk_size self; bulking := bulking self;
     batch := batch self; tasks := tasks self;
     docs_ended := d; downloads_ended := dl |}.

(** [self.ops[operation] += 1] on a [defaultdict(int)]. *)
Definition count (self : state) (operation : string) : state :=
  {| ops := <[operation := S (ops self !!! operation)]> (ops self);
     chunk_size := chunk_size self; bulking := bulking self;
     batch := batch self; tasks := tasks self;
     docs_ended := docs_ended self; downloads_ended := downloads_ended self |}.

Definition append (self : state) (entries : list wire) : state :=
  {| ops := ops self; chunk_size := chunk_size self; bulking := bulking self;
     batch := batch self ++ entries; tasks := tasks self;
     docs_ended := docs_ended self; downloads_ended := downloads_ended self |}.

(** Lines 70-72 and 76-78: [ops.append(create_task(...(list(batch))))]
    then [batch.clear()]. *)
Definition dispatch (self : state) : state :=
  {| ops := ops self; chunk_size := chunk_size self; bulking := bulking self;
     batch := []; tasks := tasks self ++ [batch self];
     docs_ended := docs_ended self; downloads_ended := downloads_ended self |}.

(** Lines 61-68: the entries one dictionary adds to the batch. *)
Definition entries (o : operation) : exn + list wire :=
  let operation := _op_type o in
  if bool_decide (operation = "update") || bool_decide (operation = "create")
  then match doc o with
       | Some d => inr [Action "update" (_index o) (_id o); Source d true]
       | None => inl (KeyError "doc")
       end
  else inr [Action operation (_index o) (_id o)].

(** Lines 61-72: one dictionary taken from the queue. *)
Definition consume (self : state) (o : operation) : exn + state :=
  let self := count self (_op_type o) in
  match entries o with
  | inl e => inl e
  | inr es =>
      let self := append self es in
      inr (if chunk_size self * 2 <=? length (batch self)
           then dispatch self else self)
  end.

(** Lines 48-74, the [while True] loop.  The result holds the state at the
    [break] and what is left on the queue. *)
Fixpoint drain (self : state) (queue : list item)
  : outcome (state * list item) :=
  match queue with
  | [] => Blocked
  | doc :: queue =>
      let self :=
        set_ended self
          (if item_is doc END_DOCS then true else docs_ended self)
          (if item_is doc END_DOWNLOADS then true else downloads_ended self) in
      if docs_ended self && downloads_ended self then Returned (self, queue)
      else if item_is doc END_DOCS || item_is doc END_DOWNLOADS
      then drain self queue
      else match doc with
           | Str _ => Raised TypeError
           | Dict o =>
               match consume self o with
               | inl e => Raised e
               | inr self => drain self queue
               end
           end
  end.

(** Lines 76-78. *)
Definition flush (self : state) : state :=
  if 0 <? length (batch self) then dispatch self else self.

Section Run.

(** The answer of [client.bulk], [None] when it raises. *)
Context {response : Type}.
Variable client_bulk : list wire → option response.

(** Line 80, [asyncio.gather]: the results of all the tasks, in order. *)
Definition gather (ts : list (list wire)) : option (list response) :=
  mapM client_bulk ts.

(** [Bulker.run].  The result is the object after the run, the results of
    the dispatch calls and what is left on the queue. *)
Definition run (self : state) (queue : list item)
  : outcome (state * list response * list item) :=
  match drain (enter self) queue with
  | Returned (self, rest) =>
      let self := flush self in
      match gather (tasks self) with
      | Some rs => Returned (self, rs, rest)
      | None => Raised ApiError
      end
  | Raised e => Raised e
  | Blocked => Blocked
  end.

End Run.

End Bulker.

(** ** Fetcher *)

Module Fetcher.

(** The second component of what the generator yields.  Called with
    [doit] and [timestamp] and awaited, it gives [None] or a dictionary,
    which is an object of the store as any other: the code keeps and
    changes the very object the download has returned. *)
Definition lazy_download := bool → option string → option loc.

(** What is put on [self._downloads]: a task, known here by the value it
    gives when awaited, or the string "END". *)
Inductive download :=
  | Task (data : option loc)
  | END.

(** The fields of [self], the store of the dictionaries the coroutines
    work on, and the local [seen_ids] of [get_docs].  [queue] holds what
    the coroutine at hand has put on [self.queue]; [calls] records the
    arguments of each call of a lazy download; [clock] counts the calls
    of [iso_utc]. *)
Record state := {
  store : gmap loc document;
  queue : list item;
  _downloads : list download;
  index : string;
  existing_ids : gset string;
  existing_timestamps : gmap string string;
  sync_runs : bool;
  total_downloads : nat;
  total_docs_updated : nat;
  total_docs_created : nat;
  seen_ids : gset string;
  calls : list (bool * option string);
  clock : nat
}.

(** [Fetcher.__init__], on a store and a clock. *)
Definition init (store : gmap loc document) (clock : nat) (index : string)
    (existing_ids : gset string) (existing_timestamps : gmap string string)
  : state :=
  {| store := store; queue := []; _downloads := []; index := index;
     existing_ids := existing_ids; existing_timestamps := existing_timestamps;
     sync_runs := false; total_downloads := 0; total_docs_updated := 0;
     total_docs_created := 0; seen_ids := ∅; calls := []; clock := clock |}.

Definition set_store (f : gmap loc document → gmap loc document) (s : state) :=
  {| store := f (store s); queue := queue s; _downloads := _downloads s;
     index := index s; existing_ids := existing_ids s;
     existing_timestamps := existing_timestamps s; sync_runs := sync_runs s;
     total_downloads := total_downloads s;
     total_docs_updated := total_docs_updated s;
     total_docs_created := total_docs_created s; seen_ids := seen_ids s;
     calls := calls s; clock := clock s |}.

Definition set_queue (f : list item → list item) (s : state) :=
  {| store := store s; queue := f (queue s); _downloads := _downloads s;
     index := index s; existing_ids := existing_ids s;
     existing_timestamps := existing_timestamps s; sync_runs := sync_runs s;
     total_downloads := total_downloads s;
     total_docs_updated := total_docs_updated s;
     total_docs_created := total_docs_created s; seen_ids := seen_ids s;
     calls := calls s; clock := clock s |}.

Definition set_downloads (f : list download → list download) (s : state) :=
  {| store := store s; queue := queue s; _downloads := f (_downloads s);
     index := index s; existing_ids := existing_ids s;
     existing_timestamps := existing_timestamps s; sync_runs := sync_runs s;
     total_downloads := total_downloads s;
     total_docs_updated := total_docs_updated s;
     total_docs_created := total_docs_created s; seen_ids := seen_ids s;
     calls := calls s; clock := clock s |}.

Definition set_sync_runs (b : bool) (s : state) :=
  {| store := store s; queue := queue s; _downloads := _downloads s;
     index := index s; existing_ids := existing_ids s;
     existing_timestamps := existing_timestamps s; sync_runs := b;
     total_downloads := total_downloads s;
     total_docs_updated := total_docs_updated s;
     total_docs_created := total_docs_created s; seen_ids := seen_ids s;
     calls := calls s; clock := clock s |}.

Definition set_total_downloads (f : nat → nat) (s : state) :=
  {| store := store s; queue := queue s; _downloads := _downloads s;
     index := index s; existing_ids := existing_ids s;
     existing_timestamps := existing_timestamps s; sync_runs := sync_runs s;
     total_downloads := f (total_downloads s);
     total_docs_updated := total_docs_updated s;
     total_docs_created := total_docs_created s; seen_ids := seen_ids s;
     calls := calls s; clock := clock s |}.

Definition set_total_docs_updated (f : nat → nat) (s : state) :=
  {| store := store s; queue := queue s; _downloads := _downloads s;
     index := index s; existing_ids := existing_ids s;
     existing_timestamps := existing_timestamps s; sync_runs := sync_runs s;
     total_downloads := total_downloads s;
     total_docs_updated := f (total_docs_updated s);
     total_docs_created := total_docs_created s; seen_ids := seen_ids s;
     calls := calls s; clock := clock s |}.

Definition set_total_docs_created (f : nat → nat) (s : state) :=
  {| store := store s; queue := queue s; _downloads := _downloads s;
     index := index s; existing_ids := existing_ids s;
     existing_timestamps := existing_timestamps s; sync_runs := sync_runs s;
     total_downloads := total_downloads s;
     total_docs_updated := total_docs_updated s;
     total_docs_created := f (total_docs_created s); seen_ids := seen_ids s;
     calls := calls s; clock := clock s |}.

Definition set_seen_ids (f : gset string → gset string) (s : state) :=
  {| store := store s; queue := queue s; _downloads := _downloads s;
     index := index s; existing_ids := existing_ids s;
     existing_timestamps := existing_timestamps s; sync_runs := sync_runs s;
     total_downloads := total_downloads s;
     total_docs_updated := total_docs_updated s;
     total_docs_created := total_docs_created s; seen_ids := f (seen_ids s);
     calls := calls s; clock := clock s |}.

Definition set_calls
    (f : list (bool * option string) → list (bool * option string))
    (s : state) :=
  {| store := store s; queue := queue s; _downloads := _downloads s;
     index := index s; existing_ids := existing_ids s;
     existing_timestamps := existing_timestamps s; sync_runs := sync_runs s;
     total_downloads := total_downloads s;
     total_docs_updated := total_docs_updated s;
     total_docs_created := total_docs_created s; seen_ids := seen_ids s;
     calls := f (calls s); clock := clock s |}.

Definition set_clock (f : nat → nat) (s : state) :=
  {| store := store s; queue := queue s; _downloads := _downloads s;
     index := index s; existing_ids := existing_ids s;
     existing_timestamps := existing_timestamps s; sync_runs := sync_runs s;
     total_downloads := total_downloads s;
     total_docs_updated := total_docs_updated s;
     total_docs_created := total_docs_created s; seen_ids := seen_ids s;
     calls := calls s; clock := f (clock s) |}.

(** *** The monad of a coroutine: state, exceptions, blocking *)

Definition M (A : Type) : Type := state → state * outcome A.

Definition ret {A} (a : A) : M A := λ s, (s, Returned a).

Definition bind {A B} (m : M A) (k : A → M B) : M B :=
  λ s, match m s with
       | (s, Returned a) => k a s
       | (s, Raised e) => (s, Raised e)
       | (s, Blocked) => (s, Blocked)
       end.

Definition raise {A} (e : exn) : M A := λ s, (s, Raised e).
Definition gets {A} (f : state → A) : M A := λ s, (s, Returned (f s)).
Definition modify (f : state → state) : M unit := λ s, (f s, Returned tt).

Declare Scope fetcher_scope.
Delimit Scope fetcher_scope with fetcher.
Notation "x <- m ;; k" := (bind m (λ x, k))
  (at level 100, m at next level, right associativity) : fetcher_scope.
Notation "m ;; k" := (bind m (λ _, k))
  (at level 100, right associativity) : fetcher_scope.
Local Open Scope fetcher_scope.

(** *** Dictionaries in the store *)

(** [d.pop(key)] *)
Definition dict_pop (d : loc) (key : string) : M string :=
  st <- gets store ;;
  match st !! d with
  | None => raise TypeError
  | Some fields =>
      match fields !! key with
      | None => raise (KeyError key)
      | Some v => modify (set_store <[d := delete key fields]>) ;; ret v
      end
  end.

(** [d[key] = v] *)
Definition dict_set (d : loc) (key v : string) : M unit :=
  st <- gets store ;;
  match st !! d with
  | None => raise TypeError
  | Some fields => modify (set_store <[d := <[key := v]> fields]>)
  end.

(** [d.get(key)], which also answers [key in d]. *)
Definition dict_get (d : loc) (key : string) : M (option string) :=
  st <- gets store ;;
  match st !! d with
  | None => raise TypeError
  | Some fields => ret (fields !! key)
  end.

(** [d[key]] *)
Definition dict_item (d : loc) (key : string) : M string :=
  v <- dict_get d key ;;
  match v with
  | None => raise (KeyError key)
  | Some v => ret v
  end.

(** [await self.queue.put(it)], on a queue that has room or gets some:
    the value is added at the end.  The wait on a full queue is not
    represented. *)
Definition put (it : item) : M unit := modify (set_queue (λ q, q ++ [it])).

(** [await self._downloads.put(t)], on a queue that has room or gets
    some. *)
Definition schedule (t : download) : M unit :=
  modify (set_downloads (λ q, q ++ [t])).

(** Call of the second component of a yielded pair; [None] is not
    callable. *)
Definition call (f : option lazy_download) (doit : bool)
    (timestamp : option string) : M (option loc) :=
  match f with
  | None => raise TypeError
  | Some f =>
      modify (set_calls (λ c, c ++ [(doit, timestamp)])) ;;
      ret (f doit timestamp)
  end.

(** [for x in l: body(x)] *)
Fixpoint for_each {A} (l : list A) (body : A → M unit) : M unit :=
  match l with
  | [] => ret tt
  | x :: l => body x ;; for_each l body
  end.

Section Coroutines.

(** [connectors.utils.iso_utc], as a function of the number of calls made
    before. *)
Variable iso_utc : nat → string.

Definition now : M string :=
  t <- gets clock ;;
  modify (set_clock S) ;;
  ret (iso_utc t).

(** Lines 158-164.  The result says whether the loop goes on to the next
    pair ([continue]). *)
Definition unchanged (doc : loc) (doc_id : string)
    (lazy_download : option lazy_download) : M bool :=
  timestamp <- dict_get doc "timestamp" ;;
  match timestamp with
  | Some timestamp =>
      stored <- gets existing_timestamps ;;
      if bool_decide (default "" (stored !! doc_id) = timestamp)
      then call lazy_download false None ;; ret true
      else ret false
  | None =>
      t <- now ;;
      dict_set doc "timestamp" t ;;
      ret false
  end.

(** Lines 166-188. *)
Definition enqueue (doc : loc) (doc_id : string)
    (lazy_download : option lazy_download) : M unit :=
  match lazy_download with
  | Some _ =>
      timestamp <- dict_item doc "timestamp" ;;
      data <- call lazy_download true (Some timestamp) ;;
      schedule (Task data)
  | None => ret tt
  end ;;
  ids <- gets existing_ids ;;
  operation <-
    (if bool_decide (doc_id ∈ ids)
     then modify (set_total_docs_updated S) ;; ret "update"
     else modify (set_total_docs_created S) ;; ret "create") ;;
  i <- gets index ;;
  put (Dict {| _op_type := operation; _index := i; _id := doc_id;
               doc := Some doc; doc_as_upsert := Some true |}).

(** Lines 148-189, the body of the [async for]. *)
Definition look_at (pair : loc * option lazy_download) : M unit :=
  let '(doc, lazy_download) := pair in
  doc_id <- dict_pop doc "_id" ;;
  dict_set doc "id" doc_id ;;
  modify (set_seen_ids (λ seen, {[doc_id]} ∪ seen)) ;;
  skip <- unchanged doc doc_id lazy_download ;;
  if skip then ret tt else enqueue doc doc_id lazy_download.

(** Lines 193-198, the body of the second loop. *)
Definition delete_missing (doc_id : string) : M unit :=
  seen <- gets seen_ids ;;
  if bool_decide (doc_id ∈ seen) then ret tt
  else
    i <- gets index ;;
    put (Dict {| _op_type := "delete"; _index := i; _id := doc_id;
                 doc := None; doc_as_upsert := None |}).

(** [Fetcher.get_docs], on the pairs the generator yields. *)
Definition get_docs (generator : list (loc * option lazy_download))
  : M unit :=
  modify (set_sync_runs true) ;;
  modify (set_seen_ids (λ _, ∅)) ;;
  for_each generator look_at ;;
  ids <- gets existing_ids ;;
  for_each (elements ids) delete_missing ;;
  schedule END ;;
  put (Str END_DOCS).

(** Lines 115-127: what is done with the value of an awaited task.  The
    key "_id" is taken out of the dictionary the task has given, and that
    same dictionary is put on the queue as the document. *)
Definition attach (data : option loc) : M unit :=
  match data with
  | None => ret tt
  | Some data =>
      modify (set_total_downloads S) ;;
      i <- gets index ;;
      data_id <- dict_pop data "_id" ;;
      put (Dict {| _op_type := "update"; _index := i; _id := data_id;
                   doc := Some data; doc_as_upsert := Some true |})
  end.

(** Lines 107-132, the [while self.sync_runs] loop, on what is still on
    [self._downloads]. *)
Fixpoint downloading (downloads : list download) : M unit :=
  running <- gets sync_runs ;;
  if negb running then ret tt
  else match downloads with
       | [] => λ s, (s, Blocked)
       | coro :: downloads =>
           modify (set_downloads (drop 1)) ;;
           match coro with
           | END => ret tt
           | Task data => attach data ;; downloading downloads
           end
       end.

(** [Fetcher.get_attachments] *)
Definition get_attachments : M unit :=
  downloads <- gets _downloads ;;
  downloading downloads ;;
  put (Str END_DOWNLOADS).

(** [asyncio.gather(t1, t2)] on the outcomes of two tasks.  It returns
    when both have returned.  It raises as soon as one of them raises,
    whatever the other does then; when both raise, [first] says whether
    [t1] is the one that raises first. *)
Definition gather {A B} (first : bool) (t1 : outcome A) (t2 : outcome B)
  : outcome (A * B) :=
  match t1, t2 with
  | Returned a, Returned b => Returned (a, b)
  | Raised e1, Raised e2 => Raised (if first then e1 else e2)
  | Raised e, _ => Raised e
  | _, Raised e => Raised e
  | _, _ => Blocked
  end.

(** [Fetcher.run]: the state of the fetcher after both coroutines, and
    what each of them has put on the queue.  [get_attachments] takes the
    downloads [get_docs] has scheduled, up to "END" if [get_docs] has come
    to put it; [docs_first] is the [first] of [gather]. *)
Definition run (docs_first : bool)
    (generator : list (loc * option lazy_download))
    (self : state) : outcome (state * list item * list item) :=
  let t1 := get_docs generator self in
  let docs := queue t1.1 in
  let t2 := get_attachments (set_queue (λ _, []) t1.1) in
  match gather docs_first t1.2 t2.2 with
  | Returned _ => Returned (t2.1, docs, queue t2.1)
  | Raised e => Raised e
  | Blocked => Blocked
  end.

End Coroutines.

End Fetcher.

(** ** ElasticServer.async_bulk *)

Module ElasticServer.

(** The dictionary [async_bulk] returns. *)
Record stats := {
  bulk_operations : gmap string nat;
  doc_created : nat;
  attachment_extracted : nat;
  doc_updated : nat
}.

(** Lines 253-259: the ids and the timestamps of the documents of the
    index, from the [_source] of each document [get_existing_ids] yields. *)
Fixpoint existing (es_docs : list document)
    (existing_ids : gset string) (existing_timestamps : gmap string string)
  : exn + (gset string * gmap string string) :=
  match es_docs with
  | [] => inr (existing_ids, existing_timestamps)
  | es_doc :: es_docs =>
      match es_doc !! "id" with
      | None => inl (KeyError "id")
      | Some i =>
          match es_doc !! "timestamp" with
          | None => inl (KeyError "timestamp")
          | Some t =>
              existing es_docs ({[i]} ∪ existing_ids)
                (<[i := t]> existing_timestamps)
          end
      end
  end.

(** The two coroutines of [Fetcher.run] put on one queue, each in its own
    order; [turns] says whose value comes next ([true]: [get_docs]). *)
Fixpoint interleave (turns : list bool) (docs downloads : list item)
  : list item :=
  match turns, docs, downloads with
  | _, [], _ => downloads
  | _, _, [] => docs
  | [], _, _ => docs ++ downloads
  | true :: turns, d :: docs, _ => d :: interleave turns docs downloads
  | false :: turns, _, a :: downloads => a :: interleave turns docs downloads
  end.

Section Sync.

Variable iso_utc : nat → string.
Context {response : Type}.
Variable client_bulk : list wire → option response.

(** [async_bulk], on the store of the dictionaries the generator and the
    downloads give, the clock, the schedule ([docs_first] for
    [Fetcher.run], [turns] for the order of the puts on the queue), and
    the documents of the index ([None]: there is no such index).  On the
    dictionaries the Fetcher puts, the Bulker raises only at its last
    line, which it reaches after it has read what both coroutines of the
    Fetcher put last: [gather] at line 281 has the error of the Fetcher or
    that of the Bulker, never two to choose from. *)
Definition async_bulk (store : gmap loc document) (clock : nat)
    (docs_first : bool) (turns : list bool)
    (stored : option (list document))
    (index : string) (generator : list (loc * option Fetcher.lazy_download))
  : outcome stats :=
  match existing (default [] stored) ∅ ∅ with
  | inl e => Raised e
  | inr (existing_ids, existing_timestamps) =>
      let fetcher :=
        Fetcher.init store clock index existing_ids existing_timestamps in
      match Fetcher.run iso_utc docs_first generator fetcher with
      | Returned (fetcher, docs, downloads) =>
          let stream := interleave turns docs downloads in
          match Bulker.run client_bulk Bulker.init stream with
          | Returned (bulker, _, _) =>
              Returned
                {| bulk_operations := Bulker.ops bulker;
                   doc_created := Fetcher.total_docs_created fetcher;
                   attachment_extracted := Fetcher.total_downloads fetcher;
                   doc_updated := Fetcher.total_docs_updated fetcher |}
          | Raised e => Raised e
          | Blocked => Blocked
          end
      | Raised e => Raised e
      | Blocked => Blocked
      end
  end.

End Sync.

End ElasticServer.

(** ** ESIndex.get_all_docs (connectors/es/index.py) *)

Module ESIndex.

(** The exceptions of the file. *)
Inductive error :=
  | ApiError (status_code : nat)
  | DocumentNotFoundError
  | NotImplementedError.

(** How the iteration of the generator goes: it ends, it raises, or it is
    still running when the steps allowed to it are spent. *)
Inductive ending :=
  | Exhausted
  | Failed (e : error)
  | Unfinished.

Definition DEFAULT_PAGE_SIZE : nat := 100.

Section Index.

Context {hit object : Type}.

(** [client.search], through the retrier, for the query and the sort of
    the call: given [from_] and [size], the hits and
    [hits.total.value], or the error it raises. *)
Variable search : nat → nat → error + (list hit * nat).

(** The method the classes that extend [ESIndex] implement; in [ESIndex]
    it raises [NotImplementedError]. *)
Variable _create_object : hit → error + object.

(** What [client.indices.refresh] raises, through the retrier, if it
    raises. *)
Variable refresh : option error.

Variable serverless : bool.

(** Lines 263-264: the objects yielded for a page, and the error of
    [_create_object] if it raises. *)
Fixpoint yield_hits (hits : list hit) : list object * option error :=
  match hits with
  | [] => ([], None)
  | hit :: hits =>
      match _create_object hit with
      | inl e => ([], Some e)
      | inr o => let '(os, r) := yield_hits hits in (o :: os, r)
      end
  end.

(** Lines 239-267, the [while True] loop, for at most [fuel] turns: the
    objects yielded and how the iteration goes. *)
Fixpoint paging (fuel page_size count offset : nat)
  : list object * ending :=
  match fuel with
  | 0 => ([], Unfinished)
  | S fuel =>
      match search offset page_size with
      | inl e => ([], Failed e)
      | inr (hits, total) =>
          let count := count + length hits in
          match yield_hits hits with
          | (os, Some e) => (os, Failed e)
          | (os, None) =>
              if total <=? count then (os, Exhausted)
              else
                let '(more, r) :=
                  paging fuel page_size count (offset + length hits) in
                (os ++ more, r)
          end
      end
  end.

(** [ESIndex.get_all_docs] *)
Definition get_all_docs (fuel page_size : nat) : list object * ending :=
  match (if serverless then None else refresh) with
  | Some e => ([], Failed e)
  | None => paging fuel page_size 0 0
  end.

End Index.

(** A [client.search] over an index that holds [docs] and does not
    change.  *)
Definition search_over {hit} (docs : list hit) (from size : nat)
  : error + (list hit * nat) :=
  inr (take size (drop from docs), length docs).

End ESIndex.

(** ** Notions used in the statements *)

(** [s] has been read from the queue within [l]. *)
Definition observed (s : string) (l : list item) : bool :=
  existsb (λ it, item_is it s) l.

(** Both end-of-stream strings have been read within [l]. *)
Definition both_observed (l : list item) : bool :=
  observed END_DOCS l && observed END_DOWNLOADS l.

(** The flags of the loop of [Bulker.run] once [l] has been read, from
    the flags [d] and [dl]. *)
Definition ended (d dl : bool) (l : list item) : bool :=
  (d || observed END_DOCS l) && (dl || observed END_DOWNLOADS l).

(** The dictionaries among the values of a queue, in order. *)
Definition operations (l : list item) : list operation :=
  omap (λ it, match it with Dict o => Some o | Str _ => None end) l.

(** The sum of the counters of a [defaultdict(int)]. *)
Definition total (m : gmap string nat) : nat :=
  map_fold (λ _ n acc, n + acc) 0 m.

(** The batch [b] holds the action of an upsert of [o] and, next to it,
    the document [body]. *)
Definition carries (o : operation) (body : loc) (b : list wire) : Prop :=
  ∃ pre post,
    b = pre ++ Action "update" (_index o) (_id o) :: Source body true :: post.

(** The document [d] after line 149: the key "_id", of value [v], is
    removed and the key "id" holds [v]. *)
Definition renamed (d : document) (v : string) : document :=
  <["id" := v]> (delete "_id" d).

(** The document [d] after line 164, which is run for a document that
    has no key "timestamp"; [t] is the time [iso_utc] gives. *)
Definition stamped (t : string) (d : document) : document :=
  match d !! "timestamp" with
  | Some _ => d
  | None => <["timestamp" := t]> d
  end.

(** The test of lines 158-159, on the document [d] of id [v]. *)
Definition same_timestamp (stored : gmap string string) (d : document)
    (v : string) : bool :=
  match d !! "timestamp" with
  | Some timestamp => bool_decide (default "" (stored !! v) = timestamp)
  | None => false
  end.

(** The dictionary of lines 181-187 for the document at [l], of id [v]. *)
Definition classified (ids : gset string) (index : string) (l : loc)
    (v : string) : operation :=
  {| _op_type := if bool_decide (v ∈ ids) then "update" else "create";
     _index := index; _id := v; doc := Some l; doc_as_upsert := Some true |}.

(** The dictionary of line 197. *)
Definition deletion (index : string) (v : string) : operation :=
  {| _op_type := "delete"; _index := index; _id := v;
     doc := None; doc_as_upsert := None |}.

(** The id of the document of a yielded pair, in the store [st]. *)
Definition yielded (st : gmap loc document)
    (pair : loc * option Fetcher.lazy_download) : option string :=
  d ← st !! pair.1; d !! "_id".

(** The dictionary the body of the [async for] puts on the queue for a
    yielded pair, if it puts one. *)
Definition classify (st : gmap loc document) (stored : gmap string string)
    (ids : gset string) (index : string)
    (pair : loc * option Fetcher.lazy_download) : option operation :=
  d ← st !! pair.1;
  v ← d !! "_id";
  if same_timestamp stored d v then None
  else Some (classified ids index pair.1 v).

(** The operations of type [t] in [l]. *)
Definition of_type (t : string) (l : list operation) : list operation :=
  filter (λ o, _op_type o = t) l.

(** The dictionaries the second loop of [get_docs] puts on the queue, for
    the ids [ids] in the order it meets them. *)
Definition deletions (seen : gset string) (index : string)
    (ids : list string) : list operation :=
  deletion index <$> filter (λ v, v ∉ seen) ids.

(** The dictionaries on which lines 61-68 of [Bulker.run] do not raise. *)
Definition sound (o : operation) : Prop :=
  ∃ es, Bulker.entries o = inr es.

(** The values on which the body of the loop of [Bulker.run] raises [e]. *)
Definition malformed (it : item) (e : exn) : Prop :=
  match it with
  | Str s => s ≠ END_DOCS ∧ s ≠ END_DOWNLOADS ∧ e = TypeError
  | Dict o => Bulker.entries o = inl e
  end.

(** *** Properties kept by the loop of [Bulker.run]

    Each is a property of the values read so far and of the state. *)

(** The batch is below the threshold, and each dispatched batch has
    reached it by at most one entry. *)
Definition sized (c : nat) (l : list item) (s : Bulker.state) : Prop :=
  Bulker.chunk_size s = c
  ∧ length (Bulker.batch s) < 2 * c
  ∧ Forall (λ b, 2 * c ≤ length b ≤ 2 * c + 1) (Bulker.tasks s).

Definition upsert (o : operation) : Prop :=
  _op_type o = "update" ∨ _op_type o = "create".

(** Every update or create read so far is in the batch or in a
    dispatched batch. *)
Definition placed (l : list item) (s : Bulker.state) : Prop :=
  ∀ o, Dict o ∈ l → upsert o →
  ∃ body, doc o = Some body
          ∧ (carries o body (Bulker.batch s)
             ∨ ∃ b, b ∈ Bulker.tasks s ∧ carries o body b).

(** No entry of a batch has the action "create". *)
Definition no_create (b : list wire) : Prop :=
  ∀ index id, Action "create" index id ∉ b.

Definition plain (l : list item) (s : Bulker.state) : Prop :=
  no_create (Bulker.batch s) ∧ Forall no_create (Bulker.tasks s).

(** The counters have grown by the number of dictionaries read. *)
Definition counted (n : nat) (l : list item) (s : Bulker.state) : Prop :=
  total (Bulker.ops s) = n + length (operations l).

(** *** Properties of the steps of the Fetcher *)

(** The fields the body of the [async for] leaves as they are. *)
Definition frame (s s' : Fetcher.state) : Prop :=
  Fetcher.existing_ids s' = Fetcher.existing_ids s
  ∧ Fetcher.existing_timestamps s' = Fetcher.existing_timestamps s
  ∧ Fetcher.index s' = Fetcher.index s
  ∧ Fetcher.sync_runs s' = Fetcher.sync_runs s
  ∧ Fetcher.total_downloads s' = Fetcher.total_downloads s.

(** The dictionaries [get_attachments] puts on the queue. *)
Definition attached (o : operation) : Prop :=
  _op_type o = "update" ∧ is_Some (doc o).

(** From [s] to [s'], [get_attachments] has put [ops] on the queue. *)
Definition downloaded (s s' : Fetcher.state) (ops : list operation) : Prop :=
  Fetcher.queue s' = Fetcher.queue s ++ (Dict <$> ops)
  ∧ Fetcher.total_downloads s' = Fetcher.total_downloads s + length ops
  ∧ Fetcher.total_docs_created s' = Fetcher.total_docs_created s
  ∧ Fetcher.total_docs_updated s' = Fetcher.total_docs_updated s
  ∧ Fetcher.sync_runs s' = Fetcher.sync_runs s
  ∧ Forall attached ops.

(** *** What a run gives *)

(** The batches given to the dispatch calls of a run that has returned. *)
Definition dispatched {R} (r : outcome (Bulker.state * list R * list item))
  : list (list wire) :=
  match r with
  | Returned (s, _, _) => Bulker.tasks s
  | _ => []
  end.

(** What the two coroutines of the Fetcher put on the queue in a call of
    [async_bulk]. *)
Definition emitted (iso_utc : nat → string) (store : gmap loc document)
    (clock : nat) (docs_first : bool) (stored : option (list document))
    (index : string)
    (generator : list (loc * option Fetcher.lazy_download)) : list item :=
  match ElasticServer.existing (default [] stored) ∅ ∅ with
  | inr (existing_ids, existing_timestamps) =>
      match Fetcher.run iso_utc docs_first generator
              (Fetcher.init store clock index existing_ids
                 existing_timestamps) with
      | Returned (_, docs, downloads) => docs ++ downloads
      | _ => []
      end
  | inl _ => []
  end.

(** ** Inputs of the examples *)

(** A [client.bulk] that never raises. *)
Definition always_ok : list wire → option unit := λ _, Some tt.

(** A clock that always gives the same time. *)
Definition ex_clock : nat → string := λ _, "2024-01-01T00:00:00+00:00".

(** The dictionary of an attachment for "A", and where the examples keep
    it in the store. *)
Definition ex_attachment : document := {["_id" := "A"; "body" := "text"]}.
Definition ex_attachment_loc : loc := 9.

(** A lazy download that gives that dictionary when committed. *)
Definition ex_download : Fetcher.lazy_download :=
  λ doit _, if doit then Some ex_attachment_loc else None.

Definition ex_delete : operation := deletion "idx" "D".

Definition ex_queue_1001 : list item :=
  replicate 999 (Dict ex_delete)
  ++ [Dict (classified ∅ "idx" 0 "A"); Str END_DOCS; Str END_DOWNLOADS].

Definition ex_queue_create : list item :=
  [Dict (classified ∅ "idx" 0 "A"); Str END_DOCS; Str END_DOWNLOADS].

Definition ex_store_A : gmap loc document :=
  {[0 := {["_id" := "A"; "timestamp" := "T1"]}]}.

Definition ex_fetched_A : Fetcher.state :=
  (Fetcher.get_docs ex_clock [(0, None)]
     (Fetcher.init ex_store_A 0 "idx" ∅ ∅)).1.

Definition ex_store_changed : gmap loc document :=
  {[0 := {["_id" := "A"; "timestamp" := "T1-changed"]};
    ex_attachment_loc := ex_attachment]}.

Definition ex_fetcher_AB : Fetcher.state :=
  Fetcher.init ex_store_changed 0 "idx" {["A"; "B"]}
    {["A" := "T1"; "B" := "T2"]}.

Definition ex_fetcher_A : Fetcher.state :=
  Fetcher.init ex_store_A 0 "idx" {["A"]} {["A" := "T1"]}.

Definition ex_store_plain : gmap loc document :=
  {[0 := {["_id" := "A"; "title" := "a"]}]}.

Definition ex_store_blank : gmap loc document :=
  {[0 := {["_id" := "A"; "timestamp" := ""]}]}.

Definition ex_fetched_blank : Fetcher.state * outcome unit :=
  Fetcher.get_docs ex_clock [(0, Some ex_download)]
    (Fetcher.init ex_store_blank 0 "idx" ∅ ∅).

Definition ex_fetched_unchanged : Fetcher.state * outcome unit :=
  Fetcher.get_docs ex_clock [(0, None)] ex_fetcher_A.

Definition ex_fetched_unchanged_download : Fetcher.state * outcome unit :=
  Fetcher.get_docs ex_clock [(0, Some ex_download)] ex_fetcher_A.

Definition ex_store_twins : gmap loc document :=
  {[0 := {["_id" := "A"; "timestamp" := "T1"]};
    1 := {["_id" := "A"; "timestamp" := "T2"]}]}.

Definition ex_fetched_twins : Fetcher.state * outcome unit :=
  Fetcher.get_docs ex_clock [(0, None); (1, None)]
    (Fetcher.init ex_store_twins 0 "idx" ∅ ∅).

(** The new document "A" and the dictionary its download gives. *)
Definition ex_store_sync : gmap loc document :=
  {[0 := {["_id" := "A"; "timestamp" := "T1"]};
    ex_attachment_loc := ex_attachment]}.

Definition ex_sync : outcome ElasticServer.stats :=
  ElasticServer.async_bulk ex_clock always_ok ex_store_sync 0 true [] None
    "idx" [(0, Some ex_download)].

(** ** Notions of the further properties *)

(** The entries lines 61-68 of [Bulker.run] add to the batch for [o]; none
    when they raise. *)
Definition entries_of (o : operation) : list wire :=
  match Bulker.entries o with
  | inr es => es
  | inl _ => []
  end.

(** The entries of the dictionaries of [l], in the order of [l]. *)
Definition wire_stream (l : list item) : list wire :=
  concat (entries_of <$> operations l).

(** The dispatched batches and the batch hold the entries of the values
    read, in order, after [pre]. *)
Definition streamed (pre : list wire) (l : list item) (s : Bulker.state)
  : Prop :=
  concat (Bulker.tasks s) ++ Bulker.batch s = pre ++ wire_stream l.

(** Each counter has grown by the number of dictionaries of its type. *)
Definition tallied (m : gmap string nat) (l : list item) (s : Bulker.state)
  : Prop :=
  ∀ k, Bulker.ops s !!! k = m !!! k + length (of_type k (operations l)).

(** No dispatched batch is empty. *)
Definition filled (l : list item) (s : Bulker.state) : Prop :=
  Forall (λ b, b ≠ []) (Bulker.tasks s).

(** What the body of the [async for] needs of a yielded pair not to
    raise, in the store [st]: the document is there, it has the key "_id",
    and if its timestamp is the stored one the pair has a lazy download. *)
Definition acceptable (st : gmap loc document) (stored : gmap string string)
    (pair : loc * option Fetcher.lazy_download) : Prop :=
  ∃ d v, st !! pair.1 = Some d
         ∧ d !! "_id" = Some v
         ∧ (same_timestamp stored d v = true → is_Some pair.2).

(** The [doit] with which the lazy download of a pair is called, if the
    pair has one: [False] for a document that is skipped. *)
Definition doit_of (st : gmap loc document) (stored : gmap string string)
    (pair : loc * option Fetcher.lazy_download) : option bool :=
  d ← st !! pair.1;
  v ← d !! "_id";
  _ ← pair.2;
  Some (negb (same_timestamp stored d v)).

(** The dictionary lines 119-127 put on the queue for what an awaited
    task has given, in the store [st]: none for [None]; for a dictionary
    with the key "_id", an update of that id whose document is that same
    dictionary. *)
Definition attachment (st : gmap loc document) (index : string)
    (data : option loc) : option operation :=
  l ← data;
  d ← st !! l;
  v ← d !! "_id";
  Some {| _op_type := "update"; _index := index; _id := v;
          doc := Some l; doc_as_upsert := Some true |}.

(** An awaited task gives [None], or a dictionary of the store [st] that
    has the key "_id". *)
Definition identified (st : gmap loc document) (data : option loc) : Prop :=
  ∀ l, data = Some l → ∃ d, st !! l = Some d ∧ is_Some (d !! "_id").

(** The dictionaries that awaited tasks have given. *)
Definition given (datas : list (option loc)) : list loc :=
  omap id datas.

(** The body of the [async for] skips the pair: the document is in the
    store [st], has the key "_id", and has the timestamp
    [existing_timestamps.get] gives for it. *)
Definition skipped (st : gmap loc document) (stored : gmap string string)
    (pair : loc * option Fetcher.lazy_download) : bool :=
  match st !! pair.1 with
  | Some d =>
      match d !! "_id" with
      | Some v => same_timestamp stored d v
      | None => false
      end
  | None => false
  end.

(** The body of the [async for] raises [e] on the pair, in the store
    [st]: what is yielded is no dictionary, or it has no key "_id" (line
    149), or the document is skipped and the pair has no lazy download to
    call (line 161). *)
Definition refused (st : gmap loc document) (stored : gmap string string)
    (pair : loc * option Fetcher.lazy_download) (e : exn) : Prop :=
  match st !! pair.1 with
  | None => e = TypeError
  | Some d =>
      match d !! "_id" with
      | None => e = KeyError "_id"
      | Some v =>
          same_timestamp stored d v = true ∧ pair.2 = None ∧ e = TypeError
      end
  end.

(** A yielded pair whose document the body of the [async for] skips and
    whose lazy download it can call: the document is in the store [st], has
    the key "_id" and the timestamp [existing_timestamps.get] gives for it,
    and the pair has a lazy download. *)
Definition unchanged_pair (st : gmap loc document)
    (stored : gmap string string)
    (pair : loc * option Fetcher.lazy_download) : Prop :=
  ∃ d v, st !! pair.1 = Some d
         ∧ d !! "_id" = Some v
         ∧ same_timestamp stored d v = true
         ∧ is_Some pair.2.

(** No counter of the Bulker is zero. *)
Definition positive (l : list item) (s : Bulker.state) : Prop :=
  ∀ k n, Bulker.ops s !! k = Some n → 0 < n.

(** * Properties *)

(** ** The loop of the Bulker *)

Module BulkerFacts.
Import Bulker.

Lemma item_is_Str s t : item_is (Str s) t = bool_decide (s = t).
Proof. done. Qed.

Lemma consume_flags self o self' :
  consume self o = inr self' →
  docs_ended self' = docs_ended self
  ∧ downloads_ended self' = downloads_ended self
  ∧ chunk_size self' = chunk_size self.
Proof.
  unfold consume. destruct (entries o) as [e|es]; [done|].
  intros [= <-]. by case_match.
Qed.

Lemma ended_cons d dl it l :
  ended d dl (it :: l)
  = ended (if item_is it END_DOCS then true else d)
          (if item_is it END_DOWNLOADS then true else dl) l.
Proof.
  unfold ended, observed. simpl.
  by destruct (item_is it END_DOCS), (item_is it END_DOWNLOADS), d, dl.
Qed.

Lemma ended_false_both l : ended false false l = both_observed l.
Proof. done. Qed.

(** Where the loop stops. *)
Lemma drain_returned q : ∀ self self' rest,
  docs_ended self && downloads_ended self = false →
  drain self q = Returned (self', rest) →
  ∃ consumed last,
    q = consumed ++ last :: rest
    ∧ ended (docs_ended self) (downloads_ended self) consumed = false
    ∧ ended (docs_ended self) (downloads_ended self) (consumed ++ [last]) = true.
Proof.
  induction q as [|it q IH]; intros self self' rest Hf; simpl; [done|].
  set (d := if item_is it END_DOCS then true else docs_ended self).
  set (dl := if item_is it END_DOWNLOADS then true else downloads_ended self).
  destruct (d && dl) eqn:Hb.
  - intros [= <- <-]. exists [], it. split; [done|]. split.
    + unfold ended, observed. simpl. by rewrite !orb_false_r.
    + simpl. rewrite ended_cons. fold d dl. unfold ended. simpl.
      by rewrite !orb_false_r.
  - assert (Hstep : ∀ self1,
      docs_ended self1 = d → downloads_ended self1 = dl →
      drain self1 q = Returned (self', rest) →
      ∃ consumed last, it :: q = consumed ++ last :: rest
        ∧ ended (docs_ended self) (downloads_ended self) consumed = false
        ∧ ended (docs_ended self) (downloads_ended self)
            (consumed ++ [last]) = true).
    { intros self1 Hd Hdl Hr.
      destruct (IH self1 self' rest) as (c & last & -> & Hc & Hl);
        [by rewrite Hd, Hdl|done|].
      exists (it :: c), last. split; [done|].
      rewrite <- app_comm_cons, !ended_cons. fold d dl.
      by rewrite <- Hd, <- Hdl. }
    destruct (item_is it END_DOCS || item_is it END_DOWNLOADS) eqn:Hs.
    + by apply Hstep.
    + destruct it as [s|o]; [done|].
      destruct (consume _ o) as [e|self1] eqn:Hc; [done|].
      apply consume_flags in Hc as (Hd & Hdl & _). by apply Hstep.
Qed.

(** The loop waits for ever only when it has not read both strings. *)
Lemma drain_blocked q : ∀ self,
  docs_ended self && downloads_ended self = false →
  drain self q = Blocked →
  ended (docs_ended self) (downloads_ended self) q = false.
Proof.
  induction q as [|it q IH]; intros self Hf; simpl.
  - intros _. unfold ended, observed. simpl. by rewrite !orb_false_r.
  - rewrite ended_cons.
    set (d := if item_is it END_DOCS then true else docs_ended self).
    set (dl := if item_is it END_DOWNLOADS then true else downloads_ended self).
    destruct (d && dl) eqn:Hb; [done|].
    destruct (item_is it END_DOCS || item_is it END_DOWNLOADS) eqn:Hs.
    + intros Hr. by apply IH in Hr.
    + destruct it as [s|o]; [done|].
      destruct (consume _ o) as [e|self1] eqn:Hc; [done|].
      apply consume_flags in Hc as (Hd & Hdl & _). simpl in Hd, Hdl.
      intros Hr. apply IH in Hr; [|by rewrite Hd, Hdl].
      by rewrite Hd, Hdl in Hr.
Qed.

(** The loop raises only on a malformed value, read before both strings
    have been. *)
Lemma drain_raised q : ∀ self e,
  docs_ended self && downloads_ended self = false →
  drain self q = Raised e →
  ∃ consumed bad rest,
    q = consumed ++ bad :: rest
    ∧ ended (docs_ended self) (downloads_ended self) (consumed ++ [bad]) = false
    ∧ malformed bad e.
Proof.
  induction q as [|it q IH]; intros self e Hf; simpl; [done|].
  set (d := if item_is it END_DOCS then true else docs_ended self).
  set (dl := if item_is it END_DOWNLOADS then true else downloads_ended self).
  destruct (d && dl) eqn:Hb; [done|].
  assert (Hstep : ∀ self1,
    docs_ended self1 = d → downloads_ended self1 = dl →
    drain self1 q = Raised e →
    ∃ consumed bad rest, it :: q = consumed ++ bad :: rest
      ∧ ended (docs_ended self) (downloads_ended self) (consumed ++ [bad])
        = false
      ∧ malformed bad e).
  { intros self1 Hd Hdl Hr.
    destruct (IH self1 e) as (c & bad & rest & -> & Hc & Hl);
      [by rewrite Hd, Hdl|done|].
    exists (it :: c), bad, rest. split; [done|].
    rewrite <- app_comm_cons, !ended_cons. fold d dl.
    by rewrite <- Hd, <- Hdl. }
  destruct (item_is it END_DOCS || item_is it END_DOWNLOADS) eqn:Hs.
  - by apply Hstep.
  - assert (Hend : ended (docs_ended self) (downloads_ended self) ([] ++ [it])
                   = false).
    { simpl. rewrite ended_cons. fold d dl. unfold ended. simpl.
      by rewrite !orb_false_r. }
    destruct it as [s|o].
    + intros [= <-]. exists [], (Str s), q. split; [done|]. split; [done|].
      simpl in Hs. apply orb_false_elim in Hs as [H1 H2].
      apply bool_decide_eq_false in H1, H2. done.
    + destruct (consume _ o) as [e'|self1] eqn:Hc.
      * intros [= <-]. exists [], (Dict o), q. split; [done|]. split; [done|].
        simpl. unfold consume in Hc. by destruct (entries o); simplify_eq.
      * apply consume_flags in Hc as (Hd & Hdl & _). by apply Hstep.
Qed.

(** A property of the values read and of the state, kept by each turn of
    the loop, holds when the loop stops. *)
Section Invariant.

Variable I : list item → state → Prop.
Hypothesis I_flags : ∀ l s d dl, I l s → I l (set_ended s d dl).
Hypothesis I_end : ∀ l s it,
  item_is it END_DOCS || item_is it END_DOWNLOADS = true →
  I l s → I (l ++ [it]) s.
Hypothesis I_consume : ∀ l s o s',
  consume s o = inr s' → I l s → I (l ++ [Dict o]) s'.

Lemma drain_invariant q : ∀ pre self self' rest,
  docs_ended self && downloads_ended self = false →
  I pre self →
  drain self q = Returned (self', rest) →
  ∃ consumed, q = consumed ++ rest ∧ I (pre ++ consumed) self'.
Proof using All.
  induction q as [|it q IH]; intros pre self self' rest Hf HI; simpl; [done|].
  set (d := if item_is it END_DOCS then true else docs_ended self).
  set (dl := if item_is it END_DOWNLOADS then true else downloads_ended self).
  destruct (item_is it END_DOCS || item_is it END_DOWNLOADS) eqn:Hs.
  - destruct (d && dl) eqn:Hb.
    + intros [= <- <-]. exists [it]. split; [done|].
      by apply I_flags, I_end.
    + intros Hr.
      destruct (IH (pre ++ [it]) (set_ended self d dl) self' rest)
        as (c & -> & Hc); [done|by apply I_flags, I_end|done|].
      exists (it :: c). split; [done|]. by rewrite <- app_assoc in Hc.
  - apply orb_false_elim in Hs as [H1 H2]. subst d dl. rewrite H1, H2, Hf.
    destruct it as [s|o]; [done|].
    destruct (consume _ o) as [e|self1] eqn:Hc; [done|].
    intros Hr. pose proof (consume_flags _ _ _ Hc) as (Hd & Hdl & _).
    simpl in Hd, Hdl.
    destruct (IH (pre ++ [Dict o]) self1 self' rest) as (c & -> & Hc').
    + by rewrite Hd, Hdl.
    + eapply I_consume; [exact Hc|]. by apply I_flags.
    + done.
    + exists (Dict o :: c). split; [done|]. by rewrite <- app_assoc in Hc'.
Qed.

End Invariant.

(** What [run] does after the loop. *)
Lemma run_returned {response} (client_bulk : list wire → option response)
    self q self' results rest :
  run client_bulk self q = Returned (self', results, rest) →
  ∃ s1, drain (enter self) q = Returned (s1, rest)
        ∧ self' = flush s1
        ∧ Forall2 (λ b r, client_bulk b = Some r) (tasks self') results.
Proof.
  unfold run. destruct (drain _ q) as [[s1 rest']| |] eqn:Hd; [|done..].
  destruct (gather _ _) as [rs|] eqn:Hg; [|done].
  intros [= <- <- <-]. exists s1. split; [done|]. split; [done|].
  by apply mapM_Some.
Qed.

Lemma flush_tasks self :
  tasks (flush self)
  = tasks self ++ (if decide (batch self = []) then [] else [batch self])
  ∧ batch (flush self) = [].
Proof.
  unfold flush. destruct (batch self) as [|w b] eqn:Hb; simpl.
  - by rewrite app_nil_r.
  - by rewrite Hb.
Qed.

(** *** Size of the batches *)

Lemma entries_length o es : entries o = inr es → 1 ≤ length es ≤ 2.
Proof.
  unfold entries. case_match; [destruct (doc o)|]; intros [= <-]; simpl; lia.
Qed.

Lemma sized_consume c l s o s' :
  consume s o = inr s' → sized c l s → sized c (l ++ [Dict o]) s'.
Proof.
  unfold consume, sized. destruct (entries o) as [e|es] eqn:He; [done|].
  apply entries_length in He. intros [= <-] (Hc & Hb & Ht).
  cbn -[Nat.mul]. rewrite length_app.
  destruct (_ <=? _) eqn:Hle; cbn -[Nat.mul].
  - apply Nat.leb_le in Hle.
    split; [done|]. split; [lia|].
    apply Forall_app. split; [done|]. apply Forall_singleton.
    rewrite length_app. lia.
  - apply Nat.leb_gt in Hle. rewrite length_app.
    split; [done|]. split; [lia|done].
Qed.

Lemma drain_sized q self self' rest :
  0 < chunk_size self →
  drain (enter self) q = Returned (self', rest) →
  sized (chunk_size self) q self'.
Proof.
  intros Hc Hr.
  assert (H0 : sized (chunk_size self) [] (enter self)).
  { unfold sized. cbn -[Nat.mul]. split; [done|]. split; [lia|done]. }
  destruct (drain_invariant (sized (chunk_size self))
              (λ _ _ _ _ H, H) (λ _ _ _ _ H, H)
              (λ l s o s', sized_consume _ l s o s')
              q [] (enter self) self' rest eq_refl H0 Hr) as (c & _ & H).
  exact H.
Qed.

(** *** What a batch holds *)

Lemma entries_upsert o es :
  upsert o → entries o = inr es →
  ∃ body, doc o = Some body
          ∧ es = [Action "update" (_index o) (_id o); Source body true].
Proof.
  unfold entries. intros [-> | ->]; simpl; destruct (doc o); intros [= <-];
    by eexists.
Qed.

Lemma carries_app o body b es : carries o body b → carries o body (b ++ es).
Proof.
  intros (pre & post & ->). exists pre, (post ++ es).
  by rewrite <- app_assoc.
Qed.

Lemma placed_consume l s o s' :
  consume s o = inr s' → placed l s → placed (l ++ [Dict o]) s'.
Proof.
  unfold consume. destruct (entries o) as [e|es] eqn:He; [done|].
  intros [= <-] Hp o' Hin Hu.
  assert (∃ body, doc o' = Some body
            ∧ (carries o' body (batch s ++ es)
               ∨ ∃ b, b ∈ tasks s ∧ carries o' body b))
    as (body & Hd & Hc).
  { apply elem_of_app in Hin as [Hin|Hin].
    - destruct (Hp o' Hin Hu) as (body & Hd & [Hc|Hc]); exists body;
        (split; [done|]); [left; by apply carries_app|by right].
    - apply list_elem_of_singleton in Hin as [= ->].
      destruct (entries_upsert _ _ Hu He) as (body & Hd & ->).
      exists body. split; [done|]. left. by exists (batch s), []. }
  exists body. split; [done|]. cbn -[Nat.mul].
  destruct (_ <=? _); cbn -[Nat.mul].
  - right. destruct Hc as [Hc|(b & Hb & Hc)].
    + exists (batch s ++ es). split; [|done]. apply elem_of_app. right.
      by apply list_elem_of_singleton.
    + exists b. split; [|done]. apply elem_of_app. by left.
  - done.
Qed.

Lemma drain_placed q self self' rest :
  drain (enter self) q = Returned (self', rest) →
  ∃ consumed, q = consumed ++ rest ∧ placed consumed self'.
Proof.
  intros Hr.
  assert (H0 : placed [] (enter self)).
  { intros o Hin. by apply elem_of_nil in Hin. }
  assert (Hend : ∀ l s it,
    item_is it END_DOCS || item_is it END_DOWNLOADS = true →
    placed l s → placed (l ++ [it]) s).
  { intros l s it Hs Hp o Hin. apply elem_of_app in Hin as [Hin|Hin].
    - by apply Hp.
    - apply list_elem_of_singleton in Hin as <-. done. }
  exact (drain_invariant placed (λ _ _ _ _ H, H) Hend placed_consume
           q [] (enter self) self' rest eq_refl H0 Hr).
Qed.

Lemma entries_no_create o es : entries o = inr es → no_create es.
Proof.
  unfold entries. intros He index id Hin.
  assert (Hup : ∀ body,
    Action "create" index id
      ∉ [Action "update" (_index o) (_id o); Source body true]).
  { intros body H. apply elem_of_cons in H as [H|H]; [done|].
    by apply list_elem_of_singleton in H. }
  destruct (bool_decide (_op_type o = "create")) eqn:H2.
  - rewrite orb_true_r in He. destruct (doc o); simplify_eq.
    by eapply Hup.
  - rewrite orb_false_r in He.
    destruct (bool_decide (_op_type o = "update")).
    + destruct (doc o); simplify_eq. by eapply Hup.
    + simplify_eq. apply list_elem_of_singleton in Hin as [= Hc _ _].
      apply bool_decide_eq_false in H2. congruence.
Qed.

Lemma no_create_app b es : no_create b → no_create es → no_create (b ++ es).
Proof.
  intros Hb He index id Hin.
  apply elem_of_app in Hin as [Hin|Hin]; [by eapply Hb|by eapply He].
Qed.

Lemma plain_consume l s o s' :
  consume s o = inr s' → plain l s → plain (l ++ [Dict o]) s'.
Proof.
  unfold consume, plain. destruct (entries o) as [e|es] eqn:He; [done|].
  apply entries_no_create in He. intros [= <-] [Hb Ht]. cbn -[Nat.mul].
  destruct (_ <=? _); cbn -[Nat.mul].
  - split; [by intros ?? ?%elem_of_nil|].
    apply Forall_app. split; [done|].
    apply Forall_singleton. by apply no_create_app.
  - split; [by apply no_create_app|done].
Qed.

Lemma drain_plain q self self' rest :
  drain (enter self) q = Returned (self', rest) → plain q self'.
Proof.
  intros Hr.
  assert (H0 : plain [] (enter self)).
  { split; [by intros ?? ?%elem_of_nil|done]. }
  destruct (drain_invariant plain (λ _ _ _ _ H, H) (λ _ _ _ _ H, H)
              plain_consume q [] (enter self) self' rest eq_refl H0 Hr)
    as (c & _ & H).
  exact H.
Qed.

(** *** The counters *)

Lemma total_incr (m : gmap string nat) k :
  total (<[k := S (m !!! k)]> m) = S (total m).
Proof.
  unfold total. rewrite lookup_total_alt.
  assert (Hcomm : ∀ (m' : gmap string nat) (j1 j2 : string) (z1 z2 y : nat),
    j1 ≠ j2 → m' !! j1 = Some z1 → m' !! j2 = Some z2 →
    z1 + (z2 + y) = z2 + (z1 + y)) by (intros; lia).
  destruct (m !! k) as [n|] eqn:Hk; simpl.
  - rewrite <- (insert_delete_eq m).
    rewrite (map_fold_delete_L _ _ k n m); [|by apply Hcomm|done].
    rewrite map_fold_insert_L; [done|by apply Hcomm|].
    apply lookup_delete_eq.
  - rewrite map_fold_insert_L; [done|by apply Hcomm|done].
Qed.

Lemma operations_snoc_dict l o :
  length (operations (l ++ [Dict o])) = S (length (operations l)).
Proof. unfold operations. rewrite omap_app, length_app. simpl. lia. Qed.

Lemma operations_snoc_end l it :
  item_is it END_DOCS || item_is it END_DOWNLOADS = true →
  operations (l ++ [it]) = operations l.
Proof.
  destruct it; [|done]. intros _. unfold operations.
  rewrite omap_app. simpl. by rewrite app_nil_r.
Qed.

Lemma counted_consume n l s o s' :
  consume s o = inr s' → counted n l s → counted n (l ++ [Dict o]) s'.
Proof.
  unfold consume, counted. destruct (entries o) as [e|es]; [done|].
  intros [= <-] Hn. rewrite operations_snoc_dict.
  cbn -[Nat.mul]. destruct (_ <=? _); cbn -[Nat.mul];
    rewrite total_incr; lia.
Qed.

Lemma drain_counted q self self' rest :
  drain (enter self) q = Returned (self', rest) →
  ∃ consumed, q = consumed ++ rest
    ∧ total (ops self') = total (ops self) + length (operations consumed).
Proof.
  intros Hr.
  assert (H0 : counted (total (ops self)) [] (enter self)).
  { unfold counted. simpl. lia. }
  assert (Hend : ∀ l s it,
    item_is it END_DOCS || item_is it END_DOWNLOADS = true →
    counted (total (ops self)) l s → counted (total (ops self)) (l ++ [it]) s).
  { intros l s it Hs. unfold counted. by rewrite operations_snoc_end. }
  exact (drain_invariant (counted (total (ops self))) (λ _ _ _ _ H, H) Hend
           (counted_consume _) q [] (enter self) self' rest eq_refl H0 Hr).
Qed.

End BulkerFacts.

(** ** The coroutines of the Fetcher *)

Module FetcherFacts.
Import Fetcher.
Local Open Scope fetcher_scope.

Ltac run :=
  cbv [bind ret gets modify raise put schedule call now negb
       dict_pop dict_set dict_item dict_get];
  cbn [store queue _downloads index existing_ids existing_timestamps
       sync_runs total_downloads total_docs_updated total_docs_created
       seen_ids calls clock
       set_store set_queue set_downloads set_sync_runs set_total_downloads
       set_total_docs_updated set_total_docs_created set_seen_ids set_calls
       set_clock].

Lemma renamed_timestamp d v : renamed d v !! "timestamp" = d !! "timestamp".
Proof. unfold renamed. by rewrite lookup_insert_ne, lookup_delete_ne. Qed.

Lemma renamed_id d v : renamed d v !! "_id" = None ∧ renamed d v !! "id" = Some v.
Proof.
  unfold renamed. rewrite lookup_insert_ne, lookup_delete_eq by done.
  by rewrite lookup_insert_eq.
Qed.


Lemma stamped_other t d k : k ≠ "timestamp" → stamped t d !! k = d !! k.
Proof.
  intros Hk. unfold stamped. destruct (d !! "timestamp"); [done|].
  by rewrite lookup_insert_ne.
Qed.

(** What the body of the [async for] does with a document that is in the
    store and has the key "_id". *)
Lemma look_at_spec iso_utc l lz s d v :
  store s !! l = Some d → d !! "_id" = Some v →
  ∃ s' r,
    look_at iso_utc (l, lz) s = (s', r)
    ∧ store s' = <[l := stamped (iso_utc (clock s)) (renamed d v)]> (store s)
    ∧ seen_ids s' = {[v]} ∪ seen_ids s
    ∧ frame s s'
    ∧ if same_timestamp (existing_timestamps s) d v
      then queue s' = queue s
           ∧ _downloads s' = _downloads s
           ∧ total_docs_created s' = total_docs_created s
           ∧ total_docs_updated s' = total_docs_updated s
           ∧ match lz with
             | Some _ => r = Returned tt ∧ calls s' = calls s ++ [(false, None)]
             | None => r = Raised TypeError ∧ calls s' = calls s
             end
      else r = Returned tt
           ∧ queue s'
             = queue s ++ [Dict (classified (existing_ids s) (index s) l v)]
           ∧ total_docs_created s'
             = total_docs_created s
               + (if bool_decide (v ∈ existing_ids s) then 0 else 1)
           ∧ total_docs_updated s'
             = total_docs_updated s
               + (if bool_decide (v ∈ existing_ids s) then 1 else 0)
           ∧ match lz with
             | Some f =>
                 let t := default (iso_utc (clock s)) (d !! "timestamp") in
                 _downloads s' = _downloads s ++ [Task (f true (Some t))]
                 ∧ calls s' = calls s ++ [(true, Some t)]
             | None => _downloads s' = _downloads s ∧ calls s' = calls s
             end.
Proof.
  intros Hl Hv. unfold look_at, same_timestamp, stamped, frame.
  run. rewrite Hl. run. rewrite Hv. run.
  rewrite lookup_insert_eq. run. unfold unchanged. run.
  rewrite lookup_insert_eq. run.
  fold (renamed d v). rewrite !renamed_timestamp.
  assert (Hfin : ∀ P Q : Prop, P → Q → P ∧ Q) by done.
  destruct (d !! "timestamp") as [ts|] eqn:Hts; run.
  - case_bool_decide as Heq; run.
    + destruct lz; run; eexists _, _; (split; [reflexivity|]); run;
        rewrite insert_insert_eq; repeat split; reflexivity.
    + unfold enqueue. destruct lz; run; rewrite ?lookup_insert_eq; run;
        rewrite ?renamed_timestamp, ?Hts; run;
        case_bool_decide; run; eexists _, _; (split; [reflexivity|]); run;
        rewrite insert_insert_eq, ?Nat.add_0_r, ?Nat.add_1_r;
        unfold classified;
        rewrite ?bool_decide_eq_true_2, ?bool_decide_eq_false_2 by done;
        repeat split; reflexivity.
  - rewrite lookup_insert_eq. run.
    unfold enqueue. destruct lz; run; rewrite ?lookup_insert_eq; run;
      rewrite ?lookup_insert_eq; run;
      case_bool_decide; run; eexists _, _; (split; [reflexivity|]); run;
      rewrite !insert_insert_eq, ?Nat.add_0_r, ?Nat.add_1_r;
      unfold classified;
      rewrite ?bool_decide_eq_true_2, ?bool_decide_eq_false_2 by done;
      repeat split; reflexivity.
Qed.

(** With a lazy download, the body of the loop puts nothing on the queue
    exactly when the document has the timestamp that
    [existing_timestamps.get(doc_id, "")] gives. *)
Lemma look_at_skips_iff iso_utc l f s d v :
  store s !! l = Some d → d !! "_id" = Some v →
  queue (look_at iso_utc (l, Some f) s).1 = queue s
  ↔ d !! "timestamp" = Some (default "" (existing_timestamps s !! v)).
Proof.
  intros Hl Hv.
  destruct (look_at_spec iso_utc l (Some f) s d v Hl Hv)
    as (s' & r & -> & _ & _ & _ & Hcase).
  cbn [fst]. unfold same_timestamp in Hcase.
  destruct (d !! "timestamp") as [ts|] eqn:Hts.
  - case_bool_decide as Heq.
    + destruct Hcase as (-> & _). by rewrite Heq.
    + destruct Hcase as (_ & -> & _). split.
      * intros H%(f_equal length). rewrite length_app in H. simpl in H. lia.
      * intros [= ->]. done.
  - destruct Hcase as (_ & -> & _). split; [|done].
    intros H%(f_equal length). rewrite length_app in H. simpl in H. lia.
Qed.

(** Without a lazy download, the body of the loop raises on such a
    document. *)
Lemma look_at_skip_raises iso_utc l s d v :
  store s !! l = Some d → d !! "_id" = Some v →
  d !! "timestamp" = Some (default "" (existing_timestamps s !! v)) →
  (look_at iso_utc (l, None) s).2 = Raised TypeError.
Proof.
  intros Hl Hv Hts.
  destruct (look_at_spec iso_utc l None s d v Hl Hv)
    as (s' & r & -> & _ & _ & _ & Hcase).
  unfold same_timestamp in Hcase. rewrite Hts in Hcase.
  rewrite bool_decide_eq_true_2 in Hcase by done.
  by destruct Hcase as (_ & _ & _ & _ & -> & _).
Qed.

Lemma look_at_returned iso_utc l lz s s' :
  look_at iso_utc (l, lz) s = (s', Returned tt) →
  ∃ d v, store s !! l = Some d ∧ d !! "_id" = Some v.
Proof.
  unfold look_at. run. destruct (store s !! l) as [d|]; run; [|done].
  destruct (d !! "_id") as [v|] eqn:Hv; run; [|done]. intros _. by exists d, v.
Qed.

Lemma omap_ext_in {A B} (f g : A → option B) (l : list A) :
  (∀ x, x ∈ l → f x = g x) → omap f l = omap g l.
Proof.
  induction l as [|x l IH]; intros H; [done|]. simpl.
  rewrite (H x) by left.
  assert (omap f l = omap g l) as Heq.
  { apply IH. intros y Hy. apply H. by right. }
  by destruct (g x); [f_equal|].
Qed.

Lemma frame_trans s1 s2 s3 : frame s1 s2 → frame s2 s3 → frame s1 s3.
Proof. unfold frame. intros (?&?&?&?&?) (?&?&?&?&?). repeat split; congruence. Qed.

Lemma of_type_classified t ids i l v :
  length (of_type t [classified ids i l v])
  = if bool_decide (t = if bool_decide (v ∈ ids) then "update" else "create")
    then 1 else 0.
Proof.
  unfold of_type, classified. rewrite filter_cons, filter_nil.
  cbn [_op_type].
  destruct (bool_decide (v ∈ ids)); case_decide; case_bool_decide;
    simplify_eq; done.
Qed.

(** What the [async for] does, as a function of the store it starts
    with: it returns only if the yielded documents are distinct objects
    with a key "_id". *)
Lemma for_each_look_at iso_utc gen : ∀ s s',
  for_each gen (look_at iso_utc) s = (s', Returned tt) →
  NoDup gen.*1
  ∧ Forall (λ pair, is_Some (yielded (store s) pair)) gen
  ∧ (∀ l, l ∉ gen.*1 → store s' !! l = store s !! l)
  ∧ (∀ l, l ∈ gen.*1 → ∃ d, store s' !! l = Some d ∧ d !! "_id" = None)
  ∧ seen_ids s' = list_to_set (omap (yielded (store s)) gen) ∪ seen_ids s
  ∧ frame s s'
  ∧ let ops := omap (classify (store s) (existing_timestamps s)
                       (existing_ids s) (index s)) gen in
    queue s' = queue s ++ (Dict <$> ops)
    ∧ total_docs_created s'
      = total_docs_created s + length (of_type "create" ops)
    ∧ total_docs_updated s'
      = total_docs_updated s + length (of_type "update" ops).
Proof.
  induction gen as [|[l lz] gen IH]; intros s s'.
  - intros [= <-]. unfold frame. simpl. rewrite app_nil_r, !Nat.add_0_r.
    repeat split; try done; [apply NoDup_nil_2|by intros ? ?%elem_of_nil|].
    by rewrite (left_id_L ∅ (∪)).
  - cbn [for_each]. unfold bind at 1.
    destruct (look_at iso_utc (l, lz) s) as [s1 r1] eqn:H1.
    destruct r1 as [[]| |]; [|done..]. intros Hrest.
    destruct (look_at_returned _ _ _ _ _ H1) as (d & v & Hl & Hv).
    destruct (look_at_spec iso_utc l lz s d v Hl Hv)
      as (s1' & r & H1' & Hst & Hseen & Hfr & Hcase).
    rewrite H1 in H1'. injection H1' as <- <-.
    destruct (IH _ _ Hrest)
      as (Hnd & Hall & Hout & Hin & Hseen' & Hfr' & Hq & Hc & Hu).
    pose proof Hfr as (Hids & Hets & Hidx & _).
    assert (Hl1 : ∃ d1, store s1 !! l = Some d1 ∧ d1 !! "_id" = None).
    { rewrite Hst, lookup_insert_eq. eexists. split; [done|].
      rewrite stamped_other by done. apply renamed_id. }
    assert (Hnotin : l ∉ gen.*1).
    { intros Hel. apply list_elem_of_fmap in Hel as ([l' lz'] & -> & Hel).
      rewrite Forall_forall in Hall. destruct (Hall _ Hel) as [v' Hy].
      destruct Hl1 as (d1 & Hd1 & Hno).
      unfold yielded in Hy. cbn [fst] in Hy, Hd1.
      rewrite Hd1 in Hy. simpl in Hy. congruence. }
    assert (Hsame : ∀ pair, pair ∈ gen → store s1 !! pair.1 = store s !! pair.1).
    { intros pair Hel. rewrite Hst. apply lookup_insert_ne.
      intros ->. apply Hnotin. by apply list_elem_of_fmap_2. }
    assert (Hyield : omap (yielded (store s1)) gen = omap (yielded (store s)) gen).
    { apply omap_ext_in. intros pair Hel. unfold yielded.
      by rewrite Hsame. }
    assert (Hclass :
      omap (classify (store s1) (existing_timestamps s1) (existing_ids s1)
              (index s1)) gen
      = omap (classify (store s) (existing_timestamps s) (existing_ids s)
                (index s)) gen).
    { rewrite Hids, Hets, Hidx. apply omap_ext_in. intros pair Hel.
      unfold classify. by rewrite Hsame. }
    rewrite Hyield in Hseen'. rewrite Hclass in Hq, Hc, Hu.
    assert (Hy : yielded (store s) (l, lz) = Some v).
    { unfold yielded. simpl. rewrite Hl. simpl. by rewrite Hv. }
    split; [|split; [|split; [|split; [|split; [|split]]]]].
    + rewrite fmap_cons. by apply NoDup_cons.
    + apply Forall_cons. split; [by rewrite Hy|].
      apply Forall_forall. intros pair Hel. unfold yielded.
      rewrite <- Hsame by done. rewrite Forall_forall in Hall.
      by apply Hall.
    + intros l' Hl'. rewrite fmap_cons in Hl'.
      apply not_elem_of_cons in Hl' as [Hne Hl'].
      rewrite Hout by done. rewrite Hst. by apply lookup_insert_ne.
    + intros l' Hl'. rewrite fmap_cons in Hl'.
      destruct (decide (l' ∈ gen.*1)) as [Hel|Hel]; [by apply Hin|].
      apply elem_of_cons in Hl' as [->|Hl']; [|done].
      by rewrite Hout.
    + rewrite Hseen', Hseen. cbn [omap list_omap]. rewrite Hy.
      rewrite list_to_set_cons, !(assoc_L (∪)). f_equal. apply (comm_L (∪)).
    + by eapply frame_trans.
    + cbn zeta. cbn [omap list_omap].
      replace (classify (store s) (existing_timestamps s) (existing_ids s)
                 (index s) (l, lz))
        with (if same_timestamp (existing_timestamps s) d v then None
              else Some (classified (existing_ids s) (index s) l v)).
      2:{ unfold classify. simpl. rewrite Hl. simpl. by rewrite Hv. }
      cbn zeta in Hq, Hc, Hu.
      destruct (same_timestamp (existing_timestamps s) d v).
      * destruct Hcase as (Hq1 & _ & Hc1 & Hu1 & _).
        by rewrite Hq, Hc, Hu, Hq1, Hc1, Hu1.
      * destruct Hcase as (_ & Hq1 & Hc1 & Hu1 & _).
        rewrite Hq, Hc, Hu, Hq1, Hc1, Hu1. rewrite fmap_cons.
        rewrite <- app_assoc. split; [done|].
        change (?o :: ?l) with ([o] ++ l). unfold of_type.
        rewrite !filter_app, !length_app.
        fold (of_type "create" [classified (existing_ids s) (index s) l v]).
        fold (of_type "update" [classified (existing_ids s) (index s) l v]).
        rewrite !of_type_classified.
        destruct (bool_decide (v ∈ existing_ids s)); simpl; lia.
Qed.

(** The second loop of [get_docs]. *)
Lemma for_each_delete_missing ids : ∀ s,
  for_each ids delete_missing s
  = (set_queue (λ q, q ++ (Dict <$> deletions (seen_ids s) (index s) ids)) s,
     Returned tt).
Proof.
  unfold deletions. induction ids as [|v ids IH]; intros s.
  - cbn [for_each]. run. rewrite filter_nil, fmap_nil.
    destruct s. unfold set_queue. cbn. by rewrite app_nil_r.
  - cbn [for_each]. unfold delete_missing at 1. run.
    rewrite filter_cons. case_bool_decide as Hv; run.
    + rewrite decide_False by (by intros []). apply IH.
    + rewrite decide_True by done. rewrite IH. run.
      rewrite fmap_cons. unfold set_queue. cbn. by rewrite <- app_assoc.
Qed.

(** [get_docs], when it returns, as a function of the store it starts
    with. *)
Lemma get_docs_returned iso_utc gen s s' :
  get_docs iso_utc gen s = (s', Returned tt) →
  let seen : gset string := list_to_set (omap (yielded (store s)) gen) in
  let ops := omap (classify (store s) (existing_timestamps s)
                     (existing_ids s) (index s)) gen in
  NoDup gen.*1
  ∧ Forall (λ pair, is_Some (yielded (store s) pair)) gen
  ∧ seen_ids s' = seen
  ∧ queue s'
    = queue s ++ (Dict <$> ops)
      ++ (Dict <$> deletions seen (index s) (elements (existing_ids s)))
      ++ [Str END_DOCS]
  ∧ total_docs_created s'
    = total_docs_created s + length (of_type "create" ops)
  ∧ total_docs_updated s'
    = total_docs_updated s + length (of_type "update" ops)
  ∧ total_downloads s' = total_downloads s
  ∧ existing_ids s' = existing_ids s
  ∧ index s' = index s
  ∧ sync_runs s' = true.
Proof.
  unfold get_docs. run.
  destruct (for_each gen _ _) as [s1 r1] eqn:Hloop.
  destruct r1 as [[]| |]; [|done..].
  rewrite for_each_delete_missing. run. intros [= <-]. run.
  apply for_each_look_at in Hloop
    as (Hnd & Hall & _ & _ & Hseen & Hfr & Hq & Hc & Hu).
  destruct Hfr as (Hids & Hets & Hidx & Hsync & Hdl).
  cbn [store queue existing_ids existing_timestamps index seen_ids
       sync_runs total_downloads total_docs_created total_docs_updated
       set_seen_ids set_sync_runs] in *.
  rewrite (right_id_L ∅ (∪)) in Hseen.
  rewrite Hids, Hidx, Hseen, Hq, Hc, Hu, Hdl, Hsync.
  rewrite <- !app_assoc. done.
Qed.

Lemma attach_returned data s s' :
  attach data s = (s', Returned tt) → ∃ ops, downloaded s s' ops.
Proof.
  unfold attach, downloaded. destruct data as [l|]; run.
  - destruct (store s !! l) as [fields|]; run; [|done].
    destruct (fields !! "_id") as [v|]; run; [|done].
    intros [= <-]. run. eexists [_]. rewrite Nat.add_1_r.
    repeat split; try done. apply Forall_singleton. split; [done|by eexists].
  - intros [= <-]. exists []. simpl. rewrite app_nil_r, Nat.add_0_r.
    by repeat split.
Qed.

Lemma downloaded_trans s1 s2 s3 ops ops' :
  downloaded s1 s2 ops → downloaded s2 s3 ops' →
  downloaded s1 s3 (ops ++ ops').
Proof.
  unfold downloaded. intros (Hq & Ht & Hc & Hu & Hs & Ha) (Hq' & Ht' & Hc' & Hu' & Hs' & Ha').
  rewrite Hq', Hq, Ht', Ht, fmap_app, length_app, <- app_assoc.
  repeat split; try congruence; [lia|]. by apply Forall_app.
Qed.

Lemma downloading_returned ds : ∀ s s',
  downloading ds s = (s', Returned tt) → ∃ ops, downloaded s s' ops.
Proof.
  assert (Hrefl : ∀ s f, downloaded (set_downloads f s) (set_downloads f s) []
                         → downloaded s (set_downloads f s) []).
  { by intros s f. }
  assert (Hnil : ∀ s, downloaded s s []).
  { intros s. unfold downloaded. simpl. rewrite app_nil_r, Nat.add_0_r.
    by repeat split. }
  induction ds as [|coro ds IH]; intros s s'; cbn [downloading]; run.
  - destruct (sync_runs s); run; [done|]. intros [= <-]. by exists [].
  - destruct (sync_runs s); run; [|intros [= <-]; by exists []].
    destruct coro as [data|]; run.
    + destruct (attach data _) as [s1 r1] eqn:Ha.
      destruct r1 as [[]| |]; [|done..]. intros Hrest.
      apply attach_returned in Ha as (ops & Ha).
      apply IH in Hrest as (ops' & Hrest).
      exists (ops ++ ops'). by apply (downloaded_trans s s1 s').
    + intros [= <-]. exists []. apply Hrefl, Hnil.
Qed.

Lemma get_attachments_returned s s' :
  get_attachments s = (s', Returned tt) →
  ∃ ops,
    queue s' = queue s ++ (Dict <$> ops) ++ [Str END_DOWNLOADS]
    ∧ total_downloads s' = total_downloads s + length ops
    ∧ total_docs_created s' = total_docs_created s
    ∧ total_docs_updated s' = total_docs_updated s
    ∧ Forall attached ops.
Proof.
  unfold get_attachments. run.
  destruct (downloading _ s) as [s1 r1] eqn:Hd.
  destruct r1 as [[]| |]; [|done..]. intros [= <-]. run.
  apply downloading_returned in Hd as (ops & Hq & Ht & Hc & Hu & _ & Ha).
  exists ops. rewrite Hq, <- app_assoc. by repeat split.
Qed.

End FetcherFacts.

(** ** The queue between the Fetcher and the Bulker *)

Module SyncFacts.
Import Bulker ElasticServer BulkerFacts.

Lemma sound_doc o : is_Some (doc o) → sound o.
Proof.
  intros [l Hl]. unfold sound, entries. rewrite Hl. case_match; by eexists.
Qed.

Lemma sound_classified ids i l v : sound (classified ids i l v).
Proof. apply sound_doc. by eexists. Qed.

Lemma sound_deletion i v : sound (deletion i v).
Proof. by eexists. Qed.

Lemma drain_dict s o q :
  docs_ended s && downloads_ended s = false → sound o →
  ∃ s1, drain s (Dict o :: q) = drain s1 q
        ∧ total (ops s1) = S (total (ops s))
        ∧ docs_ended s1 = docs_ended s
        ∧ downloads_ended s1 = downloads_ended s.
Proof.
  intros Hf [es He]. cbn [drain item_is set_ended docs_ended downloads_ended].
  rewrite Hf. cbn [orb].
  unfold consume. rewrite He. eexists. split; [done|].
  cbn -[Nat.mul]. destruct (_ <=? _); cbn -[Nat.mul]; by rewrite total_incr.
Qed.

Lemma drain_dicts A : ∀ s q,
  docs_ended s && downloads_ended s = false → Forall sound A →
  ∃ s1, drain s ((Dict <$> A) ++ q) = drain s1 q
        ∧ total (ops s1) = total (ops s) + length A
        ∧ docs_ended s1 = docs_ended s
        ∧ downloads_ended s1 = downloads_ended s.
Proof.
  induction A as [|o A IH]; intros s q Hf HA.
  - exists s. simpl. by rewrite Nat.add_0_r.
  - apply Forall_cons in HA as [Ho HA].
    destruct (drain_dict s o ((Dict <$> A) ++ q) Hf Ho)
      as (s1 & Hd & Ht & Hd1 & Hd2).
    destruct (IH s1 q) as (s2 & Hd' & Ht' & Hd1' & Hd2'); [congruence|done|].
    exists s2. rewrite fmap_cons, <- app_comm_cons, Hd, Hd'.
    repeat split; [simpl; lia|congruence..].
Qed.

Lemma drain_end_docs s q :
  docs_ended s = false →
  drain s (Str END_DOCS :: q)
  = if downloads_ended s
    then Returned (set_ended s true true, q)
    else drain (set_ended s true false) q.
Proof.
  intros Hd. cbn [drain item_is]. rewrite bool_decide_eq_true_2 by done.
  rewrite bool_decide_eq_false_2 by done.
  cbn [set_ended docs_ended downloads_ended andb orb].
  by destruct (downloads_ended s).
Qed.

Lemma drain_end_downloads s q :
  downloads_ended s = false →
  drain s (Str END_DOWNLOADS :: q)
  = if docs_ended s
    then Returned (set_ended s true true, q)
    else drain (set_ended s false true) q.
Proof.
  intros Hd. cbn [drain item_is]. rewrite bool_decide_eq_false_2 by done.
  rewrite bool_decide_eq_true_2 by done.
  cbn [set_ended docs_ended downloads_ended andb orb].
  by destruct (docs_ended s).
Qed.

(** One stream is over, the other is read to its end. *)
Lemma drain_rest_docs A s :
  docs_ended s = false → downloads_ended s = true → Forall sound A →
  ∃ s', drain s ((Dict <$> A) ++ [Str END_DOCS]) = Returned (s', [])
        ∧ total (ops s') = total (ops s) + length A.
Proof.
  intros H1 H2 HA.
  destruct (drain_dicts A s [Str END_DOCS]) as (s1 & Hd & Ht & Hd1 & Hd2);
    [by rewrite H1|done|].
  rewrite Hd, drain_end_docs by congruence.
  rewrite Hd2, H2. by eexists.
Qed.

Lemma drain_rest_downloads B s :
  docs_ended s = true → downloads_ended s = false → Forall sound B →
  ∃ s', drain s ((Dict <$> B) ++ [Str END_DOWNLOADS]) = Returned (s', [])
        ∧ total (ops s') = total (ops s) + length B.
Proof.
  intros H1 H2 HB.
  destruct (drain_dicts B s [Str END_DOWNLOADS]) as (s1 & Hd & Ht & Hd1 & Hd2);
    [by rewrite H1, H2|done|].
  rewrite Hd, drain_end_downloads by congruence.
  rewrite Hd1, H1. by eexists.
Qed.

Lemma interleave_nil_l turns b : interleave turns [] b = b.
Proof. by destruct turns as [|[] ?]. Qed.

Lemma interleave_nil_r turns d : interleave turns d [] = d.
Proof. by destruct turns as [|[] ?], d. Qed.

Lemma interleave_nil d b : interleave [] d b = d ++ b.
Proof. destruct d, b; simpl; by rewrite ?app_nil_r. Qed.

(** Whatever the order of the puts, the loop reads the two streams to
    their ends and counts each dictionary once. *)
Lemma drain_interleave turns : ∀ A B s,
  docs_ended s = false → downloads_ended s = false →
  Forall sound A → Forall sound B →
  ∃ s', drain s (interleave turns ((Dict <$> A) ++ [Str END_DOCS])
                   ((Dict <$> B) ++ [Str END_DOWNLOADS]))
        = Returned (s', [])
        ∧ total (ops s') = total (ops s) + length A + length B.
Proof.
  induction turns as [|turn turns IH]; intros A B s H1 H2 HA HB.
  - rewrite interleave_nil.
    destruct (drain_dicts A s ([Str END_DOCS]
                ++ (Dict <$> B) ++ [Str END_DOWNLOADS]))
      as (s1 & Hd & Ht & Hd1 & Hd2); [by rewrite H1|done|].
    rewrite <- app_assoc, Hd. cbn [app].
    rewrite drain_end_docs by congruence. rewrite Hd2, H2.
    destruct (drain_rest_downloads B (set_ended s1 true false))
      as (s' & Hd' & Ht'); [done..|].
    exists s'. split; [done|]. rewrite Ht'. cbn [ops set_ended]. lia.
  - destruct turn.
    + destruct A as [|a A].
      * destruct B as [|b B]; cbn [fmap list_fmap app interleave].
        -- rewrite drain_end_docs by done. rewrite H2.
           rewrite interleave_nil_l.
           destruct (drain_rest_downloads [] (set_ended s true false))
             as (s' & Hd' & Ht'); [done..|].
           exists s'. split; [done|]. rewrite Ht'. cbn. lia.
        -- rewrite drain_end_docs by done. rewrite H2.
           rewrite interleave_nil_l.
           destruct (drain_rest_downloads (b :: B) (set_ended s true false))
             as (s' & Hd' & Ht'); [done..|].
           exists s'. split; [done|]. rewrite Ht'. cbn. lia.
      * apply Forall_cons in HA as [Ha HA].
        assert (Hcons : ∀ q, interleave (true :: turns)
                  ((Dict <$> a :: A) ++ [Str END_DOCS]) ((Dict <$> B) ++ q)
                = Dict a :: interleave turns ((Dict <$> A) ++ [Str END_DOCS])
                              ((Dict <$> B) ++ q)).
        { intros q. destruct B; [destruct q|]; try done.
          cbn. by rewrite interleave_nil_r. }
        rewrite Hcons.
        destruct (drain_dict s a
                    (interleave turns ((Dict <$> A) ++ [Str END_DOCS])
                       ((Dict <$> B) ++ [Str END_DOWNLOADS])))
          as (s1 & Hd & Ht & Hd1 & Hd2); [by rewrite H1|done|].
        destruct (IH A B s1) as (s' & Hd' & Ht'); [congruence..|done|done|].
        exists s'. rewrite Hd, Hd', Ht', Ht. split; [done|]. simpl. lia.
    + destruct B as [|b B].
      * destruct A as [|a A]; cbn [fmap list_fmap app interleave].
        -- rewrite drain_end_downloads by done. rewrite H1.
           rewrite interleave_nil_r.
           destruct (drain_rest_docs [] (set_ended s false true))
             as (s' & Hd' & Ht'); [done..|].
           exists s'. split; [done|]. rewrite Ht'. cbn. lia.
        -- rewrite drain_end_downloads by done. rewrite H1.
           rewrite interleave_nil_r.
           destruct (drain_rest_docs (a :: A) (set_ended s false true))
             as (s' & Hd' & Ht'); [done..|].
           exists s'. split; [done|]. rewrite Ht'. cbn. lia.
      * apply Forall_cons in HB as [Hb HB].
        assert (Hcons : interleave (false :: turns)
                  ((Dict <$> A) ++ [Str END_DOCS])
                  ((Dict <$> b :: B) ++ [Str END_DOWNLOADS])
                = Dict b :: interleave turns ((Dict <$> A) ++ [Str END_DOCS])
                              ((Dict <$> B) ++ [Str END_DOWNLOADS])).
        { by destruct A. }
        rewrite Hcons.
        destruct (drain_dict s b
                    (interleave turns ((Dict <$> A) ++ [Str END_DOCS])
                       ((Dict <$> B) ++ [Str END_DOWNLOADS])))
          as (s1 & Hd & Ht & Hd1 & Hd2); [by rewrite H1|done|].
        destruct (IH A B s1) as (s' & Hd' & Ht'); [congruence..|done|done|].
        exists s'. rewrite Hd, Hd', Ht', Ht. split; [done|]. simpl. lia.
Qed.

End SyncFacts.

(** ** Counting the dictionaries of a pass *)

Module PassFacts.
Import ElasticServer.

Lemma operations_app l1 l2 :
  operations (l1 ++ l2) = operations l1 ++ operations l2.
Proof. apply omap_app. Qed.

Lemma operations_dicts l : operations (Dict <$> l) = l.
Proof.
  induction l as [|o l IH]; [done|].
  rewrite fmap_cons. unfold operations in *. cbn [omap list_omap].
  by rewrite IH.
Qed.

Lemma classify_Some st stored ids i pair o :
  classify st stored ids i pair = Some o →
  ∃ v, yielded st pair = Some v ∧ o = classified ids i pair.1 v.
Proof.
  unfold classify, yielded. destruct (st !! pair.1) as [d|]; [|done]. simpl.
  destruct (d !! "_id") as [v|]; [|done]. simpl.
  destruct (same_timestamp stored d v); [done|]. intros [= <-]. by exists v.
Qed.

Lemma classified_type ids i l v :
  _op_type (classified ids i l v) = "create"
  ∨ _op_type (classified ids i l v) = "update".
Proof. unfold classified. simpl. case_bool_decide; auto. Qed.

Lemma classify_types st stored ids i gen :
  Forall (λ o, _op_type o = "create" ∨ _op_type o = "update")
    (omap (classify st stored ids i) gen).
Proof.
  induction gen as [|pair gen IH]; [done|]. cbn [omap list_omap].
  destruct (classify st stored ids i pair) as [o|] eqn:Hc; [|done].
  apply classify_Some in Hc as (w & _ & ->).
  apply Forall_cons. split; [apply classified_type|done].
Qed.

Lemma classify_sound st stored ids i gen :
  Forall sound (omap (classify st stored ids i) gen).
Proof.
  induction gen as [|pair gen IH]; [done|]. cbn [omap list_omap].
  destruct (classify st stored ids i pair) as [o|] eqn:Hc; [|done].
  apply classify_Some in Hc as (w & _ & ->).
  apply Forall_cons. split; [apply SyncFacts.sound_classified|done].
Qed.

(** Each yielded pair that is not skipped gives exactly one dictionary,
    of its own id. *)
Lemma classify_skipped st stored ids i pair :
  classify st stored ids i pair
  = match yielded st pair with
    | Some v => if skipped st stored pair then None
                else Some (classified ids i pair.1 v)
    | None => None
    end.
Proof.
  unfold classify, yielded, skipped. destruct (st !! pair.1) as [d|]; [|done].
  simpl. by destruct (d !! "_id").
Qed.

Lemma classify_count_exact st stored ids i gen v :
  length (filter (λ o, _id o = v) (omap (classify st stored ids i) gen))
  = length (filter (λ pair, yielded st pair = Some v
                            ∧ skipped st stored pair = false) gen).
Proof.
  induction gen as [|pair gen IH]; [done|]. cbn [omap list_omap].
  rewrite classify_skipped, (filter_cons _ pair).
  destruct (yielded st pair) as [w|] eqn:Hy.
  - destruct (skipped st stored pair) eqn:Hs.
    + rewrite decide_False by (by intros [_ ?]). done.
    + rewrite filter_cons. cbn [_id classified].
      destruct (decide (w = v)) as [->|Hne].
      * rewrite decide_True by done. simpl. by rewrite IH.
      * rewrite decide_False by (intros [[=] _]; done). done.
  - rewrite decide_False by (by intros [? _]). done.
Qed.

Lemma classify_length_exact st stored ids i gen :
  Forall (λ pair, is_Some (yielded st pair)) gen →
  length (omap (classify st stored ids i) gen)
  = length (filter (λ pair, skipped st stored pair = false) gen).
Proof.
  induction 1 as [|pair gen [v Hv] _ IH]; [done|]. cbn [omap list_omap].
  rewrite classify_skipped, Hv, filter_cons.
  destruct (skipped st stored pair).
  - by rewrite decide_False.
  - rewrite decide_True by done. simpl. by rewrite IH.
Qed.

Lemma yielded_count st stored gen v :
  length (filter (λ pair, yielded st pair = Some v
                          ∧ skipped st stored pair = false) gen)
  ≤ length (filter (λ w, w = v) (omap (yielded st) gen)).
Proof.
  induction gen as [|pair gen IH]; [done|]. cbn [omap list_omap].
  rewrite (filter_cons _ pair).
  destruct (yielded st pair) as [w|] eqn:Hy.
  - rewrite filter_cons. destruct (decide (w = v)) as [->|Hne].
    + case_decide; simpl; lia.
    + rewrite decide_False by (intros [[=] _]; done). done.
  - rewrite decide_False by (by intros [? _]). done.
Qed.

Lemma of_type_split l :
  Forall (λ o, _op_type o = "create" ∨ _op_type o = "update") l →
  length l = length (of_type "create" l) + length (of_type "update" l)
  ∧ of_type "delete" l = [].
Proof.
  unfold of_type. induction 1 as [|o l Ho _ [IH1 IH2]]; [done|].
  rewrite !filter_cons, IH2.
  destruct Ho as [Ho|Ho]; rewrite Ho;
    repeat case_decide; try done; simpl; split; try done; lia.
Qed.

Lemma of_type_none t l :
  Forall (λ o, _op_type o ≠ t) l → of_type t l = [].
Proof.
  unfold of_type. induction 1 as [|o l Ho _ IH]; [done|].
  by rewrite filter_cons, decide_False.
Qed.

Lemma of_type_all t l :
  Forall (λ o, _op_type o = t) l → of_type t l = l.
Proof.
  unfold of_type. induction 1 as [|o l Ho _ IH]; [done|].
  by rewrite filter_cons, decide_True, IH.
Qed.

Lemma deletions_types seen i l :
  Forall (λ o, _op_type o = "delete") (deletions seen i l).
Proof. unfold deletions. apply Forall_fmap. by apply Forall_true. Qed.

Lemma filter_id_deletions seen i l v :
  length (filter (λ o, _id o = v) (deletions seen i l))
  = length (filter (λ w, w = v) (filter (λ w, w ∉ seen) l)).
Proof.
  unfold deletions. induction (filter (λ w, w ∉ seen) l) as [|w k IH]; [done|].
  rewrite fmap_cons, !filter_cons. cbn [_id deletion].
  case_decide; simpl; by rewrite IH.
Qed.

Lemma count_NoDup (l : list string) v :
  NoDup l → length (filter (λ w, w = v) l) = if decide (v ∈ l) then 1 else 0.
Proof.
  induction 1 as [|w l Hw _ IH]; [done|]. rewrite filter_cons.
  destruct (decide (w = v)) as [->|Hne]; simpl.
  - rewrite IH. rewrite decide_False by done.
    by rewrite decide_True by left.
  - rewrite IH. destruct (decide (v ∈ l)) as [Hv|Hv].
    + by rewrite decide_True by (by right).
    + rewrite decide_False; [done|].
      intros [?|?]%elem_of_cons; congruence.
Qed.

(** The second loop puts one dictionary for each id of the snapshot that
    has not been seen, and none for the others. *)
Lemma deletions_count (seen ids : gset string) i v :
  length (filter (λ o, _id o = v) (deletions seen i (elements ids)))
  = if decide (v ∈ ids ∧ v ∉ seen) then 1 else 0.
Proof.
  rewrite filter_id_deletions, count_NoDup.
  - destruct (decide (v ∈ ids ∧ v ∉ seen)) as [[H1 H2]|Hn].
    + rewrite decide_True; [done|].
      apply list_elem_of_filter. split; [done|]. by apply elem_of_elements.
    + rewrite decide_False; [done|].
      intros [H2 H1%elem_of_elements]%list_elem_of_filter. by apply Hn.
  - apply NoDup_filter, NoDup_elements.
Qed.

Lemma interleave_operations_length (P : operation → Prop)
    `{!∀ x, Decision (P x)} turns : ∀ d b,
  length (filter P (operations (interleave turns d b)))
  = length (filter P (operations d)) + length (filter P (operations b)).
Proof.
  induction turns as [|turn turns IH]; intros d b.
  - rewrite SyncFacts.interleave_nil, operations_app, filter_app, length_app.
    done.
  - destruct d as [|x d]; [by rewrite SyncFacts.interleave_nil_l|].
    destruct b as [|y b].
    { rewrite SyncFacts.interleave_nil_r. simpl. lia. }
    assert (Hcons : ∀ z l, operations (z :: l) = operations [z] ++ operations l).
    { intros z l. apply (operations_app [z] l). }
    destruct turn; cbn [interleave].
    + rewrite (Hcons x (interleave _ _ _)), (Hcons x d).
      rewrite !filter_app, !length_app, IH. lia.
    + rewrite (Hcons y (interleave _ _ _)), (Hcons y b).
      rewrite !filter_app, !length_app, IH. lia.
Qed.

(** The puts of [get_docs] keep their order on the queue. *)
Lemma interleave_sublist turns : ∀ d b,
  d `sublist_of` interleave turns d b.
Proof.
  induction turns as [|turn turns IH]; intros d b.
  - rewrite SyncFacts.interleave_nil. by apply sublist_inserts_r.
  - destruct d as [|x d]; [apply sublist_nil_l|].
    destruct b as [|y b]; [by rewrite SyncFacts.interleave_nil_r|].
    destruct turn; cbn [interleave].
    + apply sublist_skip, IH.
    + apply sublist_cons, IH.
Qed.

(** On the queue, the dictionaries [get_docs] puts for the yielded
    documents all come before the first delete. *)
Lemma interleave_upserts_first turns : ∀ (U : list operation) R
    (B : list item),
  Forall (λ o, _op_type o ≠ "delete") U →
  Forall (λ o, _op_type o ≠ "delete") (operations B) →
  ∃ before after,
    interleave turns ((Dict <$> U) ++ R) B = before ++ after
    ∧ (Dict <$> U) `sublist_of` before
    ∧ Forall (λ o, _op_type o ≠ "delete") (operations before).
Proof.
  assert (Hcons : ∀ z l, operations (z :: l) = operations [z] ++ operations l).
  { intros z l. apply (operations_app [z] l). }
  induction turns as [|turn turns IH]; intros U R B HU HB.
  - exists (Dict <$> U), (R ++ B).
    rewrite SyncFacts.interleave_nil, <- app_assoc.
    split; [done|]. split; [done|]. by rewrite operations_dicts.
  - destruct U as [|u U].
    { exists [], (interleave (turn :: turns) R B).
      split; [done|]. split; [done|]. apply Forall_nil_2. }
    destruct B as [|b B].
    { exists (Dict <$> u :: U), R. rewrite SyncFacts.interleave_nil_r.
      split; [done|]. split; [done|]. by rewrite operations_dicts. }
    rewrite fmap_cons. cbn [app]. destruct turn; cbn [interleave].
    + apply Forall_cons in HU as [Hu HU].
      destruct (IH U R (b :: B) HU HB) as (qa & qb & Heq & Hsub & Hnd).
      exists (Dict u :: qa), qb. rewrite Heq.
      split; [done|]. split; [by apply sublist_skip|].
      rewrite Hcons. apply Forall_app. split; [|done].
      by apply Forall_singleton.
    + rewrite Hcons in HB. apply Forall_app in HB as [Hb HB].
      destruct (IH (u :: U) R B HU HB) as (qa & qb & Heq & Hsub & Hnd).
      rewrite fmap_cons in Heq, Hsub. cbn [app] in Heq.
      exists (b :: qa), qb. rewrite Heq.
      split; [done|]. split; [by apply sublist_cons|].
      rewrite Hcons. by apply Forall_app.
Qed.

Lemma fetcher_run_returned iso_utc docs_first gen f f' docs downloads :
  Fetcher.run iso_utc docs_first gen f = Returned (f', docs, downloads) →
  ∃ s1,
    Fetcher.get_docs iso_utc gen f = (s1, Returned tt)
    ∧ docs = Fetcher.queue s1
    ∧ Fetcher.get_attachments (Fetcher.set_queue (λ _, []) s1)
      = (f', Returned tt)
    ∧ downloads = Fetcher.queue f'.
Proof.
  unfold Fetcher.run, Fetcher.gather.
  destruct (Fetcher.get_docs iso_utc gen f) as [s1 r1] eqn:H1. cbn [fst snd].
  destruct (Fetcher.get_attachments _) as [s2 r2] eqn:H2. cbn [fst snd].
  destruct r1 as [[]| |], r2 as [[]| |]; try done.
  intros [= <- <- <-]. by exists s1.
Qed.

End PassFacts.

(** * The claims *)

(** ** C2 *)

(** C2, as stated, fails: with the chunk size 500 of [Bulker.__init__],
    999 deletes followed by one create make the loop hand a batch of 1001
    entries to a dispatch call, and nothing is left for the final flush. *)
Lemma batch_of_1001_entries :
  2 * Bulker.chunk_size Bulker.init = 1000
  ∧ length <$> dispatched (Bulker.run always_ok Bulker.init ex_queue_1001)
    = [1001]
  ∧ match Bulker.drain (Bulker.enter Bulker.init) ex_queue_1001 with
    | Returned (s, _) =>
        length <$> Bulker.tasks s = [1001] ∧ Bulker.batch s = []
    | _ => False
    end.
Proof. vm_compute. done. Qed.

(** C2, amended: when [run] returns, with a chunk size of at least one, its
    dispatch calls are those of the loop, each given a batch of
    [2 * chunk_size] or [2 * chunk_size + 1] entries, followed by at most
    one call for the final flush, given a batch that is not empty and has
    fewer than [2 * chunk_size] entries. *)
Theorem batch_bound {response} (client_bulk : list wire → option response)
    self queue self' results rest :
  0 < Bulker.chunk_size self →
  Bulker.run client_bulk self queue = Returned (self', results, rest) →
  ∃ full last,
    Bulker.tasks self' = full ++ last
    ∧ Forall (λ b, 2 * Bulker.chunk_size self ≤ length b
                   ≤ 2 * Bulker.chunk_size self + 1) full
    ∧ length last ≤ 1
    ∧ Forall (λ b, 0 < length b < 2 * Bulker.chunk_size self) last.
Proof.
  intros Hc Hr.
  apply BulkerFacts.run_returned in Hr as (s1 & Hd & -> & _).
  apply BulkerFacts.drain_sized in Hd as (Hcs & Hb & Ht); [|done].
  destruct (BulkerFacts.flush_tasks s1) as [Hf _]. rewrite Hf.
  eexists _, _. split; [done|]. split; [done|].
  case_decide as Hnil; [split; [simpl; lia|done]|]. split; [done|].
  apply Forall_singleton. split; [|done].
  destruct (Bulker.batch s1); [done|simpl; lia].
Qed.

Lemma batch_bound_witness :
  ∃ self' full last,
    Bulker.run always_ok Bulker.init ex_queue_create
    = Returned (self', [tt], [])
    ∧ Bulker.tasks self' = full ++ last
    ∧ Forall (λ b, 2 * Bulker.chunk_size Bulker.init ≤ length b
                   ≤ 2 * Bulker.chunk_size Bulker.init + 1) full
    ∧ length last ≤ 1
    ∧ Forall (λ b, 0 < length b < 2 * Bulker.chunk_size Bulker.init) last.
Proof.
  assert (∃ self', Bulker.run always_ok Bulker.init ex_queue_create
                   = Returned (self', [tt], [])) as [self' Hr].
  { eexists. vm_compute. reflexivity. }
  assert (Hc : 0 < Bulker.chunk_size Bulker.init).
  { unfold Bulker.init, Bulker.chunk_size. lia. }
  destruct (batch_bound always_ok Bulker.init ex_queue_create self' [tt] []
              Hc Hr) as (full & last & H).
  exists self', full, last. exact (conj Hr H).
Defined.

(** ** C1 *)

(** C1, as stated, fails: the document "A", absent from the snapshot, is
    classified as a create, and the batch the Bulker dispatches for it
    holds the action "update", not "create". *)
Lemma create_goes_out_as_update :
  operations (Fetcher.queue ex_fetched_A)
  = [{| _op_type := "create"; _index := "idx"; _id := "A";
        doc := Some 0; doc_as_upsert := Some true |}]
  ∧ dispatched (Bulker.run always_ok Bulker.init
                  (Fetcher.queue ex_fetched_A ++ [Str END_DOWNLOADS]))
    = [[Action "update" "idx" "A"; Source 0 true]]
  ∧ ¬ ∃ b, b ∈ dispatched (Bulker.run always_ok Bulker.init
                             (Fetcher.queue ex_fetched_A ++ [Str END_DOWNLOADS]))
           ∧ Action "create" "idx" "A" ∈ b.
Proof.
  assert (H : dispatched (Bulker.run always_ok Bulker.init
                (Fetcher.queue ex_fetched_A ++ [Str END_DOWNLOADS]))
              = [[Action "update" "idx" "A"; Source 0 true]]).
  { vm_compute. reflexivity. }
  split; [vm_compute; reflexivity|]. split; [exact H|].
  rewrite H. intros (b & Hb & Hin).
  apply list_elem_of_singleton in Hb as ->.
  apply elem_of_cons in Hin as [Hin|Hin]; [done|].
  by apply list_elem_of_singleton in Hin.
Qed.

(** C1, amended: when [run] returns, for every dictionary of type "create"
    it has read, one of the dispatched batches holds the action descriptor
    with the action "update", the index and the id of the dictionary,
    followed by the entry with its document and [doc_as_upsert] set; no
    entry of a dispatched batch has the action "create". *)
Theorem create_sent_as_upsert {response}
    (client_bulk : list wire → option response)
    self queue self' results rest consumed o :
  Bulker.run client_bulk self queue = Returned (self', results, rest) →
  queue = consumed ++ rest →
  Dict o ∈ consumed →
  _op_type o = "create" →
  (∃ body b, doc o = Some body ∧ b ∈ Bulker.tasks self' ∧ carries o body b)
  ∧ ∀ b index id, b ∈ Bulker.tasks self' → Action "create" index id ∉ b.
Proof.
  intros Hr Hq Hin Hty.
  apply BulkerFacts.run_returned in Hr as (s1 & Hd & -> & _).
  destruct (BulkerFacts.flush_tasks s1) as [Hf _]. rewrite Hf. split.
  - destruct (BulkerFacts.drain_placed _ _ _ _ Hd) as (c & Hq' & Hp).
    rewrite Hq in Hq'. apply app_inv_tail in Hq' as <-.
    destruct (Hp o Hin) as (body & Hdoc & Hc); [by right|].
    exists body. destruct Hc as [Hc|(b & Hb & Hc)].
    + exists (Bulker.batch s1). split; [done|]. split; [|done].
      apply elem_of_app. right. rewrite decide_False.
      * by apply list_elem_of_singleton.
      * destruct Hc as (pre & post & ->). by destruct pre.
    + exists b. split; [done|]. split; [|done]. apply elem_of_app. by left.
  - apply BulkerFacts.drain_plain in Hd as [Hb Ht].
    intros b index id Hel. apply elem_of_app in Hel as [Hel|Hel].
    + rewrite Forall_forall in Ht. by apply Ht.
    + case_decide; [by apply elem_of_nil in Hel|].
      apply list_elem_of_singleton in Hel as ->. apply Hb.
Qed.

Lemma create_sent_as_upsert_witness :
  ∃ self',
    Bulker.run always_ok Bulker.init ex_queue_create
    = Returned (self', [tt], [])
    ∧ (∃ body b, doc (classified ∅ "idx" 0 "A") = Some body
                 ∧ b ∈ Bulker.tasks self'
                 ∧ carries (classified ∅ "idx" 0 "A") body b)
    ∧ ∀ b index id, b ∈ Bulker.tasks self' → Action "create" index id ∉ b.
Proof.
  assert (∃ self', Bulker.run always_ok Bulker.init ex_queue_create
                   = Returned (self', [tt], [])) as [self' Hr].
  { eexists. vm_compute. reflexivity. }
  exists self'. split; [exact Hr|].
  apply (create_sent_as_upsert always_ok Bulker.init ex_queue_create
           self' [tt] [] ex_queue_create (classified ∅ "idx" 0 "A") Hr).
  - by rewrite app_nil_r.
  - by left.
  - reflexivity.
Defined.

(** ** C8 *)

(** C8: the three ways [run] may go.  It returns exactly when the loop has
    read both end-of-stream strings, in either order: the loop stops on the
    value that completes the pair and leaves the rest of the queue; the
    batch that is left, if not empty, is dispatched after the loop, and
    every dispatch call has given its result.  It waits for ever only if
    the queue does not hold both strings.  It raises only on a malformed
    value read before the pair is complete, or when a dispatch call
    raises. *)
Theorem run_ends_on_both_sentinels {response}
    (client_bulk : list wire → option response) self queue :
  match Bulker.run client_bulk self queue with
  | Returned (self', results, rest) =>
      ∃ consumed last s1,
        queue = consumed ++ last :: rest
        ∧ both_observed consumed = false
        ∧ both_observed (consumed ++ [last]) = true
        ∧ Bulker.drain (Bulker.enter self) queue = Returned (s1, rest)
        ∧ Bulker.tasks self'
          = Bulker.tasks s1
            ++ (if decide (Bulker.batch s1 = []) then []
                else [Bulker.batch s1])
        ∧ Bulker.batch self' = []
        ∧ Forall2 (λ b r, client_bulk b = Some r) (Bulker.tasks self') results
  | Blocked => both_observed queue = false
  | Raised e =>
      (∃ consumed bad rest,
         queue = consumed ++ bad :: rest
         ∧ both_observed (consumed ++ [bad]) = false
         ∧ malformed bad e)
      ∨ (e = ApiError
         ∧ ∃ s1 rest b,
             Bulker.drain (Bulker.enter self) queue = Returned (s1, rest)
             ∧ b ∈ Bulker.tasks (Bulker.flush s1)
             ∧ client_bulk b = None)
  end.
Proof.
  destruct (Bulker.run client_bulk self queue) as [[[self' results] rest]|e|]
    eqn:Hr.
  - apply BulkerFacts.run_returned in Hr as (s1 & Hd & -> & Hres).
    destruct (BulkerFacts.drain_returned queue (Bulker.enter self) s1 rest
                eq_refl Hd)
      as (consumed & last & Hq & Hc & Hl).
    destruct (BulkerFacts.flush_tasks s1) as [Hf Hb].
    by exists consumed, last, s1.
  - unfold Bulker.run in Hr.
    destruct (Bulker.drain _ queue) as [[s1 rest]|e'|] eqn:Hd; [| |done].
    + right. destruct (Bulker.gather _ _) as [rs|] eqn:Hg; [done|].
      injection Hr as <-. split; [done|].
      unfold Bulker.gather in Hg. apply mapM_None in Hg.
      apply Exists_exists in Hg as (b & Hb & Hnone).
      by exists s1, rest, b.
    + left. injection Hr as <-.
      exact (BulkerFacts.drain_raised queue (Bulker.enter self) e' eq_refl Hd).
  - unfold Bulker.run in Hr.
    destruct (Bulker.drain _ queue) as [[s1 rest]|e'|] eqn:Hd; [|done|].
    + by destruct (Bulker.gather _ _).
    + exact (BulkerFacts.drain_blocked queue (Bulker.enter self) eq_refl Hd).
Qed.

(** ** C5 *)

(** C5, as stated, fails: one changed document "A" with a lazy download
    that gives an attachment, and an id "B" of the snapshot that is not
    yielded.  With the puts of [get_docs] first on the queue, the delete
    of "B" comes before the update that carries the attachment: a delete
    precedes an update of the pass. *)
Lemma attachment_update_follows_delete :
  ∃ fetcher' docs downloads,
    Fetcher.run ex_clock true [(0, Some ex_download)] ex_fetcher_AB
    = Returned (fetcher', docs, downloads)
    ∧ ElasticServer.interleave [] docs downloads
      = [Dict {| _op_type := "update"; _index := "idx"; _id := "A";
                 doc := Some 0; doc_as_upsert := Some true |};
         Dict {| _op_type := "delete"; _index := "idx"; _id := "B";
                 doc := None; doc_as_upsert := None |};
         Str END_DOCS;
         Dict {| _op_type := "update"; _index := "idx"; _id := "A";
                 doc := Some ex_attachment_loc;
                 doc_as_upsert := Some true |};
         Str END_DOWNLOADS].
Proof. eexists _, _, _. vm_compute. split; reflexivity. Qed.

(** C5, amended: when both coroutines of the Fetcher return, what
    [get_docs] has put on the queue is, in this order, the dictionaries of
    the yielded documents (none of type "delete"), the deletes, and
    "END_DOCS"; for every id of the snapshot that the generator has not
    yielded there is exactly one delete, among the puts of [get_docs] and
    on the queue shared with [get_attachments], whatever the order of the
    puts; the puts of [get_docs] keep their order on that queue; and that
    queue splits in two parts, the first with all the dictionaries of the
    yielded documents and no delete.  Nothing orders the updates of
    [get_attachments] against the deletes. *)
Theorem deletes_after_exhaustion iso_utc docs_first generator fetcher
    fetcher' docs downloads :
  Fetcher.run iso_utc docs_first generator fetcher
  = Returned (fetcher', docs, downloads) →
  Fetcher.queue fetcher = [] →
  ∃ upserts deletes,
    docs = (Dict <$> upserts) ++ (Dict <$> deletes) ++ [Str END_DOCS]
    ∧ upserts
      = omap (classify (Fetcher.store fetcher)
                (Fetcher.existing_timestamps fetcher)
                (Fetcher.existing_ids fetcher) (Fetcher.index fetcher))
          generator
    ∧ Forall (λ o, _op_type o = "create" ∨ _op_type o = "update") upserts
    ∧ Forall (λ o, _op_type o = "delete") deletes
    ∧ (∀ v,
         v ∈ Fetcher.existing_ids fetcher →
         v ∉ omap (yielded (Fetcher.store fetcher)) generator →
         length (filter (λ o, _id o = v) deletes) = 1
         ∧ ∀ turns,
             length (filter (λ o, _op_type o = "delete" ∧ _id o = v)
                       (operations
                          (ElasticServer.interleave turns docs downloads)))
             = 1)
    ∧ (∀ turns, docs `sublist_of` ElasticServer.interleave turns docs downloads)
    ∧ ∀ turns, ∃ before after,
        ElasticServer.interleave turns docs downloads = before ++ after
        ∧ (Dict <$> upserts) `sublist_of` before
        ∧ Forall (λ o, _op_type o ≠ "delete") (operations before).
Proof.
  intros Hf Hq0.
  apply PassFacts.fetcher_run_returned in Hf as (s1 & Hdocs & -> & Hatt & ->).
  apply FetcherFacts.get_docs_returned in Hdocs
    as (_ & _ & _ & Hq & _ & _ & _ & _ & _ & _).
  apply FetcherFacts.get_attachments_returned in Hatt
    as (att & Hqa & _ & _ & _ & Hatt).
  rewrite Hq0 in Hq. cbn [app] in Hq. cbn [Fetcher.queue Fetcher.set_queue app] in Hqa.
  set (seen := list_to_set (omap (yielded (Fetcher.store fetcher)) generator)
               : gset string) in *.
  eexists _, _. split; [exact Hq|]. split; [done|].
  split; [apply PassFacts.classify_types|].
  split; [apply PassFacts.deletions_types|].
  split; [|split; [intros turns; apply PassFacts.interleave_sublist|]].
  - intros v Hv Hnot.
    assert (Hone : length (filter (λ o, _id o = v)
                     (deletions seen (Fetcher.index fetcher)
                        (elements (Fetcher.existing_ids fetcher)))) = 1).
    { rewrite PassFacts.deletions_count. rewrite decide_True; [done|].
      split; [done|]. unfold seen. by rewrite elem_of_list_to_set. }
    split; [exact Hone|]. intros turns.
    rewrite PassFacts.interleave_operations_length, Hq, Hqa.
    rewrite !PassFacts.operations_app, !PassFacts.operations_dicts.
    rewrite !filter_app, !length_app. cbn [operations omap list_omap].
    rewrite !filter_nil. cbn [length].
    assert (Hnone : ∀ l : list operation,
      Forall (λ o, _op_type o = "create" ∨ _op_type o = "update") l →
      filter (λ o, _op_type o = "delete" ∧ _id o = v) l = []).
    { induction 1 as [|o l Ho _ IH]; [done|].
      rewrite filter_cons, decide_False; [done|].
      intros [Hd _]. destruct Ho; congruence. }
    rewrite Hnone by apply PassFacts.classify_types.
    rewrite (Hnone att).
    2:{ eapply Forall_impl; [exact Hatt|]. intros o [Ho _]. by right. }
    assert (Hall : ∀ l : list operation,
      Forall (λ o, _op_type o = "delete") l →
      filter (λ o, _op_type o = "delete" ∧ _id o = v) l
      = filter (λ o, _id o = v) l).
    { induction 1 as [|o l Ho _ IH]; [done|].
      rewrite !filter_cons, IH.
      destruct (decide (_id o = v)).
      - by rewrite decide_True.
      - rewrite decide_False; [done|]. by intros [_ ?]. }
    rewrite Hall by apply PassFacts.deletions_types.
    rewrite Hone. done.
  - intros turns. rewrite Hq, Hqa. apply PassFacts.interleave_upserts_first.
    + eapply Forall_impl; [apply PassFacts.classify_types|].
      intros o [Ho|Ho]; congruence.
    + rewrite PassFacts.operations_app, PassFacts.operations_dicts.
      cbn [operations omap list_omap]. rewrite app_nil_r.
      eapply Forall_impl; [exact Hatt|]. intros o [Ho _]. congruence.
Qed.

Lemma deletes_after_exhaustion_witness :
  ∃ fetcher' docs downloads upserts deletes,
    Fetcher.run ex_clock true [(0, Some ex_download)] ex_fetcher_AB
    = Returned (fetcher', docs, downloads)
    ∧ docs = (Dict <$> upserts) ++ (Dict <$> deletes) ++ [Str END_DOCS]
    ∧ length (filter (λ o, _id o = "B") deletes) = 1
    ∧ docs `sublist_of` ElasticServer.interleave [false; true] docs downloads.
Proof.
  assert (∃ fetcher' docs downloads,
    Fetcher.run ex_clock true [(0, Some ex_download)] ex_fetcher_AB
    = Returned (fetcher', docs, downloads)) as (fetcher' & docs & downloads & Hf).
  { eexists _, _, _. vm_compute. reflexivity. }
  destruct (deletes_after_exhaustion ex_clock true [(0, Some ex_download)]
              ex_fetcher_AB fetcher' docs downloads Hf eq_refl)
    as (upserts & deletes & Hdocs & _ & _ & _ & Hone & Hsub & _).
  exists fetcher', docs, downloads, upserts, deletes.
  split; [exact Hf|]. split; [exact Hdocs|]. split; [|apply Hsub].
  apply Hone.
  - apply (bool_decide_unpack _). vm_compute. exact I.
  - apply (bool_decide_unpack _). vm_compute. exact I.
Defined.

(** ** C10 *)

(** C10: the body of the loop adds the id of the document to [seen_ids]
    whether it then skips the document, puts a dictionary for it or
    raises; and when [get_docs] returns, the id of every yielded document,
    skipped or not, is in [seen_ids] and no delete has been put for it. *)
Theorem seen_id_never_deleted iso_utc generator s s' pair v :
  Fetcher.get_docs iso_utc generator s = (s', Returned tt) →
  Fetcher.queue s = [] →
  pair ∈ generator →
  yielded (Fetcher.store s) pair = Some v →
  v ∈ Fetcher.seen_ids s'
  ∧ (∀ o, o ∈ operations (Fetcher.queue s') →
          _op_type o = "delete" → _id o ≠ v)
  ∧ ∀ s0 lazy_download,
      yielded (Fetcher.store s0) (pair.1, lazy_download) = Some v →
      v ∈ Fetcher.seen_ids
            (Fetcher.look_at iso_utc (pair.1, lazy_download) s0).1.
Proof.
  intros Hdocs Hq0 Hin Hy.
  apply FetcherFacts.get_docs_returned in Hdocs
    as (_ & _ & Hseen & Hq & _ & _ & _ & _ & _ & _).
  assert (Hv : v ∈ Fetcher.seen_ids s').
  { rewrite Hseen, elem_of_list_to_set. apply list_elem_of_omap. by exists pair. }
  split; [exact Hv|]. split.
  - intros o Ho Hdel. rewrite Hq, Hq0 in Ho. cbn [app] in Ho.
    rewrite !PassFacts.operations_app, !PassFacts.operations_dicts in Ho.
    cbn [operations omap list_omap] in Ho. rewrite app_nil_r in Ho.
    apply elem_of_app in Ho as [Ho|Ho].
    + pose proof (PassFacts.classify_types (Fetcher.store s)
                    (Fetcher.existing_timestamps s) (Fetcher.existing_ids s)
                    (Fetcher.index s) generator) as Hty.
      rewrite Forall_forall in Hty. destruct (Hty o Ho); congruence.
    + unfold deletions in Ho.
      apply list_elem_of_fmap in Ho as (w & -> & Hw).
      apply list_elem_of_filter in Hw as [Hw _]. cbn [_id deletion].
      intros ->. apply Hw. by rewrite <- Hseen.
  - intros s0 lz Hy0. unfold yielded in Hy0. cbn [fst] in Hy0.
    destruct (Fetcher.store s0 !! pair.1) as [d|] eqn:Hl; [|done].
    simpl in Hy0.
    destruct (FetcherFacts.look_at_spec iso_utc pair.1 lz s0 d v Hl Hy0)
      as (s1 & r & -> & _ & Hs & _).
    cbn [fst]. rewrite Hs. apply elem_of_union. left.
    by apply elem_of_singleton.
Qed.

Lemma seen_id_never_deleted_witness :
  ∃ s',
    Fetcher.get_docs ex_clock [(0, Some ex_download)] ex_fetcher_A
    = (s', Returned tt)
    ∧ operations (Fetcher.queue s') = []
    ∧ "A" ∈ Fetcher.seen_ids s'
    ∧ ∀ o, o ∈ operations (Fetcher.queue s') →
           _op_type o = "delete" → _id o ≠ "A".
Proof.
  assert (∃ s', Fetcher.get_docs ex_clock [(0, Some ex_download)] ex_fetcher_A
                = (s', Returned tt)) as [s' Hs].
  { eexists. vm_compute. reflexivity. }
  destruct (seen_id_never_deleted ex_clock [(0, Some ex_download)]
              ex_fetcher_A s' (0, Some ex_download) "A" Hs eq_refl)
    as (Hseen & Hdel & _).
  - by left.
  - vm_compute. reflexivity.
  - exists s'. split; [exact Hs|]. split; [|by split].
    injection Hs as <-. vm_compute. reflexivity.
Defined.

(** ** C9 *)



(** ** C3 *)

(** C3: the code at an input on which it departs from the claim.  The
    snapshot is empty, so the id "A" has no stored timestamp; the document
    "A" carries the timestamp "", which is what
    [existing_timestamps.get(doc_id, "")] gives for a missing id: the
    document is skipped, the download is called with [doit=False], and
    nothing but "END_DOCS" is put on the queue. *)
Lemma absent_id_blank_timestamp_is_skipped :
  Fetcher.existing_timestamps (Fetcher.init ex_store_blank 0 "idx" ∅ ∅) !! "A"
  = None
  ∧ ex_fetched_blank.2 = Returned tt
  ∧ Fetcher.queue ex_fetched_blank.1 = [Str END_DOCS]
  ∧ Fetcher.calls ex_fetched_blank.1 = [(false, None)]
  ∧ Fetcher.total_docs_created ex_fetched_blank.1 = 0
  ∧ Fetcher.total_docs_updated ex_fetched_blank.1 = 0.
Proof. vm_compute. done. Qed.

(** ** C7 *)

(** C7: the code at an input on which it departs from the claim.  The
    document "A" has the timestamp the snapshot stores for "A" and comes
    with no lazy download: line 161 calls [None] and [get_docs] raises
    [TypeError], where the claim has the pair skipped without error.  With
    a lazy download the same document is skipped: the download is called
    once, with [doit=False], and nothing is put for the document. *)
Lemma skip_without_download_raises :
  ex_fetched_unchanged.2 = Raised TypeError
  ∧ Fetcher.queue ex_fetched_unchanged.1 = []
  ∧ ex_fetched_unchanged_download.2 = Returned tt
  ∧ Fetcher.calls ex_fetched_unchanged_download.1 = [(false, None)]
  ∧ Fetcher.queue ex_fetched_unchanged_download.1 = [Str END_DOCS].
Proof. vm_compute. done. Qed.

(** ** C4 *)

(** C4, as stated, fails: two yielded documents with the id "A" are both
    classified as creates, and the counter is incremented twice. *)
Lemma same_id_classified_twice :
  ex_fetched_twins.2 = Returned tt
  ∧ operations (Fetcher.queue ex_fetched_twins.1)
    = [{| _op_type := "create"; _index := "idx"; _id := "A";
          doc := Some 0; doc_as_upsert := Some true |};
       {| _op_type := "create"; _index := "idx"; _id := "A";
          doc := Some 1; doc_as_upsert := Some true |}]
  ∧ Fetcher.total_docs_created ex_fetched_twins.1 = 2.
Proof. vm_compute. done. Qed.

(** C4, amended: each yielded document is classified exactly once,
    occurrence by occurrence, with no look at the ids already seen.  When
    [get_docs] returns, every yielded pair has an id; the creates and
    updates put on the queue are, in the order of the generator, the
    dictionary of each yielded pair that is not skipped, so there is
    exactly one for each such pair; the created and updated counters have
    grown by the numbers of creates and of updates put; for each id, the
    creates and updates put for it are as many as the pairs yielded with
    it and not skipped, hence at most one when the yielded ids are
    pairwise distinct. *)
Theorem classified_once_per_document iso_utc generator s s' :
  Fetcher.get_docs iso_utc generator s = (s', Returned tt) →
  Fetcher.queue s = [] →
  let st := Fetcher.store s in
  let stored := Fetcher.existing_timestamps s in
  let ids := omap (yielded st) generator in
  let put := operations (Fetcher.queue s') in
  let upserts := filter (λ o, _op_type o ≠ "delete") put in
  length ids = length generator
  ∧ upserts
    = omap (classify st stored (Fetcher.existing_ids s) (Fetcher.index s))
        generator
  ∧ length upserts
    = length (filter (λ pair, skipped st stored pair = false) generator)
  ∧ Fetcher.total_docs_created s'
    = Fetcher.total_docs_created s + length (of_type "create" put)
  ∧ Fetcher.total_docs_updated s'
    = Fetcher.total_docs_updated s + length (of_type "update" put)
  ∧ length (of_type "create" put) + length (of_type "update" put)
    = length upserts
  ∧ (∀ v,
       length (filter (λ o, _id o = v ∧ _op_type o ≠ "delete") put)
       = length (filter (λ pair, yielded st pair = Some v
                                 ∧ skipped st stored pair = false)
                   generator))
  ∧ (NoDup ids →
     ∀ v, length (filter (λ o, _id o = v ∧ _op_type o ≠ "delete") put) ≤ 1).
Proof.
  intros Hdocs Hq0 st stored ids put upserts.
  apply FetcherFacts.get_docs_returned in Hdocs
    as (_ & Hall & _ & Hq & Hc & Hu & _ & _ & _ & _).
  fold st stored in Hall, Hq, Hc, Hu.
  set (ops := omap (classify st stored (Fetcher.existing_ids s)
                      (Fetcher.index s)) generator) in *.
  set (dels := deletions _ _ _) in Hq.
  assert (Hput : put = ops ++ dels).
  { unfold put. rewrite Hq, Hq0. cbn [app].
    rewrite !PassFacts.operations_app, !PassFacts.operations_dicts.
    cbn [operations omap list_omap]. by rewrite app_nil_r. }
  assert (Hty : Forall (λ o, _op_type o = "create" ∨ _op_type o = "update") ops)
    by apply PassFacts.classify_types.
  assert (Hdty : Forall (λ o, _op_type o = "delete") dels)
    by apply PassFacts.deletions_types.
  assert (Hof : ∀ t, t ≠ "delete" → of_type t put = of_type t ops).
  { intros t Ht. rewrite Hput. unfold of_type. rewrite filter_app.
    fold (of_type t dels). rewrite (PassFacts.of_type_none t dels).
    - by rewrite app_nil_r.
    - eapply Forall_impl; [exact Hdty|]. intros o Ho. congruence. }
  assert (Hups : upserts = ops).
  { unfold upserts. rewrite Hput, filter_app.
    replace (filter (λ o, _op_type o ≠ "delete") dels) with (@nil operation).
    2:{ symmetry. clear -Hdty. induction Hdty as [|o l Ho _ IH]; [done|].
        by rewrite filter_cons, decide_False by (by intros ?). }
    rewrite app_nil_r. clear -Hty. induction Hty as [|o l Ho _ IH]; [done|].
    rewrite filter_cons, decide_True, IH; [done|].
    destruct Ho; congruence. }
  assert (Hcount : ∀ v,
    length (filter (λ o, _id o = v ∧ _op_type o ≠ "delete") put)
    = length (filter (λ pair, yielded st pair = Some v
                              ∧ skipped st stored pair = false) generator)).
  { intros v. rewrite Hput, filter_app, length_app.
    replace (filter (λ o, _id o = v ∧ _op_type o ≠ "delete") dels) with
      (@nil operation).
    2:{ symmetry. clear -Hdty. induction Hdty as [|o l Ho _ IH]; [done|].
        rewrite filter_cons, decide_False; [done|]. by intros [_ ?]. }
    replace (filter (λ o, _id o = v ∧ _op_type o ≠ "delete") ops) with
      (filter (λ o, _id o = v) ops).
    2:{ clear -Hty. induction Hty as [|o l Ho _ IH]; [done|].
        rewrite !filter_cons, IH. destruct (decide (_id o = v)).
        - rewrite decide_True; [done|]. split; [done|].
          destruct Ho; congruence.
        - rewrite decide_False; [done|]. by intros [? _]. }
    simpl. rewrite Nat.add_0_r. apply PassFacts.classify_count_exact. }
  split.
  { unfold ids. clear -Hall. induction Hall as [|pair l [v Hv] _ IH]; [done|].
    cbn [omap list_omap]. rewrite Hv. simpl. by rewrite IH. }
  split; [exact Hups|].
  split; [rewrite Hups; by apply PassFacts.classify_length_exact|].
  rewrite !Hof by done. split; [exact Hc|]. split; [exact Hu|].
  split; [rewrite Hups; by destruct (PassFacts.of_type_split ops Hty) as [<- _]|].
  split; [exact Hcount|].
  intros Hnd v. rewrite Hcount.
  etrans; [|apply (Nat.eq_le_incl _ _ (eq_refl 1))].
  etrans; [apply (PassFacts.yielded_count st stored generator v)|].
  fold ids. rewrite PassFacts.count_NoDup by done. case_decide; lia.
Qed.

Lemma classified_once_per_document_witness :
  ∃ s',
    Fetcher.get_docs ex_clock [(0, Some ex_download)] ex_fetcher_AB
    = (s', Returned tt)
    ∧ Fetcher.total_docs_updated s'
      = 0 + length (of_type "update" (operations (Fetcher.queue s')))
    ∧ length (filter (λ o, _op_type o ≠ "delete")
                (operations (Fetcher.queue s'))) = 1
    ∧ ∀ v, length (filter (λ o, _id o = v ∧ _op_type o ≠ "delete")
                     (operations (Fetcher.queue s'))) ≤ 1.
Proof.
  assert (∃ s', Fetcher.get_docs ex_clock [(0, Some ex_download)] ex_fetcher_AB
                = (s', Returned tt)) as [s' Hs].
  { eexists. vm_compute. reflexivity. }
  destruct (classified_once_per_document ex_clock [(0, Some ex_download)]
              ex_fetcher_AB s' Hs eq_refl)
    as (_ & _ & Hlen & _ & Hu & _ & _ & Hone).
  exists s'. split; [exact Hs|]. split; [exact Hu|].
  split; [rewrite Hlen; vm_compute; reflexivity|].
  apply Hone. apply (bool_decide_unpack _). vm_compute. exact I.
Defined.

(** ** C6 *)

(** C6, as stated, fails: one new document with a lazy download that gives
    an attachment.  One document is created, none is updated, no delete is
    put, and the Bulker counts two operations: the create and the update
    that carries the attachment. *)
Lemma attachment_counted_by_bulker :
  ∃ st,
    ex_sync = Returned st
    ∧ ElasticServer.doc_created st = 1
    ∧ ElasticServer.doc_updated st = 0
    ∧ length (of_type "delete"
                (operations (emitted ex_clock ex_store_sync 0 true None "idx"
                               [(0, Some ex_download)]))) = 0
    ∧ ElasticServer.attachment_extracted st = 1
    ∧ total (ElasticServer.bulk_operations st) = 2
    ∧ ElasticServer.doc_created st + ElasticServer.doc_updated st
      + length (of_type "delete"
                  (operations (emitted ex_clock ex_store_sync 0 true None "idx"
                                 [(0, Some ex_download)])))
      ≠ total (ElasticServer.bulk_operations st).
Proof. eexists. vm_compute. repeat split; try reflexivity. lia. Qed.

Lemma flush_ops s : Bulker.ops (Bulker.flush s) = Bulker.ops s.
Proof. unfold Bulker.flush. by case_match. Qed.

(** C6, amended: when [async_bulk] returns, the operations the Bulker has
    counted are the documents created, the documents updated, the deletes
    put on the queue and the attachments extracted, each of which has been
    put on the queue as one more update. *)
Theorem operations_counted {response} iso_utc
    (client_bulk : list wire → option response)
    store clock docs_first turns stored index generator st :
  ElasticServer.async_bulk iso_utc client_bulk store clock docs_first turns
    stored index generator = Returned st →
  ElasticServer.doc_created st + ElasticServer.doc_updated st
  + length (of_type "delete"
              (operations (emitted iso_utc store clock docs_first stored index
                             generator)))
  + ElasticServer.attachment_extracted st
  = total (ElasticServer.bulk_operations st).
Proof.
  unfold ElasticServer.async_bulk, emitted.
  destruct (ElasticServer.existing _ _ _) as [e|[ids tss]]; [done|].
  set (f0 := Fetcher.init store clock index ids tss).
  destruct (Fetcher.run iso_utc docs_first generator f0)
    as [[[f' docs] downloads]| |] eqn:Hf; [|done..].
  destruct (Bulker.run _ _ _) as [[[bulker rs] rest]| |] eqn:Hr; [|done..].
  intros [= <-]. cbn [ElasticServer.doc_created ElasticServer.doc_updated
    ElasticServer.attachment_extracted ElasticServer.bulk_operations].
  apply PassFacts.fetcher_run_returned in Hf as (s1 & Hdocs & -> & Hatt & ->).
  apply FetcherFacts.get_docs_returned in Hdocs
    as (_ & _ & _ & Hq & Hc & Hu & Hd & _ & _ & _).
  apply FetcherFacts.get_attachments_returned in Hatt
    as (att & Hqa & Hta & Hca & Hua & Hatt).
  cbn [Fetcher.queue Fetcher.set_queue Fetcher.total_downloads
       Fetcher.total_docs_created Fetcher.total_docs_updated
       Fetcher.store Fetcher.existing_ids Fetcher.existing_timestamps
       Fetcher.index f0 Fetcher.init app] in *.
  set (ops := omap (classify store tss ids index) generator) in *.
  set (dels := deletions _ _ _) in *.
  assert (Hty : Forall (λ o, _op_type o = "create" ∨ _op_type o = "update") ops)
    by apply PassFacts.classify_types.
  assert (Hdty : Forall (λ o, _op_type o = "delete") dels)
    by apply PassFacts.deletions_types.
  assert (Hq' : Fetcher.queue s1 = (Dict <$> ops ++ dels) ++ [Str END_DOCS]).
  { by rewrite Hq, fmap_app, <- app_assoc. }
  apply BulkerFacts.run_returned in Hr as (sd & Hdrain & -> & _).
  rewrite flush_ops.
  destruct (SyncFacts.drain_interleave turns (ops ++ dels) att
              (Bulker.enter Bulker.init)) as (sd' & Hdrain' & Htotal);
    [done|done| | |].
  { apply Forall_app. split.
    - apply PassFacts.classify_sound.
    - unfold dels, deletions. apply Forall_fmap, Forall_true.
      intros v. apply SyncFacts.sound_deletion. }
  { eapply Forall_impl; [exact Hatt|]. intros o [_ Ho].
    by apply SyncFacts.sound_doc. }
  rewrite <- Hq', <- Hqa, Hdrain in Hdrain'. injection Hdrain' as <- _.
  rewrite Htotal. cbn [Bulker.ops Bulker.enter Bulker.init].
  unfold total at 1. rewrite map_fold_empty.
  rewrite Hq, Hqa, !PassFacts.operations_app, !PassFacts.operations_dicts.
  cbn [operations omap list_omap]. rewrite !app_nil_r.
  unfold of_type. rewrite !filter_app, !length_app.
  fold (of_type "delete" ops) (of_type "delete" dels) (of_type "delete" att).
  unfold of_type in Hc, Hu.
  destruct (PassFacts.of_type_split ops Hty) as [Hlen ->].
  rewrite (PassFacts.of_type_all "delete" dels) by done.
  rewrite (PassFacts.of_type_none "delete" att).
  2:{ eapply Forall_impl; [exact Hatt|]. intros o [Ho _]. congruence. }
  unfold of_type in Hlen.
  rewrite Hca, Hua, Hta, Hc, Hu, Hd, ?length_app. simpl. lia.
Qed.

Lemma operations_counted_witness :
  ∃ st,
    ex_sync = Returned st
    ∧ ElasticServer.doc_created st + ElasticServer.doc_updated st
      + length (of_type "delete"
                  (operations (emitted ex_clock ex_store_sync 0 true None "idx"
                                 [(0, Some ex_download)])))
      + ElasticServer.attachment_extracted st
      = total (ElasticServer.bulk_operations st).
Proof.
  assert (∃ st, ex_sync = Returned st) as [st Hs].
  { eexists. vm_compute. reflexivity. }
  exists st. split; [exact Hs|].
  exact (operations_counted ex_clock always_ok ex_store_sync 0 true [] None
           "idx" [(0, Some ex_download)] st Hs).
Defined.

(** * Further properties *)

(** ** The Bulker *)

Module BulkerMore.
Import Bulker.

Lemma wire_stream_snoc_dict l o es :
  entries o = inr es → wire_stream (l ++ [Dict o]) = wire_stream l ++ es.
Proof.
  intros He. unfold wire_stream, operations.
  rewrite omap_app, fmap_app, concat_app. cbn. unfold entries_of.
  by rewrite He, app_nil_r.
Qed.

Lemma wire_stream_snoc_end l it :
  item_is it END_DOCS || item_is it END_DOWNLOADS = true →
  wire_stream (l ++ [it]) = wire_stream l.
Proof.
  intros H. unfold wire_stream. by rewrite BulkerFacts.operations_snoc_end.
Qed.

Lemma streamed_consume pre l s o s' :
  consume s o = inr s' → streamed pre l s → streamed pre (l ++ [Dict o]) s'.
Proof.
  unfold consume, streamed. destruct (entries o) as [e|es] eqn:He; [done|].
  intros [= <-] Hs. rewrite (wire_stream_snoc_dict _ _ _ He).
  cbn -[Nat.mul]. destruct (_ <=? _); cbn -[Nat.mul].
  - rewrite concat_app. cbn. rewrite !app_nil_r, !app_assoc.
    by rewrite Hs.
  - by rewrite !app_assoc, Hs.
Qed.

Lemma drain_streamed q self self' rest :
  drain (enter self) q = Returned (self', rest) →
  ∃ consumed, q = consumed ++ rest ∧ streamed [] consumed self'.
Proof.
  intros Hr.
  assert (Hend : ∀ l s it,
    item_is it END_DOCS || item_is it END_DOWNLOADS = true →
    streamed [] l s → streamed [] (l ++ [it]) s).
  { intros l s it Hs. unfold streamed. by rewrite wire_stream_snoc_end. }
  exact (BulkerFacts.drain_invariant (streamed []) (λ _ _ _ _ H, H) Hend
           (streamed_consume []) q [] (enter self) self' rest eq_refl
           eq_refl Hr).
Qed.

Lemma of_type_snoc k l o :
  length (of_type k (operations (l ++ [Dict o])))
  = length (of_type k (operations l))
    + (if decide (_op_type o = k) then 1 else 0).
Proof.
  unfold of_type, operations. rewrite omap_app, filter_app, length_app.
  cbn [omap list_omap]. rewrite filter_cons, filter_nil.
  by case_decide.
Qed.

Lemma tallied_consume m l s o s' :
  consume s o = inr s' → tallied m l s → tallied m (l ++ [Dict o]) s'.
Proof.
  unfold consume, tallied. destruct (entries o) as [e|es]; [done|].
  intros [= <-] Hn k. rewrite of_type_snoc.
  assert (Hk : (<[_op_type o := S (ops s !!! _op_type o)]> (ops s)) !!! k
               = m !!! k + (length (of_type k (operations l))
                            + (if decide (_op_type o = k) then 1 else 0))).
  { case_decide as Heq.
    - subst k. rewrite lookup_total_insert_eq, Hn. lia.
    - rewrite lookup_total_insert_ne by done. rewrite Hn. lia. }
  cbn -[Nat.mul]. destruct (_ <=? _); cbn -[Nat.mul]; rewrite Hk; lia.
Qed.

Lemma drain_tallied q self self' rest :
  drain (enter self) q = Returned (self', rest) →
  ∃ consumed, q = consumed ++ rest ∧ tallied (ops self) consumed self'.
Proof.
  intros Hr.
  assert (H0 : tallied (ops self) [] (enter self)).
  { intros k. simpl. lia. }
  assert (Hend : ∀ l s it,
    item_is it END_DOCS || item_is it END_DOWNLOADS = true →
    tallied (ops self) l s → tallied (ops self) (l ++ [it]) s).
  { intros l s it Hs Ht k. by rewrite BulkerFacts.operations_snoc_end. }
  exact (BulkerFacts.drain_invariant (tallied (ops self)) (λ _ _ _ _ H, H)
           Hend (tallied_consume _) q [] (enter self) self' rest eq_refl
           H0 Hr).
Qed.

Lemma filled_consume l s o s' :
  consume s o = inr s' → filled l s → filled (l ++ [Dict o]) s'.
Proof.
  unfold consume, filled. destruct (entries o) as [e|es] eqn:He; [done|].
  apply BulkerFacts.entries_length in He. intros [= <-] Hf.
  cbn -[Nat.mul]. destruct (_ <=? _); cbn -[Nat.mul]; [|done].
  apply Forall_app. split; [done|]. apply Forall_singleton.
  intros Hnil%(f_equal length). rewrite length_app in Hnil. simpl in Hnil.
  lia.
Qed.

Lemma drain_filled q self self' rest :
  drain (enter self) q = Returned (self', rest) → filled q self'.
Proof.
  intros Hr.
  assert (H0 : filled [] (enter self)) by apply Forall_nil_2.
  destruct (BulkerFacts.drain_invariant filled (λ _ _ _ _ H, H)
              (λ _ _ _ _ H, H) filled_consume q [] (enter self) self' rest
              eq_refl H0 Hr) as (c & _ & H).
  exact H.
Qed.

End BulkerMore.

(** X1: the dispatched batches, put end to end in the order of their
    dispatch, are the entries of the dictionaries read, in the order they
    were read: no entry is lost, repeated or moved. *)
Theorem batches_keep_the_order {response}
    (client_bulk : list wire → option response)
    self queue self' results rest consumed :
  Bulker.run client_bulk self queue = Returned (self', results, rest) →
  queue = consumed ++ rest →
  concat (Bulker.tasks self') = wire_stream consumed
  ∧ length results = length (Bulker.tasks self').
Proof.
  intros Hr Hq.
  apply BulkerFacts.run_returned in Hr as (s1 & Hd & -> & Hres).
  split; [|symmetry; by eapply Forall2_length].
  destruct (BulkerMore.drain_streamed _ _ _ _ Hd) as (c & Hq' & Hs).
  rewrite Hq in Hq'. apply app_inv_tail in Hq' as <-.
  unfold streamed in Hs. cbn [app] in Hs. rewrite <- Hs.
  destruct (BulkerFacts.flush_tasks s1) as [-> _].
  rewrite concat_app. case_decide as Hnil.
  - by rewrite Hnil.
  - cbn. by rewrite app_nil_r.
Qed.

Lemma batches_keep_the_order_witness :
  ∃ self',
    Bulker.run always_ok Bulker.init ex_queue_create
    = Returned (self', [tt], [])
    ∧ concat (Bulker.tasks self') = wire_stream ex_queue_create.
Proof.
  assert (∃ self', Bulker.run always_ok Bulker.init ex_queue_create
                   = Returned (self', [tt], [])) as [self' Hr].
  { eexists. vm_compute. reflexivity. }
  exists self'. split; [exact Hr|].
  apply (batches_keep_the_order always_ok Bulker.init ex_queue_create self'
           [tt] [] ex_queue_create Hr).
  by rewrite app_nil_r.
Defined.

(** X2: [run] does not reset [self.ops]: when it returns, the counter of
    each operation type is what it was before the run plus the number of
    dictionaries of that type read in the run. *)
Theorem counters_accumulate {response}
    (client_bulk : list wire → option response)
    self queue self' results rest consumed :
  Bulker.run client_bulk self queue = Returned (self', results, rest) →
  queue = consumed ++ rest →
  ∀ k, Bulker.ops self' !!! k
       = Bulker.ops self !!! k + length (of_type k (operations consumed)).
Proof.
  intros Hr Hq.
  apply BulkerFacts.run_returned in Hr as (s1 & Hd & -> & _).
  destruct (BulkerMore.drain_tallied _ _ _ _ Hd) as (c & Hq' & Ht).
  rewrite Hq in Hq'. apply app_inv_tail in Hq' as <-.
  intros k. unfold Bulker.flush. case_match; apply Ht.
Qed.

Lemma counters_accumulate_witness :
  ∃ self',
    Bulker.run always_ok Bulker.init ex_queue_create
    = Returned (self', [tt], [])
    ∧ Bulker.ops self' !!! "create" = 1.
Proof.
  assert (∃ self', Bulker.run always_ok Bulker.init ex_queue_create
                   = Returned (self', [tt], [])) as [self' Hr].
  { eexists. vm_compute. reflexivity. }
  exists self'. split; [exact Hr|].
  rewrite (counters_accumulate always_ok Bulker.init ex_queue_create self'
             [tt] [] ex_queue_create Hr); [|by rewrite app_nil_r].
  vm_compute. reflexivity.
Defined.

(** X3: [run] never dispatches an empty batch, whatever the chunk size:
    a batch is dispatched in the loop right after entries were appended to
    it, and after the loop only if it is not empty. *)
Theorem no_empty_batch {response}
    (client_bulk : list wire → option response)
    self queue self' results rest :
  Bulker.run client_bulk self queue = Returned (self', results, rest) →
  Forall (λ b, b ≠ []) (Bulker.tasks self').
Proof.
  intros Hr.
  apply BulkerFacts.run_returned in Hr as (s1 & Hd & -> & _).
  apply BulkerMore.drain_filled in Hd.
  destruct (BulkerFacts.flush_tasks s1) as [-> _].
  apply Forall_app. split; [exact Hd|].
  case_decide; [done|]. by apply Forall_singleton.
Qed.

Lemma no_empty_batch_witness :
  ∃ self',
    Bulker.run always_ok Bulker.init ex_queue_create
    = Returned (self', [tt], [])
    ∧ Forall (λ b, b ≠ []) (Bulker.tasks self').
Proof.
  assert (∃ self', Bulker.run always_ok Bulker.init ex_queue_create
                   = Returned (self', [tt], [])) as [self' Hr].
  { eexists. vm_compute. reflexivity. }
  exists self'. split; [exact Hr|].
  exact (no_empty_batch always_ok Bulker.init ex_queue_create self' [tt] []
           Hr).
Defined.

(** ** The Fetcher *)

Module FetcherMore.
Import Fetcher FetcherFacts.
Local Open Scope fetcher_scope.

Lemma look_at_not_blocked iso_utc pair s :
  (look_at iso_utc pair s).2 ≠ Blocked.
Proof.
  destruct pair as [l lz].
  destruct (store s !! l) as [d|] eqn:Hl.
  - destruct (d !! "_id") as [v|] eqn:Hv.
    + destruct (look_at_spec iso_utc l lz s d v Hl Hv)
        as (s' & r & -> & _ & _ & _ & Hcase).
      cbn [snd]. destruct (same_timestamp _ d v).
      * destruct lz; [by destruct Hcase as (_&_&_&_&->&_)
                     |by destruct Hcase as (_&_&_&_&->&_)].
      * by destruct Hcase as (-> & _).
    + unfold look_at. run. rewrite Hl. run. by rewrite Hv.
  - unfold look_at. run. by rewrite Hl.
Qed.

Lemma for_each_look_at_not_blocked iso_utc gen : ∀ s,
  (for_each gen (look_at iso_utc) s).2 ≠ Blocked.
Proof.
  induction gen as [|pair gen IH]; intros s; [done|].
  cbn [for_each]. unfold bind at 1.
  pose proof (look_at_not_blocked iso_utc pair s) as Hnb.
  destruct (look_at iso_utc pair s) as [s1 [[]| |]]; [apply IH|done|done].
Qed.

(** The [async for] returns on distinct acceptable pairs. *)
Lemma for_each_look_at_returns iso_utc gen : ∀ s,
  NoDup gen.*1 →
  Forall (acceptable (store s) (existing_timestamps s)) gen →
  ∃ s', for_each gen (look_at iso_utc) s = (s', Returned tt).
Proof.
  induction gen as [|[l lz] gen IH]; intros s Hnd Hall.
  - by exists s.
  - rewrite fmap_cons in Hnd. apply NoDup_cons in Hnd as [Hl Hnd].
    apply Forall_cons in Hall as [(d & v & Hd & Hv & Hlz) Hall].
    cbn [fst snd] in Hd, Hlz, Hl.
    destruct (look_at_spec iso_utc l lz s d v Hd Hv)
      as (s1 & r & H1 & Hst & _ & Hfr & Hcase).
    assert (r = Returned tt) as ->.
    { destruct (same_timestamp _ d v).
      - destruct (Hlz eq_refl) as [f ->]. by destruct Hcase as (_&_&_&_&->&_).
      - by destruct Hcase as (-> & _). }
    destruct (IH s1 Hnd) as (s' & Hs').
    { destruct Hfr as (_ & -> & _).
      apply Forall_forall. intros pair Hel.
      rewrite Forall_forall in Hall.
      destruct (Hall pair Hel) as (d' & v' & Hd' & Hv' & Hlz').
      exists d', v'. split; [|done]. rewrite Hst, lookup_insert_ne; [done|].
      intros ->. apply Hl. by apply list_elem_of_fmap_2. }
    exists s'. cbn [for_each]. unfold bind at 1. by rewrite H1.
Qed.

(** More of what the [async for] does, when it returns. *)
Lemma for_each_look_at_calls iso_utc gen : ∀ s s',
  for_each gen (look_at iso_utc) s = (s', Returned tt) →
  Forall (acceptable (store s) (existing_timestamps s)) gen
  ∧ (∀ pair, pair ∈ gen →
       ∃ d v t, store s !! pair.1 = Some d ∧ d !! "_id" = Some v
                ∧ store s' !! pair.1 = Some (stamped t (renamed d v)))
  ∧ ∃ tasks cs,
      _downloads s' = _downloads s ++ tasks
      ∧ Forall (λ t, t ≠ END) tasks
      ∧ calls s' = calls s ++ cs
      ∧ cs.*1 = omap (doit_of (store s) (existing_timestamps s)) gen
      ∧ length tasks = length (filter (λ c, c.1 = true) cs).
Proof.
  induction gen as [|[l lz] gen IH]; intros s s' Hrun.
  - injection Hrun as <-. split; [done|]. split; [by intros ? ?%elem_of_nil|].
    exists [], []. by rewrite !app_nil_r.
  - pose proof (for_each_look_at _ _ _ _ Hrun) as (Hnd & _).
    rewrite fmap_cons in Hnd. apply NoDup_cons in Hnd as [Hnotin _].
    cbn [fst] in Hnotin. cbn [for_each] in Hrun. unfold bind at 1 in Hrun.
    destruct (look_at iso_utc (l, lz) s) as [s1 r1] eqn:H1.
    destruct r1 as [[]| |]; [|done..].
    destruct (look_at_returned _ _ _ _ _ H1) as (d & v & Hl & Hv).
    destruct (look_at_spec iso_utc l lz s d v Hl Hv)
      as (s1' & r & H1' & Hst & _ & Hfr & Hcase).
    rewrite H1 in H1'. injection H1' as <- <-.
    pose proof (for_each_look_at _ _ _ _ Hrun)
      as (_ & _ & Hout & _).
    destruct (IH _ _ Hrun) as (Hacc & Hmut & tasks & cs & Hdl & Hte & Hcs
                               & Hflags & Hlen).
    destruct Hfr as (_ & Hets & _).
    assert (Hsame : ∀ pair, pair ∈ gen →
              store s1 !! pair.1 = store s !! pair.1).
    { intros pair Hel. rewrite Hst. apply lookup_insert_ne.
      intros ->. apply Hnotin. by apply list_elem_of_fmap_2. }
    split; [|split].
    + apply Forall_cons. split.
      * exists d, v. split; [done|]. split; [done|]. cbn [snd]. intros Hsk.
        rewrite Hsk in Hcase. destruct lz; [by eexists|].
        by destruct Hcase as (_&_&_&_&?&_).
      * apply Forall_forall. intros pair Hel. rewrite Forall_forall in Hacc.
        destruct (Hacc pair Hel) as (d' & v' & Hd' & Hv' & Hlz').
        exists d', v'. rewrite <- Hsame, <- Hets by done. done.
    + intros pair [->|Hel]%elem_of_cons.
      * exists d, v, (iso_utc (clock s)). split; [done|]. split; [done|].
        cbn [fst]. rewrite Hout by done. by rewrite Hst, lookup_insert_eq.
      * destruct (Hmut pair Hel) as (d' & v' & t & Hd' & Hv' & Hs').
        exists d', v', t. by rewrite <- Hsame.
    + assert (Hflags' :
        omap (doit_of (store s1) (existing_timestamps s1)) gen
        = omap (doit_of (store s) (existing_timestamps s)) gen).
      { rewrite Hets. apply omap_ext_in. intros pair Hel. unfold doit_of.
        by rewrite Hsame. }
      rewrite Hflags' in Hflags.
      cbn [omap list_omap]. unfold doit_of at 1. cbn [fst snd].
      rewrite Hl. cbn [mbind option_bind]. rewrite Hv.
      cbn [mbind option_bind].
      destruct (same_timestamp (existing_timestamps s) d v).
      * destruct Hcase as (_ & Hd1 & _ & _ & Hlz). destruct lz as [f|].
        -- destruct Hlz as [_ Hc1]. cbn [mbind option_bind negb].
           exists tasks, ((false, None) :: cs).
           rewrite Hdl, Hd1, Hcs, Hc1, <- app_assoc.
           repeat split; try done;
             first [by rewrite fmap_cons, Hflags
                   |by rewrite filter_cons, decide_False].
        -- by destruct Hlz.
      * destruct Hcase as (_ & _ & _ & _ & Hlz). destruct lz as [f|].
        -- destruct Hlz as [Hd1 Hc1]. cbn [mbind option_bind negb] in *.
           eexists (_ :: tasks), (_ :: cs).
           rewrite Hdl, Hd1, Hcs, Hc1, <- !app_assoc.
           repeat split; try done;
             first [by apply Forall_cons
                   |by rewrite fmap_cons, Hflags
                   |rewrite filter_cons, decide_True by done; simpl;
                    by rewrite Hlen].
        -- destruct Hlz as [Hd1 Hc1]. cbn [mbind option_bind].
           exists tasks, cs. rewrite Hdl, Hd1, Hcs, Hc1. by repeat split.
Qed.

(** [get_docs] in terms of its first loop. *)
Lemma get_docs_unfold iso_utc gen s :
  get_docs iso_utc gen s
  = match for_each gen (look_at iso_utc)
            (set_seen_ids (λ _, ∅) (set_sync_runs true s)) with
    | (s1, Returned _) =>
        (set_queue (λ q, q ++ [Str END_DOCS])
           (set_downloads (λ q, q ++ [END])
              (set_queue
                 (λ q, q ++ (Dict <$> deletions (seen_ids s1) (index s1)
                                        (elements (existing_ids s1))))
                 s1)),
         Returned tt)
    | (s1, Raised e) => (s1, Raised e)
    | (s1, Blocked) => (s1, Blocked)
    end.
Proof.
  unfold get_docs. run.
  destruct (for_each gen _ _) as [s1 [[]| |]]; [|done..].
  rewrite for_each_delete_missing. by run.
Qed.

(** [get_attachments] never waits on a queue that holds "END". *)
Lemma attach_not_blocked data s : (attach data s).2 ≠ Blocked.
Proof.
  unfold attach. destruct data as [l|]; run; [|done].
  destruct (store s !! l) as [d|]; run; [|done]. by destruct (d !! "_id").
Qed.

Lemma downloading_not_blocked tasks rest : ∀ s,
  (downloading (tasks ++ END :: rest) s).2 ≠ Blocked.
Proof.
  induction tasks as [|t tasks IH]; intros s; cbn [app downloading]; run.
  - by destruct (sync_runs s).
  - destruct (sync_runs s); run; [|done]. destruct t as [data|]; run; [|done].
    pose proof (attach_not_blocked data (set_downloads (drop 1) s)) as Hnb.
    destruct (attach data _) as [s1 [[]| |]]; [apply IH|done|done].
Qed.

(** What [attach] does with a dictionary that has the key "_id". *)
Lemma attach_some l d v s :
  store s !! l = Some d → d !! "_id" = Some v →
  ∃ s',
    attach (Some l) s = (s', Returned tt)
    ∧ store s' = <[l := delete "_id" d]> (store s)
    ∧ queue s'
      = queue s ++ [Dict {| _op_type := "update"; _index := index s;
                            _id := v; doc := Some l;
                            doc_as_upsert := Some true |}]
    ∧ total_downloads s' = S (total_downloads s)
    ∧ _downloads s' = _downloads s
    ∧ index s' = index s
    ∧ sync_runs s' = sync_runs s.
Proof.
  intros Hl Hv. unfold attach. run. rewrite Hl. run. rewrite Hv. run.
  eexists. split; [done|]. by run.
Qed.

(** What [attach] puts on the queue, whether it returns or raises. *)
Lemma attach_puts data s :
  ∃ ops,
    queue (attach data s).1 = queue s ++ (Dict <$> ops)
    ∧ sync_runs (attach data s).1 = sync_runs s.
Proof.
  unfold attach. destruct data as [l|]; run.
  - destruct (store s !! l) as [d|]; run.
    + destruct (d !! "_id") as [v|]; run.
      * eexists [_]. by split.
      * exists []. by rewrite app_nil_r.
    + exists []. by rewrite app_nil_r.
  - exists []. by rewrite app_nil_r.
Qed.

(** Without "END" on the downloads queue the loop of [get_attachments]
    never ends, and it puts dictionaries only. *)
Lemma downloading_starved tasks : ∀ s,
  sync_runs s = true →
  Forall (λ t, t ≠ END) tasks →
  (downloading tasks s).2 ≠ Returned tt
  ∧ ∃ ops, queue (downloading tasks s).1 = queue s ++ (Dict <$> ops).
Proof.
  induction tasks as [|t tasks IH]; intros s Hrun Hall; cbn [downloading]; run;
    rewrite Hrun; run.
  - split; [done|]. exists []. by rewrite app_nil_r.
  - apply Forall_cons in Hall as [Ht Hall].
    destruct t as [data|]; [|done]. run.
    destruct (attach_puts data (set_downloads (drop 1) s)) as (ops & Hq & Hs).
    cbn [queue sync_runs set_downloads] in Hq, Hs.
    destruct (attach data _) as [s1 r1]. cbn [fst] in Hq, Hs.
    destruct r1 as [[]| |].
    + destruct (IH s1) as (Hnr & ops' & Hq'); [congruence|done|].
      split; [done|]. exists (ops ++ ops').
      by rewrite Hq', Hq, fmap_app, app_assoc.
    + split; [done|]. by exists ops.
    + split; [done|]. by exists ops.
Qed.

Lemma attachment_ext st st' i datas :
  (∀ l, l ∈ given datas → st' !! l = st !! l) →
  omap (attachment st' i) datas = omap (attachment st i) datas.
Proof.
  intros H. apply omap_ext_in. intros [l|] Hel; [|done].
  unfold attachment. cbn [mbind option_bind]. rewrite H; [done|].
  unfold given. apply list_elem_of_omap. by exists (Some l).
Qed.

(** The loop of [get_attachments] on tasks followed by "END", when the
    tasks give distinct dictionaries that have the key "_id". *)
Lemma downloading_returns datas rest : ∀ s,
  sync_runs s = true →
  Forall (identified (store s)) datas →
  NoDup (given datas) →
  ∃ s',
    downloading ((Task <$> datas) ++ END :: rest) s = (s', Returned tt)
    ∧ queue s'
      = queue s ++ (Dict <$> omap (attachment (store s) (index s)) datas)
    ∧ total_downloads s' = total_downloads s + length (given datas)
    ∧ _downloads s' = drop (S (length datas)) (_downloads s)
    ∧ (∀ l, l ∈ given datas → store s' !! l = delete "_id" <$> store s !! l)
    ∧ (∀ l, l ∉ given datas → store s' !! l = store s !! l)
    ∧ index s' = index s.
Proof.
  induction datas as [|data datas IH]; intros s Hrun Hall Hnd.
  - cbn [fmap list_fmap app downloading]. run. rewrite Hrun. run.
    eexists. split; [done|]. run. rewrite app_nil_r, Nat.add_0_r.
    repeat split; try done. by intros l ?%elem_of_nil.
  - apply Forall_cons in Hall as [Hdata Hall].
    cbn [fmap list_fmap app downloading]. run. rewrite Hrun. run.
    destruct data as [l|].
    + destruct (Hdata l eq_refl) as (d & Hl & [v Hv]).
      replace (given (Some l :: datas)) with (l :: given datas) in Hnd by done.
      apply NoDup_cons in Hnd as [Hnotin Hnd].
      destruct (attach_some l d v (set_downloads (drop 1) s) Hl Hv)
        as (s1 & Ha & Hst & Hq & Ht & Hdl & Hidx & Hsr).
      cbn [store queue total_downloads _downloads index sync_runs
           set_downloads] in Hst, Hq, Ht, Hdl, Hidx, Hsr.
      rewrite Ha.
      assert (Hsame : ∀ l', l' ∈ given datas → store s1 !! l' = store s !! l').
      { intros l' Hel. rewrite Hst. apply lookup_insert_ne. by intros ->. }
      destruct (IH s1) as (s' & Hd & Hq' & Ht' & Hdl' & Hin & Hout & Hidx');
        [congruence| |done|].
      { apply Forall_forall. intros data Hel l' ->.
        rewrite Forall_forall in Hall.
        destruct (Hall _ Hel l' eq_refl) as (d' & Hd' & Hv').
        exists d'. split; [|done]. rewrite Hsame; [done|].
        unfold given. apply list_elem_of_omap. by exists (Some l'). }
      exists s'. split; [exact Hd|].
      rewrite Hq', Hq, Hidx, (attachment_ext (store s) (store s1)) by done.
      split.
      { cbn [omap list_omap].
        assert (attachment (store s) (index s) (Some l)
                = Some {| _op_type := "update"; _index := index s; _id := v;
                          doc := Some l; doc_as_upsert := Some true |}) as ->.
        { unfold attachment. cbn [mbind option_bind]. rewrite Hl.
          cbn [mbind option_bind]. by rewrite Hv. }
        by rewrite fmap_cons, <- app_assoc. }
      split.
      { replace (given (Some l :: datas)) with (l :: given datas) by done.
        rewrite Ht', Ht. simpl. lia. }
      split; [by rewrite Hdl', Hdl, drop_drop|].
      split; [|split; [|congruence]].
      * intros l' Hel.
        replace (given (Some l :: datas)) with (l :: given datas) in Hel by done.
        destruct (decide (l' ∈ given datas)) as [Hin'|Hout'].
        -- rewrite Hin by done. by rewrite Hsame.
        -- apply elem_of_cons in Hel as [->|?]; [|done].
           rewrite Hout by done. by rewrite Hst, lookup_insert_eq, Hl.
      * intros l' Hel.
        replace (given (Some l :: datas)) with (l :: given datas) in Hel by done.
        apply not_elem_of_cons in Hel as [Hne Hel].
        rewrite Hout by done. rewrite Hst. by apply lookup_insert_ne.
    + cbn [attach]. run.
      destruct (IH (set_downloads (drop 1) s)) as (s' & Hd & Hq' & Ht' & Hdl'
        & Hin & Hout & Hidx'); [done|done|done|].
      cbn [store queue total_downloads _downloads index sync_runs
           set_downloads] in *.
      exists s'. rewrite Hdl', drop_drop. by repeat split.
Qed.

(** The body of the [async for], whatever it does: it puts dictionaries
    on the queue and schedules tasks, never "END". *)
Lemma look_at_puts iso_utc pair s :
  ∃ ops tasks,
    queue (look_at iso_utc pair s).1 = queue s ++ (Dict <$> ops)
    ∧ _downloads (look_at iso_utc pair s).1 = _downloads s ++ tasks
    ∧ Forall (λ t, t ≠ END) tasks
    ∧ sync_runs (look_at iso_utc pair s).1 = sync_runs s.
Proof.
  destruct pair as [l lz].
  destruct (store s !! l) as [d|] eqn:Hl.
  - destruct (d !! "_id") as [v|] eqn:Hv.
    + destruct (look_at_spec iso_utc l lz s d v Hl Hv)
        as (s' & r & -> & _ & _ & Hfr & Hcase).
      cbn [fst]. destruct Hfr as (_ & _ & _ & Hsr & _).
      destruct (same_timestamp _ d v).
      * destruct Hcase as (-> & -> & _). exists [], [].
        by rewrite !app_nil_r.
      * destruct Hcase as (_ & -> & _ & _ & Hlz). eexists [_].
        destruct lz as [f|].
        -- destruct Hlz as [-> _]. eexists [_]. repeat split; try done.
           by apply Forall_singleton.
        -- destruct Hlz as [-> _]. exists []. by rewrite app_nil_r.
    + exists [], []. unfold look_at. run. rewrite Hl. run. rewrite Hv.
      by rewrite !app_nil_r.
  - exists [], []. unfold look_at. run. rewrite Hl. by rewrite !app_nil_r.
Qed.

Lemma for_each_look_at_puts iso_utc gen : ∀ s,
  ∃ ops tasks,
    queue (for_each gen (look_at iso_utc) s).1 = queue s ++ (Dict <$> ops)
    ∧ _downloads (for_each gen (look_at iso_utc) s).1 = _downloads s ++ tasks
    ∧ Forall (λ t, t ≠ END) tasks
    ∧ sync_runs (for_each gen (look_at iso_utc) s).1 = sync_runs s.
Proof.
  induction gen as [|pair gen IH]; intros s.
  - exists [], []. by rewrite !app_nil_r.
  - assert (for_each (pair :: gen) (look_at iso_utc) s
            = match look_at iso_utc pair s with
              | (s1, Returned _) => for_each gen (look_at iso_utc) s1
              | (s1, Raised e) => (s1, Raised e)
              | (s1, Blocked) => (s1, Blocked)
              end) as ->.
    { cbn [for_each]. unfold bind.
      by destruct (look_at iso_utc pair s) as [? [[]| |]]. }
    destruct (look_at_puts iso_utc pair s) as (ops & tasks & Hq & Hd & Ht & Hs).
    destruct (look_at iso_utc pair s) as [s1 r1]. cbn [fst] in Hq, Hd, Hs.
    destruct r1 as [[]| |]; [|by exists ops, tasks..].
    destruct (IH s1) as (ops' & tasks' & Hq' & Hd' & Ht' & Hs').
    exists (ops ++ ops'), (tasks ++ tasks').
    rewrite Hq', Hd', Hs', Hq, Hd, Hs, fmap_app, !app_assoc.
    repeat split; try done. by apply Forall_app.
Qed.

(** Where the [async for] raises, on distinct objects: at the first pair
    that is refused, after it has put the dictionaries of the pairs
    before it. *)
Lemma for_each_look_at_raises iso_utc gen : ∀ s s' e,
  NoDup gen.*1 →
  for_each gen (look_at iso_utc) s = (s', Raised e) →
  ∃ pre pair post,
    gen = pre ++ pair :: post
    ∧ Forall (acceptable (store s) (existing_timestamps s)) pre
    ∧ refused (store s) (existing_timestamps s) pair e
    ∧ queue s'
      = queue s
        ++ (Dict <$> omap (classify (store s) (existing_timestamps s)
                             (existing_ids s) (index s)) pre).
Proof.
  induction gen as [|[l lz] gen IH]; intros s s' e Hnd; [done|].
  rewrite fmap_cons in Hnd. apply NoDup_cons in Hnd as [Hnotin Hnd].
  cbn [fst] in Hnotin. cbn [for_each]. unfold bind at 1.
  destruct (store s !! l) as [d|] eqn:Hl.
  - destruct (d !! "_id") as [v|] eqn:Hv.
    + destruct (look_at_spec iso_utc l lz s d v Hl Hv)
        as (s1 & r & -> & Hst & _ & Hfr & Hcase).
      destruct Hfr as (Hids & Hets & Hidx & _).
      destruct r as [[]|e1|].
      * intros Hrest.
        destruct (IH _ _ _ Hnd Hrest) as (pre & pair & post & -> & Hacc & Href
                                          & Hq).
        assert (Hsame : ∀ p, p ∈ pre ++ pair :: post →
                  store s1 !! p.1 = store s !! p.1).
        { intros p Hel. rewrite Hst. apply lookup_insert_ne.
          intros ->. apply Hnotin. by apply list_elem_of_fmap_2. }
        exists ((l, lz) :: pre), pair, post. split; [done|].
        split; [|split].
        -- apply Forall_cons. split.
           ++ exists d, v. split; [done|]. split; [done|]. cbn [snd].
              intros Hsk. rewrite Hsk in Hcase. destruct lz; [by eexists|].
              by destruct Hcase as (_&_&_&_&?&_).
           ++ apply Forall_forall. intros p Hel. rewrite Forall_forall in Hacc.
              destruct (Hacc p Hel) as (d' & v' & Hd' & Hv' & Hlz').
              exists d', v'. rewrite <- Hets.
              rewrite <- Hsame by (apply elem_of_app; by left). done.
        -- unfold refused in *. rewrite <- Hets.
           rewrite <- Hsame by (apply elem_of_app; right; by left). done.
        -- rewrite Hq. cbn [omap list_omap].
           assert (Hclass :
             omap (classify (store s1) (existing_timestamps s1)
                     (existing_ids s1) (index s1)) pre
             = omap (classify (store s) (existing_timestamps s)
                       (existing_ids s) (index s)) pre).
           { rewrite Hids, Hets, Hidx. apply omap_ext_in. intros p Hel.
             unfold classify.
             by rewrite Hsame by (apply elem_of_app; by left). }
           rewrite Hclass. unfold classify at 2. cbn [fst].
           rewrite Hl. cbn [mbind option_bind]. rewrite Hv.
           cbn [mbind option_bind].
           destruct (same_timestamp (existing_timestamps s) d v).
           ++ destruct Hcase as (-> & _). done.
           ++ destruct Hcase as (_ & -> & _).
              by rewrite fmap_cons, <- app_assoc.
      * intros [= <- <-]. exists [], (l, lz), gen. split; [done|].
        split; [done|]. unfold refused. cbn [fst snd]. rewrite Hl, Hv.
        destruct (same_timestamp (existing_timestamps s) d v).
        -- destruct Hcase as (-> & _ & _ & _ & Hlz).
           destruct lz; [by destruct Hlz|]. destruct Hlz as [[= ->] _].
           split; [done|]. by rewrite app_nil_r.
        -- by destruct Hcase as ([=] & _).
      * done.
    + unfold look_at. run. rewrite Hl. run. rewrite Hv. run.
      intros [= <- <-]. exists [], (l, lz), gen. split; [done|].
      split; [done|]. unfold refused. cbn [fst]. rewrite Hl, Hv.
      split; [done|]. by rewrite app_nil_r.
  - unfold look_at. run. rewrite Hl. run.
    intros [= <- <-]. exists [], (l, lz), gen. split; [done|].
    split; [done|]. unfold refused. cbn [fst]. rewrite Hl.
    split; [done|]. by rewrite app_nil_r.
Qed.

(** The lazy downloads [get_docs] calls and the tasks it schedules. *)
Lemma get_docs_calls iso_utc gen s s' :
  get_docs iso_utc gen s = (s', Returned tt) →
  ∃ tasks cs,
    _downloads s' = _downloads s ++ tasks ++ [END]
    ∧ Forall (λ t, t ≠ END) tasks
    ∧ calls s' = calls s ++ cs
    ∧ cs.*1 = omap (doit_of (store s) (existing_timestamps s)) gen
    ∧ length tasks = length (filter (λ c, c.1 = true) cs).
Proof.
  rewrite get_docs_unfold.
  destruct (for_each gen _ _) as [s1 [[]| |]] eqn:Hloop; [|done..].
  intros [= <-].
  apply for_each_look_at_calls in Hloop
    as (_ & _ & tasks & cs & Hdl & Hte & Hcs & Hfl & Hlen).
  exists tasks, cs. run. cbn [store existing_timestamps _downloads calls
    set_seen_ids set_sync_runs] in *.
  rewrite Hdl, Hcs, <- app_assoc. by repeat split.
Qed.

(** The objects [get_docs] changes. *)
Lemma get_docs_store iso_utc gen s s' :
  get_docs iso_utc gen s = (s', Returned tt) →
  (∀ l, l ∉ gen.*1 → store s' !! l = store s !! l)
  ∧ (∀ pair, pair ∈ gen →
       ∃ d v t, store s !! pair.1 = Some d ∧ d !! "_id" = Some v
                ∧ store s' !! pair.1 = Some (stamped t (renamed d v)))
  ∧ existing_ids s' = existing_ids s
  ∧ existing_timestamps s' = existing_timestamps s.
Proof.
  rewrite get_docs_unfold.
  destruct (for_each gen _ _) as [s1 [[]| |]] eqn:Hloop; [|done..].
  intros [= <-].
  pose proof (for_each_look_at _ _ _ _ Hloop)
    as (_ & _ & Hout & _ & _ & (Hids & Hets & _) & _).
  apply for_each_look_at_calls in Hloop as (_ & Hmut & _).
  by run.
Qed.

Lemma classify_unchanged st stored ids i gen :
  Forall (unchanged_pair st stored) gen →
  omap (classify st stored ids i) gen = []
  ∧ omap (doit_of st stored) gen = replicate (length gen) false.
Proof.
  induction 1 as [|pair gen (d & v & Hd & Hv & Hsame & [f Hf]) _ [IH1 IH2]];
    [done|].
  cbn [omap list_omap]. unfold classify at 1, doit_of at 1.
  rewrite Hd. cbn [mbind option_bind]. rewrite Hv. cbn [mbind option_bind].
  rewrite Hsame, Hf. cbn [mbind option_bind negb]. by rewrite IH1, IH2.
Qed.

Lemma no_true_flag (cs : list (bool * option string)) : ∀ n,
  cs.*1 = replicate n false → filter (λ c, c.1 = true) cs = [].
Proof.
  induction cs as [|c cs IH]; intros [|n]; try done.
  rewrite fmap_cons. cbn [replicate]. intros [= Hc Hcs].
  rewrite filter_cons, decide_False; [by eapply IH|]. by rewrite Hc.
Qed.

End FetcherMore.

(** X4: where [get_docs] raises.  On a generator that yields distinct
    objects, [get_docs] raises only at the first pair the body of the loop
    refuses: [KeyError] for a document without the key "_id",
    [TypeError] for a document that has the stored timestamp and comes
    without a lazy download (or for what is no dictionary).  The
    dictionaries of the pairs before that one have been put on the queue,
    and nothing else: no delete, no "END_DOCS".  It returns only if no
    pair is refused, and on such pairs it never raises. *)
Theorem get_docs_raises_at_first_refused iso_utc generator s :
  NoDup generator.*1 →
  let st := Fetcher.store s in
  let stored := Fetcher.existing_timestamps s in
  (∀ s' e,
     Fetcher.get_docs iso_utc generator s = (s', Raised e) →
     ∃ pre pair post,
       generator = pre ++ pair :: post
       ∧ Forall (acceptable st stored) pre
       ∧ refused st stored pair e
       ∧ Fetcher.queue s'
         = Fetcher.queue s
           ++ (Dict <$> omap (classify st stored (Fetcher.existing_ids s)
                                (Fetcher.index s)) pre))
  ∧ (∀ s',
       Fetcher.get_docs iso_utc generator s = (s', Returned tt) →
       Forall (acceptable st stored) generator)
  ∧ (Forall (acceptable st stored) generator →
     ∀ s' e, Fetcher.get_docs iso_utc generator s ≠ (s', Raised e)).
Proof.
  intros Hnd st stored. rewrite FetcherMore.get_docs_unfold.
  set (s0 := Fetcher.set_seen_ids _ _).
  destruct (Fetcher.for_each generator _ s0) as [s1 r] eqn:Hloop.
  split; [|split].
  - intros s' e He. destruct r as [[]|e1|]; [done| |done].
    injection He as <- <-.
    by apply FetcherMore.for_each_look_at_raises in Hloop.
  - intros s' Hr. destruct r as [[]| |]; [|done..].
    by apply FetcherMore.for_each_look_at_calls in Hloop as (? & _).
  - intros Hall s' e He.
    destruct (FetcherMore.for_each_look_at_returns iso_utc generator s0 Hnd
                Hall) as (s2 & Hs2).
    rewrite Hloop in Hs2. injection Hs2 as -> ->. done.
Qed.

Lemma get_docs_raises_at_first_refused_witness :
  ∃ pre pair post,
    [(0, @None Fetcher.lazy_download)] = pre ++ pair :: post
    ∧ refused ex_store_A {["A" := "T1"]} pair TypeError.
Proof.
  destruct (get_docs_raises_at_first_refused ex_clock [(0, None)] ex_fetcher_A)
    as (Hraise & _).
  - apply (bool_decide_unpack _). vm_compute. exact I.
  - destruct (Hraise ex_fetched_unchanged.1 TypeError)
      as (pre & pair & post & Hgen & _ & Href & _).
    + vm_compute. reflexivity.
    + by exists pre, pair, post.
Defined.

(** X5: a pass over unchanged documents puts no create and no update.  If
    the generator yields distinct objects, each with the timestamp
    [existing_timestamps.get(doc_id, "")] gives and with a lazy download,
    [get_docs] returns having put on the queue only the deletes and
    "END_DOCS", the counters are as before, every lazy download has been
    called with [doit=False], and only "END" has been scheduled. *)
Theorem unchanged_documents_put_nothing iso_utc generator s :
  NoDup generator.*1 →
  Forall (unchanged_pair (Fetcher.store s) (Fetcher.existing_timestamps s))
    generator →
  ∃ s',
    Fetcher.get_docs iso_utc generator s = (s', Returned tt)
    ∧ Fetcher.queue s'
      = Fetcher.queue s
        ++ (Dict <$> deletions
                       (list_to_set (omap (yielded (Fetcher.store s))
                                       generator))
                       (Fetcher.index s)
                       (elements (Fetcher.existing_ids s)))
        ++ [Str END_DOCS]
    ∧ Fetcher.total_docs_created s' = Fetcher.total_docs_created s
    ∧ Fetcher.total_docs_updated s' = Fetcher.total_docs_updated s
    ∧ Fetcher._downloads s' = Fetcher._downloads s ++ [Fetcher.END]
    ∧ ∃ cs, Fetcher.calls s' = Fetcher.calls s ++ cs
            ∧ cs.*1 = replicate (length generator) false.
Proof.
  intros Hnd Hall.
  destruct (FetcherMore.classify_unchanged (Fetcher.store s)
              (Fetcher.existing_timestamps s) (Fetcher.existing_ids s)
              (Fetcher.index s) generator Hall) as [Hops Hflags].
  assert (∃ s', Fetcher.get_docs iso_utc generator s = (s', Returned tt))
    as [s' Hrun].
  { destruct (FetcherMore.for_each_look_at_returns iso_utc generator
                (Fetcher.set_seen_ids (λ _, ∅) (Fetcher.set_sync_runs true s))
                Hnd) as (s1 & Hloop).
    - eapply Forall_impl; [exact Hall|].
      intros pair (d & v & Hd & Hv & Hsame & Hlz). by exists d, v.
    - rewrite FetcherMore.get_docs_unfold, Hloop. by eexists. }
  exists s'. split; [done|].
  pose proof (FetcherFacts.get_docs_returned _ _ _ _ Hrun)
    as (_ & _ & _ & Hq & Hc & Hu & _).
  cbn zeta in Hq, Hc, Hu. rewrite Hops in Hq, Hc, Hu.
  cbn [fmap list_fmap app] in Hq. cbn in Hc, Hu.
  rewrite Nat.add_0_r in Hc, Hu.
  destruct (FetcherMore.get_docs_calls _ _ _ _ Hrun)
    as (tasks & cs & Hdl & _ & Hcs & Hfl & Hlen).
  rewrite Hflags in Hfl.
  rewrite (FetcherMore.no_true_flag cs _ Hfl) in Hlen.
  apply length_zero_iff_nil in Hlen as ->.
  repeat split; try done. by exists cs.
Qed.

Lemma unchanged_documents_put_nothing_witness :
  ∃ s',
    Fetcher.get_docs ex_clock [(0, Some ex_download)] ex_fetcher_A
    = (s', Returned tt)
    ∧ Fetcher.total_docs_created s' = 0
    ∧ Fetcher.total_docs_updated s' = 0
    ∧ Fetcher._downloads s' = [Fetcher.END].
Proof.
  destruct (unchanged_documents_put_nothing ex_clock [(0, Some ex_download)]
              ex_fetcher_A) as (s' & Hrun & _ & Hc & Hu & Hdl & _).
  - apply (bool_decide_unpack _). vm_compute. exact I.
  - apply Forall_singleton. exists {["_id" := "A"; "timestamp" := "T1"]}, "A".
    repeat split; [vm_compute; reflexivity..|by eexists].
  - by exists s'.
Defined.

(** X6: a document without the key "timestamp" is never skipped.  The body
    of the loop gives it the time of [iso_utc], puts one dictionary for it
    (an update if its id is in the snapshot, a create otherwise) and, if
    the pair has a lazy download, schedules it with [doit=True] and that
    time. *)
Theorem untimed_document_is_stamped iso_utc l lazy_download s d v :
  Fetcher.store s !! l = Some d →
  d !! "_id" = Some v →
  d !! "timestamp" = None →
  ∃ s',
    Fetcher.look_at iso_utc (l, lazy_download) s = (s', Returned tt)
    ∧ Fetcher.store s' !! l
      = Some (<["timestamp" := iso_utc (Fetcher.clock s)]> (renamed d v))
    ∧ Fetcher.queue s'
      = Fetcher.queue s
        ++ [Dict (classified (Fetcher.existing_ids s) (Fetcher.index s) l v)]
    ∧ Fetcher._downloads s'
      = Fetcher._downloads s
        ++ match lazy_download with
           | Some f =>
               [Fetcher.Task (f true (Some (iso_utc (Fetcher.clock s))))]
           | None => []
           end.
Proof.
  intros Hl Hv Hts.
  destruct (FetcherFacts.look_at_spec iso_utc l lazy_download s d v Hl Hv)
    as (s' & r & Hrun & Hst & _ & _ & Hcase).
  unfold same_timestamp in Hcase. rewrite Hts in Hcase.
  destruct Hcase as (-> & Hq & _ & _ & Hlz).
  exists s'. split; [done|]. split.
  { rewrite Hst, lookup_insert_eq. unfold stamped.
    by rewrite FetcherFacts.renamed_timestamp, Hts. }
  split; [done|].
  destruct lazy_download; [by destruct Hlz as [-> _]|].
  destruct Hlz as [-> _]. by rewrite app_nil_r.
Qed.

Lemma untimed_document_is_stamped_witness :
  ∃ s',
    Fetcher.look_at ex_clock (0, Some ex_download)
      (Fetcher.init ex_store_plain 0 "idx" ∅ ∅)
    = (s', Returned tt)
    ∧ Fetcher._downloads s'
      = [Fetcher.Task (ex_download true (Some (ex_clock 0)))].
Proof.
  destruct (untimed_document_is_stamped ex_clock 0 (Some ex_download)
              (Fetcher.init ex_store_plain 0 "idx" ∅ ∅)
              {["_id" := "A"; "title" := "a"]} "A")
    as (s' & Hrun & _ & _ & Hdl); [vm_compute; reflexivity..|].
  by exists s'.
Defined.

(** X7: when [get_docs] returns, every dictionary it has put is for the
    index of the Fetcher and is one of: a create, with a document, for a
    yielded id that is not in the snapshot; an update, with a document,
    for a yielded id that is in the snapshot; a delete, without a
    document, for an id of the snapshot that was not yielded. *)
Theorem operations_target_the_snapshot iso_utc generator s s' o :
  Fetcher.get_docs iso_utc generator s = (s', Returned tt) →
  Fetcher.queue s = [] →
  o ∈ operations (Fetcher.queue s') →
  _index o = Fetcher.index s
  ∧ ((_op_type o = "create"
      ∧ (_id o ∉ Fetcher.existing_ids s)
      ∧ _id o ∈ omap (yielded (Fetcher.store s)) generator
      ∧ is_Some (doc o))
     ∨ (_op_type o = "update"
        ∧ _id o ∈ Fetcher.existing_ids s
        ∧ _id o ∈ omap (yielded (Fetcher.store s)) generator
        ∧ is_Some (doc o))
     ∨ (_op_type o = "delete"
        ∧ _id o ∈ Fetcher.existing_ids s
        ∧ (_id o ∉ omap (yielded (Fetcher.store s)) generator)
        ∧ doc o = None)).
Proof.
  intros Hrun Hq0 Ho.
  apply FetcherFacts.get_docs_returned in Hrun
    as (_ & _ & _ & Hq & _).
  rewrite Hq, Hq0 in Ho. cbn [app] in Ho.
  rewrite !PassFacts.operations_app, !PassFacts.operations_dicts in Ho.
  cbn [operations omap list_omap] in Ho. rewrite app_nil_r in Ho.
  apply elem_of_app in Ho as [Ho|Ho].
  - apply list_elem_of_omap in Ho as (pair & Hel & Hc).
    apply PassFacts.classify_Some in Hc as (v & Hy & ->).
    split; [done|].
    assert (Hv : v ∈ omap (yielded (Fetcher.store s)) generator).
    { apply list_elem_of_omap. by exists pair. }
    unfold classified. cbn [_op_type _id doc].
    case_bool_decide; [right; left|left]; repeat split; try done; by eexists.
  - unfold deletions in Ho. apply list_elem_of_fmap in Ho as (w & -> & Hw).
    apply list_elem_of_filter in Hw as [Hw Hin].
    apply elem_of_elements in Hin. rewrite elem_of_list_to_set in Hw.
    split; [done|]. right; right. by repeat split.
Qed.

Lemma operations_target_the_snapshot_witness :
  ∃ s',
    Fetcher.get_docs ex_clock [(0, Some ex_download)] ex_fetcher_AB
    = (s', Returned tt)
    ∧ ∀ o, o ∈ operations (Fetcher.queue s') → _index o = "idx".
Proof.
  assert (∃ s', Fetcher.get_docs ex_clock [(0, Some ex_download)] ex_fetcher_AB
                = (s', Returned tt)) as [s' Hs].
  { eexists. vm_compute. reflexivity. }
  exists s'. split; [exact Hs|]. intros o Ho.
  by destruct (operations_target_the_snapshot ex_clock
                 [(0, Some ex_download)] ex_fetcher_AB s' o Hs eq_refl Ho).
Defined.

(** X8: [get_docs] changes the yielded objects and nothing else.  When it
    returns, each yielded object holds its document with "_id" renamed to
    "id" and a timestamp, every other object of the store is as it was,
    and the snapshot (ids and timestamps) is as it was. *)
Theorem get_docs_touches_only_yielded iso_utc generator s s' :
  Fetcher.get_docs iso_utc generator s = (s', Returned tt) →
  (∀ l, l ∉ generator.*1 → Fetcher.store s' !! l = Fetcher.store s !! l)
  ∧ (∀ pair, pair ∈ generator →
       ∃ d v t, Fetcher.store s !! pair.1 = Some d
                ∧ d !! "_id" = Some v
                ∧ Fetcher.store s' !! pair.1 = Some (stamped t (renamed d v)))
  ∧ Fetcher.existing_ids s' = Fetcher.existing_ids s
  ∧ Fetcher.existing_timestamps s' = Fetcher.existing_timestamps s.
Proof. apply FetcherMore.get_docs_store. Qed.

Lemma get_docs_touches_only_yielded_witness :
  ∃ s',
    Fetcher.get_docs ex_clock [(0, None)]
      (Fetcher.init ex_store_twins 0 "idx" ∅ ∅)
    = (s', Returned tt)
    ∧ Fetcher.store s' !! 1 = Some {["_id" := "A"; "timestamp" := "T2"]}.
Proof.
  assert (∃ s', Fetcher.get_docs ex_clock [(0, None)]
                  (Fetcher.init ex_store_twins 0 "idx" ∅ ∅)
                = (s', Returned tt)) as [s' Hs].
  { eexists. vm_compute. reflexivity. }
  exists s'. split; [exact Hs|].
  destruct (get_docs_touches_only_yielded ex_clock [(0, None)]
              (Fetcher.init ex_store_twins 0 "idx" ∅ ∅) s' Hs)
    as (Hout & _).
  rewrite Hout; [vm_compute; reflexivity|].
  apply (bool_decide_unpack _). vm_compute. exact I.
Defined.

(** X9: when [get_docs] returns, it has called the lazy download of each
    pair that has one exactly once, in the order of the generator, with
    [doit=False] for a skipped document and [doit=True] otherwise; it has
    scheduled one task for each call with [doit=True], and "END" after the
    tasks. *)
Theorem downloads_called_once iso_utc generator s s' :
  Fetcher.get_docs iso_utc generator s = (s', Returned tt) →
  ∃ tasks cs,
    Fetcher._downloads s' = Fetcher._downloads s ++ tasks ++ [Fetcher.END]
    ∧ Forall (λ t, t ≠ Fetcher.END) tasks
    ∧ Fetcher.calls s' = Fetcher.calls s ++ cs
    ∧ cs.*1 = omap (doit_of (Fetcher.store s) (Fetcher.existing_timestamps s))
                generator
    ∧ length tasks = length (filter (λ c, c.1 = true) cs).
Proof. apply FetcherMore.get_docs_calls. Qed.

Lemma downloads_called_once_witness :
  ∃ s' tasks cs,
    Fetcher.get_docs ex_clock [(0, Some ex_download)] ex_fetcher_AB
    = (s', Returned tt)
    ∧ Fetcher._downloads s' = tasks ++ [Fetcher.END]
    ∧ Fetcher.calls s' = cs
    ∧ cs.*1 = [true].
Proof.
  assert (∃ s', Fetcher.get_docs ex_clock [(0, Some ex_download)] ex_fetcher_AB
                = (s', Returned tt)) as [s' Hs].
  { eexists. vm_compute. reflexivity. }
  destruct (downloads_called_once ex_clock [(0, Some ex_download)]
              ex_fetcher_AB s' Hs) as (tasks & cs & Hdl & _ & Hcs & Hfl & _).
  exists s', tasks, cs. split; [exact Hs|]. split; [exact Hdl|].
  split; [exact Hcs|]. rewrite Hfl. vm_compute. reflexivity.
Defined.

(** X10: [get_attachments] on tasks followed by "END", each task giving
    [None] or a dictionary with the key "_id", the dictionaries being
    distinct objects.  It returns; each dictionary has become one update
    for the index of the Fetcher, in the order of the tasks, with the id
    it held and, as document, that same dictionary, which has lost its
    key "_id" and is otherwise as the download gave it; a task that gives
    [None] adds nothing and is not counted; "END_DOWNLOADS" is put last;
    what follows "END" is left on the downloads queue, and no other object
    of the store is changed. *)
Theorem get_attachments_puts_updates datas rest s :
  Fetcher._downloads s = (Fetcher.Task <$> datas) ++ Fetcher.END :: rest →
  Fetcher.sync_runs s = true →
  Forall (identified (Fetcher.store s)) datas →
  NoDup (given datas) →
  ∃ s',
    Fetcher.get_attachments s = (s', Returned tt)
    ∧ Fetcher.queue s'
      = Fetcher.queue s
        ++ (Dict <$> omap (attachment (Fetcher.store s) (Fetcher.index s))
                       datas)
        ++ [Str END_DOWNLOADS]
    ∧ Fetcher.total_downloads s'
      = Fetcher.total_downloads s + length (given datas)
    ∧ Fetcher._downloads s' = rest
    ∧ (∀ l, l ∈ given datas →
         Fetcher.store s' !! l = delete "_id" <$> Fetcher.store s !! l)
    ∧ (∀ l, l ∉ given datas → Fetcher.store s' !! l = Fetcher.store s !! l).
Proof.
  intros Hdl Hrun Hall Hnd.
  destruct (FetcherMore.downloading_returns datas rest s Hrun Hall Hnd)
    as (s1 & Hd & Hq & Ht & Hdl' & Hin & Hout & _).
  unfold Fetcher.get_attachments, Fetcher.bind, Fetcher.gets. rewrite Hdl, Hd.
  eexists. split; [reflexivity|].
  cbn [Fetcher.queue Fetcher.store Fetcher.total_downloads Fetcher._downloads
       Fetcher.put Fetcher.modify Fetcher.set_queue fst].
  rewrite Hq, <- app_assoc. repeat split; try done.
  rewrite Hdl', Hdl.
  replace (S (length datas)) with (length ((Fetcher.Task <$> datas)
                                           ++ [Fetcher.END])).
  2:{ rewrite length_app, length_fmap. simpl. lia. }
  rewrite (app_assoc _ [Fetcher.END] rest : _ ++ Fetcher.END :: rest = _).
  apply drop_app_length.
Qed.

Lemma get_attachments_puts_updates_witness :
  ∃ s',
    Fetcher.get_attachments
      (Fetcher.set_downloads
         (λ _, [Fetcher.Task None; Fetcher.Task (ex_download true None);
                Fetcher.END])
         (Fetcher.set_sync_runs true
            (Fetcher.init ex_store_sync 0 "idx" ∅ ∅)))
    = (s', Returned tt)
    ∧ Fetcher.total_downloads s' = 1
    ∧ Fetcher.store s' !! ex_attachment_loc = Some {["body" := "text"]}.
Proof.
  destruct (get_attachments_puts_updates [None; ex_download true None] []
              (Fetcher.set_downloads
                 (λ _, [Fetcher.Task None; Fetcher.Task (ex_download true None);
                        Fetcher.END])
                 (Fetcher.set_sync_runs true
                    (Fetcher.init ex_store_sync 0 "idx" ∅ ∅))))
    as (s' & Hrun & _ & Ht & _ & Hin & _).
  - reflexivity.
  - reflexivity.
  - apply Forall_cons. split; [by intros ?|].
    apply Forall_singleton. intros l [= <-]. exists ex_attachment.
    split; [vm_compute; reflexivity|]. exists "A". vm_compute. reflexivity.
  - apply (bool_decide_unpack _). vm_compute. exact I.
  - exists s'. split; [exact Hrun|]. split; [exact Ht|].
    rewrite (Hin ex_attachment_loc).
    + vm_compute. reflexivity.
    + apply (bool_decide_unpack _). vm_compute. exact I.
Defined.

(** The same dictionary given by two tasks: its key "_id" is gone when the
    second is awaited, and [get_attachments] raises. *)
Lemma attachment_given_twice_raises :
  (Fetcher.get_attachments
     (Fetcher.set_downloads
        (λ _, [Fetcher.Task (Some ex_attachment_loc);
               Fetcher.Task (Some ex_attachment_loc); Fetcher.END])
        (Fetcher.set_sync_runs true
           (Fetcher.init ex_store_sync 0 "idx" ∅ ∅)))).2
  = Raised (KeyError "_id").
Proof. vm_compute. reflexivity. Qed.

(** ** The pass as a whole *)

Module SyncMore.
Import Bulker.

Lemma get_docs_not_blocked iso_utc gen s :
  (Fetcher.get_docs iso_utc gen s).2 ≠ Blocked.
Proof.
  rewrite FetcherMore.get_docs_unfold.
  pose proof (FetcherMore.for_each_look_at_not_blocked iso_utc gen
                (Fetcher.set_seen_ids (λ _, ∅) (Fetcher.set_sync_runs true s)))
    as Hnb.
  by destruct (Fetcher.for_each gen _ _) as [s1 [[]| |]].
Qed.

Lemma get_attachments_not_blocked iso_utc gen s s1 :
  Fetcher.get_docs iso_utc gen s = (s1, Returned tt) →
  (Fetcher.get_attachments (Fetcher.set_queue (λ _, []) s1)).2 ≠ Blocked.
Proof.
  intros Hdocs.
  apply FetcherMore.get_docs_calls in Hdocs as (tasks & cs & Hdl & _).
  unfold Fetcher.get_attachments, Fetcher.bind at 1, Fetcher.gets.
  cbn [Fetcher._downloads Fetcher.set_queue]. rewrite Hdl, app_assoc.
  pose proof (FetcherMore.downloading_not_blocked
                (Fetcher._downloads s ++ tasks) []
                (Fetcher.set_queue (λ _, []) s1)) as Hnb'.
  unfold Fetcher.bind.
  by destruct (Fetcher.downloading _ _) as [s2 [[]| |]].
Qed.

Lemma fetcher_run_not_blocked iso_utc docs_first gen s :
  Fetcher.run iso_utc docs_first gen s ≠ Blocked.
Proof.
  unfold Fetcher.run, Fetcher.gather.
  pose proof (get_docs_not_blocked iso_utc gen s) as Hnb.
  destruct (Fetcher.get_docs iso_utc gen s) as [s1 r1] eqn:Hdocs.
  cbn [fst snd] in *.
  destruct r1 as [[]|e1|]; [| |done].
  - pose proof (get_attachments_not_blocked _ _ _ _ Hdocs) as Hnb'.
    by destruct (Fetcher.get_attachments _) as [s2 [[]| |]].
  - by destruct (Fetcher.get_attachments _) as [s2 [[]| |]].
Qed.

(** What the Fetcher puts on the queue. *)
Lemma fetcher_run_streams iso_utc docs_first gen s f docs downloads :
  Fetcher.run iso_utc docs_first gen s = Returned (f, docs, downloads) →
  Fetcher.queue s = [] →
  ∃ A B,
    docs = (Dict <$> A) ++ [Str END_DOCS]
    ∧ downloads = (Dict <$> B) ++ [Str END_DOWNLOADS]
    ∧ Forall sound A ∧ Forall sound B.
Proof.
  intros Hrun Hq0.
  apply PassFacts.fetcher_run_returned in Hrun
    as (s1 & Hdocs & -> & Hatt & ->).
  apply FetcherFacts.get_docs_returned in Hdocs
    as (_ & _ & _ & Hq & _).
  apply FetcherFacts.get_attachments_returned in Hatt
    as (att & Hqa & _ & _ & _ & Hatt).
  rewrite Hq0 in Hq. cbn [app] in Hq.
  cbn [Fetcher.queue Fetcher.set_queue app] in Hqa.
  eexists (_ ++ _), att. rewrite fmap_app, <- app_assoc.
  split; [exact Hq|]. split; [exact Hqa|]. split.
  - apply Forall_app. split; [apply PassFacts.classify_sound|].
    unfold deletions. apply Forall_fmap, Forall_true.
    intros v. apply SyncFacts.sound_deletion.
  - eapply Forall_impl; [exact Hatt|]. intros o [_ Ho].
    by apply SyncFacts.sound_doc.
Qed.

(** The loop of the Bulker never ends on dictionaries alone. *)
Lemma drain_dicts_never_returns ops : ∀ self r,
  docs_ended self && downloads_ended self = false →
  drain self (Dict <$> ops) ≠ Returned r.
Proof.
  induction ops as [|o ops IH]; intros self r Hf; [done|].
  rewrite fmap_cons. cbn [drain item_is]. destruct self as [m c b ba ts d dl].
  cbn [docs_ended downloads_ended set_ended] in *. rewrite Hf. cbn [orb].
  destruct (consume _ o) as [e|self1] eqn:Hc; [done|].
  apply BulkerFacts.consume_flags in Hc as (Hd & Hdl & _). apply IH.
  by rewrite Hd, Hdl.
Qed.

Lemma interleave_dicts turns : ∀ A B,
  ∃ C, ElasticServer.interleave turns (Dict <$> A) (Dict <$> B) = Dict <$> C.
Proof.
  induction turns as [|turn turns IH]; intros A B.
  - exists (A ++ B). by rewrite SyncFacts.interleave_nil, fmap_app.
  - destruct A as [|a A]; [exists B; by rewrite SyncFacts.interleave_nil_l|].
    destruct B as [|b B].
    { exists (a :: A). by rewrite SyncFacts.interleave_nil_r. }
    rewrite !fmap_cons. destruct turn; cbn [ElasticServer.interleave].
    + destruct (IH A (b :: B)) as [C HC]. exists (a :: C).
      rewrite fmap_cons in HC. by rewrite HC.
    + destruct (IH (a :: A) B) as [C HC]. exists (b :: C).
      rewrite fmap_cons in HC. by rewrite HC.
Qed.

Lemma not_elem_of_dicts s (ops : list operation) : Str s ∉ Dict <$> ops.
Proof. by intros (o & [=] & _)%list_elem_of_fmap. Qed.

Lemma positive_consume l s o s' :
  consume s o = inr s' → positive l s → positive (l ++ [Dict o]) s'.
Proof.
  unfold consume, positive. destruct (entries o) as [e|es]; [done|].
  intros [= <-] Hp k n.
  assert (Hk : (<[_op_type o := S (ops s !!! _op_type o)]> (ops s)) !! k
               = Some n → 0 < n).
  { destruct (decide (_op_type o = k)) as [<-|Hne].
    - rewrite lookup_insert_eq. intros [= <-]. lia.
    - rewrite lookup_insert_ne by done. apply Hp. }
  cbn -[Nat.mul]. by destruct (_ <=? _).
Qed.

Lemma drain_positive q self self' rest :
  (∀ k n, ops self !! k = Some n → 0 < n) →
  drain (enter self) q = Returned (self', rest) →
  ∀ k n, ops self' !! k = Some n → 0 < n.
Proof.
  intros H0 Hr.
  destruct (BulkerFacts.drain_invariant positive (λ _ _ _ _ H, H)
              (λ _ _ _ _ H, H) positive_consume q [] (enter self) self' rest
              eq_refl H0 Hr) as (c & _ & H).
  exact H.
Qed.

(** Two maps of counters without zeros that count the same are equal. *)
Lemma counters_eq (m1 m2 : gmap string nat) :
  (∀ k n, m1 !! k = Some n → 0 < n) →
  (∀ k n, m2 !! k = Some n → 0 < n) →
  (∀ k, m1 !!! k = m2 !!! k) →
  m1 = m2.
Proof.
  intros H1 H2 Heq. apply map_eq. intros k. specialize (Heq k).
  rewrite !lookup_total_alt in Heq.
  destruct (m1 !! k) as [n1|] eqn:E1, (m2 !! k) as [n2|] eqn:E2;
    simpl in Heq; try done.
  - by subst.
  - apply H1 in E1. unfold inhabitant in Heq. simpl in Heq. lia.
  - apply H2 in E2. unfold inhabitant in Heq. simpl in Heq. lia.
Qed.

(** The counters of the Bulker after it has read the two streams. *)
Lemma run_on_streams {response} (client_bulk : list wire → option response)
    turns A B bulker rs rest :
  Forall sound A → Forall sound B →
  Bulker.run client_bulk Bulker.init
    (ElasticServer.interleave turns ((Dict <$> A) ++ [Str END_DOCS])
       ((Dict <$> B) ++ [Str END_DOWNLOADS]))
  = Returned (bulker, rs, rest) →
  (∀ k n, ops bulker !! k = Some n → 0 < n)
  ∧ ∀ k, ops bulker !!! k = length (of_type k A) + length (of_type k B).
Proof.
  intros HA HB Hr.
  apply BulkerFacts.run_returned in Hr as (s1 & Hd & -> & _).
  destruct (SyncFacts.drain_interleave turns A B (enter init) eq_refl eq_refl
              HA HB) as (s1' & Hd' & _).
  rewrite Hd in Hd'. injection Hd' as <- ->.
  assert (Hops : ops (flush s1) = ops s1).
  { unfold flush. by case_match. }
  rewrite Hops. split.
  - eapply drain_positive; [|exact Hd]. intros k n. cbn.
    by rewrite lookup_empty.
  - intros k.
    destruct (BulkerMore.drain_tallied _ _ _ _ Hd) as (c & Hq & Ht).
    rewrite app_nil_r in Hq. subst c. rewrite Ht. cbn [ops init].
    rewrite lookup_total_empty. unfold inhabitant. cbn [Nat.add].
    unfold of_type. rewrite PassFacts.interleave_operations_length.
    rewrite !PassFacts.operations_app, !PassFacts.operations_dicts.
    cbn [operations omap list_omap]. by rewrite !app_nil_r.
Qed.

End SyncMore.

(** X11: a failure of [get_docs] ends no stream.  When [get_docs]
    raises, it has put neither "END" on the downloads queue nor "END_DOCS"
    on the queue; [get_attachments], which takes the downloads scheduled
    before the failure, never returns and never puts "END_DOWNLOADS"; and
    a Bulker that reads what the two have put, in any order, never
    returns. *)
Theorem failed_get_docs_ends_no_stream {response} iso_utc
    (client_bulk : list wire → option response) generator s s1 e :
  Fetcher.get_docs iso_utc generator s = (s1, Raised e) →
  Fetcher.queue s = [] →
  Fetcher._downloads s = [] →
  let t2 := Fetcher.get_attachments (Fetcher.set_queue (λ _, []) s1) in
  (Fetcher.END ∉ Fetcher._downloads s1)
  ∧ (Str END_DOCS ∉ Fetcher.queue s1)
  ∧ t2.2 ≠ Returned tt
  ∧ (Str END_DOWNLOADS ∉ Fetcher.queue t2.1)
  ∧ ∀ turns self r,
      Bulker.run client_bulk self
        (ElasticServer.interleave turns (Fetcher.queue s1)
           (Fetcher.queue t2.1))
      ≠ Returned r.
Proof.
  intros Hdocs Hq0 Hd0 t2. rewrite FetcherMore.get_docs_unfold in Hdocs.
  set (s0 := Fetcher.set_seen_ids _ _) in Hdocs.
  destruct (FetcherMore.for_each_look_at_puts iso_utc generator s0)
    as (ops & tasks & Hq & Hd & Ht & Hs).
  destruct (Fetcher.for_each generator _ s0) as [s1' r] eqn:Hloop.
  destruct r as [[]|e1|]; [done| |done]. injection Hdocs as -> ->.
  cbn [fst Fetcher.queue Fetcher._downloads Fetcher.sync_runs s0
       Fetcher.set_seen_ids Fetcher.set_sync_runs] in Hq, Hd, Hs.
  rewrite Hq0 in Hq. rewrite Hd0 in Hd. cbn [app] in Hq, Hd.
  destruct (FetcherMore.downloading_starved tasks
              (Fetcher.set_queue (λ _, []) s1) Hs Ht) as (Hnr & ops' & Hq').
  cbn [Fetcher.queue Fetcher.set_queue app] in Hq'.
  assert (Ht2 : t2 = Fetcher.downloading tasks (Fetcher.set_queue (λ _, []) s1)).
  { unfold t2, Fetcher.get_attachments, Fetcher.bind, Fetcher.gets.
    cbn [Fetcher._downloads Fetcher.set_queue]. rewrite Hd.
    by destruct (Fetcher.downloading tasks _) as [s2 [[]| |]]. }
  rewrite Ht2, Hq, Hq', Hd.
  split; [by intros ?%(proj1 (Forall_forall _ _) Ht)|].
  split; [apply SyncMore.not_elem_of_dicts|]. split; [done|].
  split; [apply SyncMore.not_elem_of_dicts|].
  intros turns self [[self' rs] rest] Hr.
  apply BulkerFacts.run_returned in Hr as (sd & Hdrain & _).
  destruct (SyncMore.interleave_dicts turns ops ops') as [C HC].
  rewrite HC in Hdrain.
  exact (SyncMore.drain_dicts_never_returns C (Bulker.enter self) (sd, rest)
           eq_refl Hdrain).
Qed.

Lemma failed_get_docs_ends_no_stream_witness :
  (Str END_DOCS ∉ Fetcher.queue ex_fetched_unchanged.1)
  ∧ (Fetcher.get_attachments
       (Fetcher.set_queue (λ _, []) ex_fetched_unchanged.1)).2
    ≠ Returned tt.
Proof.
  destruct (failed_get_docs_ends_no_stream ex_clock always_ok [(0, None)]
              ex_fetcher_A ex_fetched_unchanged.1 TypeError)
    as (_ & Hq & Hnr & _).
  - vm_compute. reflexivity.
  - reflexivity.
  - reflexivity.
  - by split.
Defined.

(** X12: [async_bulk] never waits for ever, whatever the schedule, and it
    raises only what the scan of the index raises, what [get_docs] raises
    on the generator, what [get_attachments] raises on the downloads
    [get_docs] has scheduled, or, once both have returned, the error of a
    dispatch call on one of the batches of the Bulker: the Bulker never
    raises on a value the Fetcher has put. *)
Theorem async_bulk_outcome {response} iso_utc
    (client_bulk : list wire → option response)
    store clock docs_first turns stored index generator :
  match ElasticServer.async_bulk iso_utc client_bulk store clock docs_first
          turns stored index generator with
  | Returned _ => True
  | Blocked => False
  | Raised e =>
      ElasticServer.existing (default [] stored) ∅ ∅ = inl e
      ∨ ∃ ids tss,
          ElasticServer.existing (default [] stored) ∅ ∅ = inr (ids, tss)
          ∧ let t1 := Fetcher.get_docs iso_utc generator
                        (Fetcher.init store clock index ids tss) in
            let t2 := Fetcher.get_attachments
                        (Fetcher.set_queue (λ _, []) t1.1) in
            t1.2 = Raised e
            ∨ t2.2 = Raised e
            ∨ (e = ApiError
               ∧ t1.2 = Returned tt
               ∧ t2.2 = Returned tt
               ∧ ∃ bulker rest b,
                   Bulker.drain (Bulker.enter Bulker.init)
                     (ElasticServer.interleave turns (Fetcher.queue t1.1)
                        (Fetcher.queue t2.1))
                   = Returned (bulker, rest)
                   ∧ b ∈ Bulker.tasks (Bulker.flush bulker)
                   ∧ client_bulk b = None)
  end.
Proof.
  unfold ElasticServer.async_bulk.
  destruct (ElasticServer.existing _ _ _) as [e|[ids tss]]; [by left|].
  set (f0 := Fetcher.init store clock index ids tss).
  pose proof (SyncMore.fetcher_run_not_blocked iso_utc docs_first generator f0)
    as Hnb.
  destruct (Fetcher.run _ _ _ f0) as [[[f docs] downloads]|e|] eqn:Hrun;
    [| |done].
  - pose proof Hrun as Hstreams.
    apply SyncMore.fetcher_run_streams in Hstreams
      as (A & B & HA' & HB' & HA & HB); [|done].
    apply PassFacts.fetcher_run_returned in Hrun
      as (s1 & Hdocs & Hq1 & Hatt & Hq2).
    destruct (SyncFacts.drain_interleave turns A B (Bulker.enter Bulker.init)
                eq_refl eq_refl HA HB) as (sd & Hd & _).
    unfold Bulker.run. rewrite HA', HB', Hd.
    destruct (Bulker.gather _ _) as [rs|] eqn:Hg; [done|].
    right. exists ids, tss. split; [done|]. fold f0. cbn zeta.
    rewrite Hdocs. cbn [fst snd]. rewrite Hatt. cbn [fst snd]. right; right. split; [done|]. split; [done|].
    split; [done|]. rewrite <- Hq1, <- Hq2, HA', HB'.
    apply mapM_None, Exists_exists in Hg as (b & Hb & Hnone).
    by exists sd, [], b.
  - right. exists ids, tss. split; [done|]. fold f0.
    unfold Fetcher.run, Fetcher.gather in Hrun.
    destruct (Fetcher.get_docs iso_utc generator f0) as [s1 r1].
    cbn [fst snd] in *.
    destruct (Fetcher.get_attachments _) as [s2 r2]. cbn [fst snd] in *.
    destruct r1 as [[]|e1|], r2 as [[]|e2|]; try done;
      try (injection Hrun as <-; auto).
    destruct docs_first; auto.
Qed.

(** X13: the statistics [async_bulk] returns do not depend on the order
    in which the puts of [get_docs] and of [get_attachments] reach the
    queue: two runs that return, on the same input and with any two
    orders, return the same counters. *)
Theorem statistics_independent_of_schedule {response} iso_utc
    (client_bulk : list wire → option response)
    store clock first1 first2 turns1 turns2 stored index generator st1 st2 :
  ElasticServer.async_bulk iso_utc client_bulk store clock first1 turns1
    stored index generator = Returned st1 →
  ElasticServer.async_bulk iso_utc client_bulk store clock first2 turns2
    stored index generator = Returned st2 →
  st1 = st2.
Proof.
  unfold ElasticServer.async_bulk.
  destruct (ElasticServer.existing _ _ _) as [e|[ids tss]]; [done|].
  set (f0 := Fetcher.init store clock index ids tss).
  destruct (Fetcher.run iso_utc first1 generator f0)
    as [[[f docs] downloads]|e|] eqn:Hrun; [|done..].
  destruct (Fetcher.run iso_utc first2 generator f0)
    as [[[f' docs'] downloads']|e|] eqn:Hrun'; [|done..].
  pose proof (PassFacts.fetcher_run_returned _ _ _ _ _ _ _ Hrun)
    as (s1 & Hdocs & Hq1 & Hatt & Hq2).
  pose proof (PassFacts.fetcher_run_returned _ _ _ _ _ _ _ Hrun')
    as (s1' & Hdocs' & Hq1' & Hatt' & Hq2').
  rewrite Hdocs in Hdocs'. injection Hdocs' as <-.
  rewrite Hatt in Hatt'. injection Hatt' as <-.
  rewrite <- Hq1 in Hq1'. rewrite <- Hq2 in Hq2'. subst docs' downloads'.
  destruct (SyncMore.fetcher_run_streams _ _ _ _ _ _ _ Hrun eq_refl)
    as (A & B & -> & -> & HA & HB).
  destruct (Bulker.run _ _ (ElasticServer.interleave turns1 _ _))
    as [[[b1 rs1] rest1]| |] eqn:H1; [|done..].
  destruct (Bulker.run _ _ (ElasticServer.interleave turns2 _ _))
    as [[[b2 rs2] rest2]| |] eqn:H2; [|done..].
  intros [= <-] [= <-].
  destruct (SyncMore.run_on_streams _ _ _ _ _ _ _ HA HB H1) as [Hp1 Hc1].
  destruct (SyncMore.run_on_streams _ _ _ _ _ _ _ HA HB H2) as [Hp2 Hc2].
  f_equal. apply SyncMore.counters_eq; [done..|].
  intros k. by rewrite Hc1, Hc2.
Qed.

Lemma statistics_independent_of_schedule_witness :
  ∃ st,
    ElasticServer.async_bulk ex_clock always_ok ex_store_sync 0 false
      [false; true] None "idx" [(0, Some ex_download)] = Returned st
    ∧ ex_sync = Returned st.
Proof.
  assert (∃ st, ElasticServer.async_bulk ex_clock always_ok ex_store_sync 0
                  false [false; true] None "idx" [(0, Some ex_download)]
                = Returned st) as [st1 H1].
  { eexists. vm_compute. reflexivity. }
  assert (∃ st, ex_sync = Returned st) as [st2 H2].
  { eexists. vm_compute. reflexivity. }
  exists st1. split; [exact H1|].
  by rewrite (statistics_independent_of_schedule ex_clock always_ok
                ex_store_sync 0 false true [false; true] [] None "idx"
                [(0, Some ex_download)] st1 st2 H1 H2).
Defined.

Module SnapshotFacts.
Import ElasticServer.

Lemma existing_returned es_docs : ∀ ids0 tss0 ids tss,
  existing es_docs ids0 tss0 = inr (ids, tss) →
  (∀ i, i ∈ ids ↔ i ∈ ids0 ∨ ∃ es_doc, es_doc ∈ es_docs
                                       ∧ es_doc !! "id" = Some i)
  ∧ (∀ i, is_Some (tss !! i)
          ↔ is_Some (tss0 !! i) ∨ ∃ es_doc, es_doc ∈ es_docs
                                            ∧ es_doc !! "id" = Some i)
  ∧ (∀ i, (∀ es_doc, es_doc ∈ es_docs → es_doc !! "id" ≠ Some i) →
          tss !! i = tss0 !! i)
  ∧ Forall (λ es_doc, is_Some (es_doc !! "id")
                      ∧ is_Some (es_doc !! "timestamp")) es_docs.
Proof.
  induction es_docs as [|doc docs IH]; intros ids0 tss0 ids tss; cbn [existing].
  - intros [= <- <-]. repeat split; try done; try (by left).
    + intros [?|(d & Hd & _)]; [done|]. by apply elem_of_nil in Hd.
    + intros [?|(d & Hd & _)]; [done|]. by apply elem_of_nil in Hd.
  - destruct (doc !! "id") as [i0|] eqn:Hi; [|done].
    destruct (doc !! "timestamp") as [t0|] eqn:Ht; [|done].
    intros Hrec. apply IH in Hrec as (Hids & Hdom & Hkeep & Hall).
    split; [|split; [|split]].
    + intros i. rewrite Hids, elem_of_union, elem_of_singleton. split.
      * intros [[->|?]|(d & Hd & Hdi)]; [right|by left|right].
        -- exists doc. split; [by left|done].
        -- exists d. split; [by right|done].
      * intros [?|(d & [->|Hd]%elem_of_cons & Hdi)]; [left; by right| |].
        -- left; left. congruence.
        -- right. by exists d.
    + intros i. rewrite Hdom. split.
      * intros [His|(d & Hd & Hdi)].
        -- destruct (decide (i0 = i)) as [<-|Hne].
           ++ right. exists doc. split; [by left|done].
           ++ left. by rewrite lookup_insert_ne in His.
        -- right. exists d. split; [by right|done].
      * intros [His|(d & [->|Hd]%elem_of_cons & Hdi)].
        -- left. destruct (decide (i0 = i)) as [<-|Hne].
           ++ rewrite lookup_insert_eq. by eexists.
           ++ by rewrite lookup_insert_ne.
        -- left. assert (i0 = i) as -> by congruence.
           rewrite lookup_insert_eq. by eexists.
        -- right. by exists d.
    + intros i Hno. rewrite Hkeep.
      * apply lookup_insert_ne. intros ->. apply (Hno doc); [by left|done].
      * intros d Hd. apply Hno. by right.
    + apply Forall_cons. split; [|done]. split; by eexists.
Qed.

Lemma existing_last pre : ∀ doc post ids0 tss0 ids tss i t,
  existing (pre ++ doc :: post) ids0 tss0 = inr (ids, tss) →
  doc !! "id" = Some i →
  doc !! "timestamp" = Some t →
  (∀ later, later ∈ post → later !! "id" ≠ Some i) →
  tss !! i = Some t.
Proof.
  induction pre as [|d pre IH]; intros doc post ids0 tss0 ids tss i t;
    cbn [app existing].
  - intros Hrec Hi Ht Hno. rewrite Hi, Ht in Hrec.
    apply existing_returned in Hrec as (_ & _ & Hkeep & _).
    rewrite Hkeep by done. apply lookup_insert_eq.
  - destruct (d !! "id") as [i0|]; [|done].
    destruct (d !! "timestamp") as [t0|]; [|done]. apply IH.
Qed.


End SnapshotFacts.

(** X14: the snapshot [async_bulk] builds from the scanned documents (lines
    253-259).  The ids are exactly the ids of the scanned documents, the
    timestamps are stored for exactly these ids, and when an id is scanned
    more than once the timestamp of its last document is the one kept. *)
Theorem snapshot_of_the_scan es_docs ids tss :
  ElasticServer.existing es_docs ∅ ∅ = inr (ids, tss) →
  ids = dom tss
  ∧ (∀ i, i ∈ ids ↔ ∃ es_doc, es_doc ∈ es_docs ∧ es_doc !! "id" = Some i)
  ∧ ∀ pre es_doc post i t,
      es_docs = pre ++ es_doc :: post →
      es_doc !! "id" = Some i →
      es_doc !! "timestamp" = Some t →
      (∀ later, later ∈ post → later !! "id" ≠ Some i) →
      tss !! i = Some t.
Proof.
  intros Hrec.
  pose proof (SnapshotFacts.existing_returned _ _ _ _ _ Hrec)
    as (Hids & Hdom & _).
  assert (Hmem : ∀ i, i ∈ ids ↔ ∃ es_doc, es_doc ∈ es_docs
                                          ∧ es_doc !! "id" = Some i).
  { intros i. rewrite Hids. split; [|by right].
    intros [H|H]; [|done]. by apply not_elem_of_empty in H. }
  split; [|split; [exact Hmem|]].
  - apply set_eq. intros i. rewrite elem_of_dom, Hdom, Hmem.
    rewrite lookup_empty. split; [by right|].
    intros [[? [=]]|?]. done.
  - intros pre doc post i t ->.
    exact (SnapshotFacts.existing_last pre doc post ∅ ∅ ids tss i t Hrec).
Qed.

Lemma snapshot_of_the_scan_witness :
  ∃ ids tss,
    ElasticServer.existing
      [{["id" := "A"; "timestamp" := "T1"]};
       {["id" := "A"; "timestamp" := "T2"]}] ∅ ∅ = inr (ids, tss)
    ∧ ids = dom tss
    ∧ tss !! "A" = Some "T2".
Proof.
  assert (∃ ids tss, ElasticServer.existing
            [{["id" := "A"; "timestamp" := "T1"]};
             {["id" := "A"; "timestamp" := "T2"]}] ∅ ∅ = inr (ids, tss))
    as (ids & tss & H).
  { eexists _, _. vm_compute. reflexivity. }
  destruct (snapshot_of_the_scan _ ids tss H) as (Hdom & _ & Hlast).
  exists ids, tss. split; [exact H|]. split; [exact Hdom|].
  apply (Hlast [{["id" := "A"; "timestamp" := "T1"]}]
           {["id" := "A"; "timestamp" := "T2"]} [] "A" "T2").
  - reflexivity.
  - vm_compute. reflexivity.
  - vm_compute. reflexivity.
  - by intros later ?%elem_of_nil.
Defined.


(** ** ESIndex.get_all_docs *)

Module IndexFacts.
Import ESIndex.

Section Static.

Context {hit object : Type}.
Variable docs : list hit.
Variable f : hit → object.
Variable refresh : option error.
Variable serverless : bool.

Lemma yield_hits_total hits :
  yield_hits (λ h, inr (f h)) hits = (f <$> hits, None).
Proof. induction hits as [|h hits IH]; [done|]. simpl. by rewrite IH. Qed.

Lemma paging_static page_size : ∀ fuel count,
  0 < page_size →
  length docs - count < fuel →
  paging (search_over docs) (λ h, inr (f h)) fuel page_size count count
  = (f <$> drop count docs, Exhausted).
Proof.
  induction fuel as [|fuel IH]; intros count Hp Hfuel; [lia|].
  cbn [paging]. unfold search_over at 1. rewrite yield_hits_total.
  rewrite length_take, length_drop.
  destruct (length docs <=? count + page_size `min` (length docs - count))
    eqn:Hle.
  - apply Nat.leb_le in Hle. rewrite take_ge; [done|].
    rewrite length_drop. lia.
  - apply Nat.leb_gt in Hle.
    assert (Hmin : page_size `min` (length docs - count) = page_size) by lia.
    rewrite Hmin. rewrite IH by lia.
    by rewrite <- fmap_app, <- drop_drop, take_drop.
Qed.

Lemma paging_zero : ∀ fuel,
  docs ≠ [] →
  paging (search_over docs) (λ h, inr (f h)) fuel 0 0 0 = ([], Unfinished).
Proof.
  induction fuel as [|fuel IH]; intros Hne; [done|].
  cbn [paging]. unfold search_over at 1. rewrite take_0.
  cbn [yield_hits length Nat.add app].
  destruct (length docs <=? 0) eqn:Hle.
  - apply Nat.leb_le in Hle. destruct docs; [done|simpl in Hle; lia].
  - by rewrite IH.
Qed.

End Static.

End IndexFacts.

(** X17: [get_all_docs] over an index that does not change, with a page
    size of at least one and a [_create_object] that does not raise:
    given enough turns of its loop, the generator yields the object of
    every document of the index, once each and in the order of the index,
    and ends. *)
Theorem get_all_docs_yields_the_index {hit object} (docs : list hit)
    (f : hit → object) (refresh : option ESIndex.error) (serverless : bool)
    (fuel page_size : nat) :
  (if serverless then None else refresh) = None →
  0 < page_size →
  length docs < fuel →
  ESIndex.get_all_docs (ESIndex.search_over docs) (λ h, inr (f h)) refresh
    serverless fuel page_size
  = (f <$> docs, ESIndex.Exhausted).
Proof.
  intros Hr Hp Hfuel. unfold ESIndex.get_all_docs. rewrite Hr.
  rewrite IndexFacts.paging_static by lia. by rewrite drop_0.
Qed.

Lemma get_all_docs_yields_the_index_witness :
  ESIndex.get_all_docs (ESIndex.search_over [1; 2; 3; 4; 5]) (λ h, inr (h * 2))
    None false 6 2
  = ([2; 4; 6; 8; 10], ESIndex.Exhausted).
Proof.
  apply (get_all_docs_yields_the_index [1; 2; 3; 4; 5] (λ h, h * 2) None
           false 6 2); [reflexivity|lia|simpl; lia].
Defined.

(** X18: with a page size of zero, [get_all_docs] over an index that holds
    a document never ends and yields nothing: every page comes back empty,
    the count stays below the total and the loop asks again. *)
Theorem get_all_docs_page_size_zero {hit object} (docs : list hit)
    (f : hit → object) (refresh : option ESIndex.error) (serverless : bool)
    (fuel : nat) :
  (if serverless then None else refresh) = None →
  docs ≠ [] →
  ESIndex.get_all_docs (ESIndex.search_over docs) (λ h, inr (f h)) refresh
    serverless fuel 0
  = ([], ESIndex.Unfinished).
Proof.
  intros Hr Hne. unfold ESIndex.get_all_docs. rewrite Hr.
  by apply IndexFacts.paging_zero.
Qed.

Lemma get_all_docs_page_size_zero_witness :
  ESIndex.get_all_docs (ESIndex.search_over [1; 2]) (λ h, inr (h * 2))
    None false 1000 0
  = ([], ESIndex.Unfinished).
Proof.
  apply (get_all_docs_page_size_zero [1; 2] (λ h, h * 2) None false 1000);
    [reflexivity|done].
Defined.

(** X16: the counters [async_bulk] returns, type by type.  The Bulker has
    counted as many creates as documents created, as many updates as
    documents updated plus attachments extracted, as many deletes as ids
    of the snapshot that the generator has not yielded, and nothing under
    any other type. *)
Theorem counters_by_type {response} iso_utc
    (client_bulk : list wire → option response)
    store clock docs_first turns stored index generator st ids tss :
  ElasticServer.async_bulk iso_utc client_bulk store clock docs_first turns
    stored index generator = Returned st →
  ElasticServer.existing (default [] stored) ∅ ∅ = inr (ids, tss) →
  ElasticServer.bulk_operations st !!! "create" = ElasticServer.doc_created st
  ∧ ElasticServer.bulk_operations st !!! "update"
    = ElasticServer.doc_updated st + ElasticServer.attachment_extracted st
  ∧ ElasticServer.bulk_operations st !!! "delete"
    = length (filter (λ v, v ∉ omap (yielded store) generator) (elements ids))
  ∧ ∀ k, k ≠ "create" → k ≠ "update" → k ≠ "delete" →
         ElasticServer.bulk_operations st !!! k = 0.
Proof.
  unfold ElasticServer.async_bulk. intros Hrun Hex. rewrite Hex in Hrun.
  set (f0 := Fetcher.init store clock index ids tss) in Hrun.
  destruct (Fetcher.run iso_utc docs_first generator f0)
    as [[[f' docs] downloads]| |] eqn:Hf; [|done..].
  destruct (Bulker.run _ _ _) as [[[bulker rs] rest]| |] eqn:Hr; [|done..].
  injection Hrun as <-.
  cbn [ElasticServer.doc_created ElasticServer.doc_updated
       ElasticServer.attachment_extracted ElasticServer.bulk_operations].
  apply PassFacts.fetcher_run_returned in Hf as (s1 & Hdocs & -> & Hatt & ->).
  apply FetcherFacts.get_docs_returned in Hdocs
    as (_ & _ & _ & Hq & Hc & Hu & Hd & _ & _ & _).
  apply FetcherFacts.get_attachments_returned in Hatt
    as (att & Hqa & Hta & Hca & Hua & Hatt).
  cbn [Fetcher.queue Fetcher.set_queue Fetcher.total_downloads
       Fetcher.total_docs_created Fetcher.total_docs_updated
       Fetcher.store Fetcher.existing_ids Fetcher.existing_timestamps
       Fetcher.index f0 Fetcher.init app] in *.
  set (ops := omap (classify store tss ids index) generator) in *.
  set (dels := deletions _ _ _) in *.
  assert (Hty : Forall (λ o, _op_type o = "create" ∨ _op_type o = "update") ops)
    by apply PassFacts.classify_types.
  assert (Hdty : Forall (λ o, _op_type o = "delete") dels)
    by apply PassFacts.deletions_types.
  assert (Haty : Forall (λ o, _op_type o = "update") att).
  { eapply Forall_impl; [exact Hatt|]. by intros o [? _]. }
  rewrite Hq, Hqa in Hr.
  rewrite (app_assoc (Dict <$> ops)), <- fmap_app in Hr.
  destruct (SyncMore.run_on_streams client_bulk turns (ops ++ dels) att bulker
              rs rest) as [_ Hcount]; [| |exact Hr|].
  { apply Forall_app. split; [apply PassFacts.classify_sound|].
    unfold dels, deletions. apply Forall_fmap, Forall_true.
    intros v. apply SyncFacts.sound_deletion. }
  { eapply Forall_impl; [exact Hatt|]. intros o [_ Ho].
    by apply SyncFacts.sound_doc. }
  assert (Hsplit : ∀ k, Bulker.ops bulker !!! k
    = length (of_type k ops) + length (of_type k dels) + length (of_type k att)).
  { intros k. rewrite Hcount. unfold of_type.
    by rewrite filter_app, length_app. }
  assert (Hnone : ∀ k t (l : list operation),
    k ≠ t → Forall (λ o, _op_type o = t) l → of_type k l = []).
  { intros k t l Hne Hl. apply PassFacts.of_type_none.
    eapply Forall_impl; [exact Hl|]. intros o ->. done. }
  destruct (PassFacts.of_type_split ops Hty) as [_ Hnodel].
  rewrite !Hsplit.
  split; [|split; [|split]].
  - rewrite (Hnone "create" "delete" dels), (Hnone "create" "update" att)
      by done.
    rewrite Hca, Hc. simpl. lia.
  - rewrite (Hnone "update" "delete" dels) by done.
    rewrite (PassFacts.of_type_all "update" att) by done.
    rewrite Hua, Hu, Hta, Hd. simpl. lia.
  - rewrite Hnodel, (Hnone "delete" "update" att) by done.
    rewrite (PassFacts.of_type_all "delete" dels) by done.
    unfold dels, deletions. rewrite length_fmap. simpl.
    rewrite Nat.add_0_r. f_equal. apply list_filter_iff.
    intros v. by rewrite elem_of_list_to_set.
  - intros k H1 H2 H3. rewrite Hsplit.
    rewrite (Hnone k "delete" dels), (Hnone k "update" att) by done.
    rewrite (PassFacts.of_type_none k ops); [done|].
    eapply Forall_impl; [exact Hty|]. intros o [-> | ->]; done.
Qed.

Lemma counters_by_type_witness :
  ∃ st,
    ex_sync = Returned st
    ∧ ElasticServer.bulk_operations st !!! "create"
      = ElasticServer.doc_created st
    ∧ ElasticServer.bulk_operations st !!! "update"
      = ElasticServer.doc_updated st + ElasticServer.attachment_extracted st.
Proof.
  assert (∃ st, ex_sync = Returned st) as [st Hs].
  { eexists. vm_compute. reflexivity. }
  destruct (counters_by_type ex_clock always_ok ex_store_sync 0 true [] None
              "idx" [(0, Some ex_download)] st ∅ ∅ Hs eq_refl)
    as (Hc & Hu & _).
  by exists st.
Defined.
